(** * NaN payloads versus "no data" sentinels: the C++ test case

    A shallow embedding of [src/main/cpp/TestCase.cpp].  The program reads a
    raster of [float] samples, a list of [double] coordinates and a list of
    expected results, runs ten rounds of bilinear interpolations with a
    chaotic feedback on the coordinates, and collects per-round statistics.
    It does so twice: once with missing samples encoded as quiet NaN bit
    patterns ([TestNaN]) and once with sentinel values ([TestNodata]).

    The embedding keeps the machine representation visible:
    - [int] and [int32_t] are [Z]; an operation on [int] has a result only
      when the type can hold it (signed overflow is undefined behaviour),
      an operation on [uint32_t] or [uint64_t] wraps around;
    - a [float] of the raster is its 32-bit pattern, decoded on use;
    - a [double] is a [spec_float] of the standard library (binary64);
    - arrays are lists, read with [read] (nothing outside the bounds);
    - [exit(1)], an uncaught exception and undefined behaviour are the
      three non-returning constructors of [outcome]. *)

From Stdlib Require Import ZArith List Bool Lia String.
From Stdlib Require Import Floats.SpecFloat.
Import ListNotations.
Local Open Scope Z_scope.

(** ** Compile-time constants *)

Definition WIDTH : Z := 800.
Definition HEIGHT : Z := 600.
Definition NUM_INTERPOLATION_POINTS : Z := 20000.
Definition NUM_VERIFIED_ITERATIONS : Z := 10.
Definition MISSING_VALUE_THRESHOLD : Z := 10000.

(** ** Outcomes of a computation *)

Inductive outcome (A : Type) : Type :=
| Ok (a : A)            (* normal return *)
| Exit (code : Z)       (* [exit(code)] *)
| Terminate             (* uncaught exception *)
| Undefined.            (* undefined behaviour *)
Arguments Ok {A} a.
Arguments Exit {A} code.
Arguments Terminate {A}.
Arguments Undefined {A}.

Definition bind {A B} (c : outcome A) (k : A -> outcome B) : outcome B :=
  match c with
  | Ok a => k a
  | Exit n => Exit n
  | Terminate => Terminate
  | Undefined => Undefined
  end.

Definition omap {A B} (f : A -> B) (c : outcome A) : outcome B :=
  bind c (fun a => Ok (f a)).

Declare Scope outcome_scope.
Delimit Scope outcome_scope with outcome.
Notation "x <- c ;; k" := (bind c (fun x => k))
  (at level 61, c at next level, right associativity) : outcome_scope.
Local Open Scope outcome_scope.

(** An access through a pointer that may be outside the array. *)
Definition defined {A} (o : option A) : outcome A :=
  match o with Some a => Ok a | None => Undefined end.

(** [for (int i = start; ...; i++) body], with [n] rounds left. *)
Fixpoint for_loop {S : Type} (n : nat) (i : Z) (body : Z -> S -> outcome S)
    (s : S) : outcome S :=
  match n with
  | O => Ok s
  | S n' => s' <- body i s ;; for_loop n' (i + 1) body s'
  end.

(** ** Arrays *)

Definition read {A} (a : list A) (i : Z) : option A :=
  if i <? 0 then None else nth_error a (Z.to_nat i).

Fixpoint upd_nat {A} (a : list A) (n : nat) (v : A) : list A :=
  match a, n with
  | [], _ => []
  | _ :: t, O => v :: t
  | h :: t, S n' => h :: upd_nat t n' v
  end.

Definition write {A} (a : list A) (i : Z) (v : A) : option (list A) :=
  match read a i with
  | Some _ => Some (upd_nat a (Z.to_nat i) v)
  | None => None
  end.

(** ** 32-bit integers *)

Module Int32.
Definition modulus : Z := 2 ^ 32.
Definition half : Z := 2 ^ 31.
Definition min_signed : Z := - half.
Definition max_signed : Z := half - 1.

(** Wrap-around of an unsigned result ([uint32_t]). *)
Definition uwrap (z : Z) : Z := z mod modulus.

(** The result of an operation on [int]: the exact value when [int] can
    hold it.  A signed overflow is undefined behaviour: there is no result. *)
Definition checked (z : Z) : option Z :=
  if (min_signed <=? z) && (z <=? max_signed) then Some z else None.

Definition add (a b : Z) : option Z := checked (a + b).
Definition sub (a b : Z) : option Z := checked (a - b).
Definition mul (a b : Z) : option Z := checked (a * b).

(** [reinterpret_cast<int32_t*>]: the signed reading of a 32-bit pattern. *)
Definition of_bits (w : Z) : Z := if w <? half then w else w - modulus.

(** [std::max] on integers: [(a < b) ? b : a]. *)
Definition max (a b : Z) : Z := if a <? b then b else a.
End Int32.

(** ** IEEE 754 values

    Doubles are the standard library's [spec_float] at precision 53; the
    arithmetic is [SFadd], [SFsub] and [binary_normalize] from the same
    file.  The operations the library lacks ([fma], [fmod], [floor], the
    conversions) are defined here on the same representation. *)

Module IEEE.
Definition double : Type := spec_float.

Definition prec64 : Z := 53.
Definition emax64 : Z := 1024.
Definition prec32 : Z := 24.
Definition emax32 : Z := 128.

Definition round64 (m e : Z) (szero : bool) : double :=
  binary_normalize prec64 emax64 m e szero.

(** The value of a 32-bit pattern read as a binary32 number. *)
Definition decode32 (w : Z) : spec_float :=
  let s := Z.testbit w 31 in
  let ex := (w / 2 ^ 23) mod 2 ^ 8 in
  let fr := w mod 2 ^ 23 in
  if ex =? 255 then (if fr =? 0 then S754_infinity s else S754_nan)
  else if ex =? 0 then
         (if fr =? 0 then S754_zero s else S754_finite s (Z.to_pos fr) (-149))
       else S754_finite s (Z.to_pos (2 ^ 23 + fr)) (ex - 150).

(** The value of a 64-bit pattern read as a binary64 number. *)
Definition decode64 (w : Z) : double :=
  let s := Z.testbit w 63 in
  let ex := (w / 2 ^ 52) mod 2 ^ 11 in
  let fr := w mod 2 ^ 52 in
  if ex =? 2047 then (if fr =? 0 then S754_infinity s else S754_nan)
  else if ex =? 0 then
         (if fr =? 0 then S754_zero s else S754_finite s (Z.to_pos fr) (-1074))
       else S754_finite s (Z.to_pos (2 ^ 52 + fr)) (ex - 1075).

(** Conversion of a binary32 value to [double] (always exact). *)
Definition widen (f : spec_float) : double :=
  match f with
  | S754_finite s m e => round64 (cond_Zopp s (Zpos m)) e s
  | _ => f
  end.

(** [(double) v] for a [float] held as its bit pattern. *)
Definition f2d (w : Z) : double := widen (decode32 w).

(** Conversion of an [int] to [double] (always exact) and to [float]. *)
Definition i2d (n : Z) : double := round64 n 0 false.
Definition i2f (n : Z) : spec_float :=
  binary_normalize prec32 emax32 n 0 false.

Definition isnan (x : double) : bool :=
  match x with S754_nan => true | _ => false end.

Definition dadd : double -> double -> double := SFadd prec64 emax64.
Definition dsub : double -> double -> double := SFsub prec64 emax64.
Definition dabs : double -> double := SFabs.
Definition deq : double -> double -> bool := SFeqb.
Definition dlt : double -> double -> bool := SFltb.
Definition dle : double -> double -> bool := SFleb.

(** [std::max] on doubles: [(a < b) ? b : a]. *)
Definition dmax (a b : double) : double := if dlt a b then b else a.

(** [std::fma(x, y, z)]: the exact product plus [z], rounded once. *)
Definition dfma (x y z : double) : double :=
  match x, y with
  | S754_nan, _ | _, S754_nan => S754_nan
  | S754_infinity _, S754_zero _ | S754_zero _, S754_infinity _ => S754_nan
  | S754_infinity sx, S754_infinity sy
  | S754_infinity sx, S754_finite sy _ _
  | S754_finite sx _ _, S754_infinity sy =>
      let s := xorb sx sy in
      match z with
      | S754_nan => S754_nan
      | S754_infinity sz => if Bool.eqb s sz then z else S754_nan
      | _ => S754_infinity s
      end
  | S754_zero sx, S754_zero sy
  | S754_zero sx, S754_finite sy _ _
  | S754_finite sx _ _, S754_zero sy =>
      let s := xorb sx sy in
      match z with
      | S754_zero sz => if Bool.eqb s sz then z else S754_zero false
      | _ => z
      end
  | S754_finite sx mx ex, S754_finite sy my ey =>
      let s := xorb sx sy in
      let mp := Zpos (mx * my) in
      let ep := ex + ey in
      match z with
      | S754_nan => S754_nan
      | S754_infinity _ => z
      | S754_zero _ => round64 (cond_Zopp s mp) ep false
      | S754_finite sz mz ez =>
          let e := Z.min ep ez in
          round64 (cond_Zopp s (mp * 2 ^ (ep - e))
                   + cond_Zopp sz (Zpos mz * 2 ^ (ez - e))) e false
      end
  end.

(** [std::fmod(x, y)]: the remainder of the truncated division, exact. *)
Definition dfmod (x y : double) : double :=
  match x, y with
  | S754_nan, _ | _, S754_nan => S754_nan
  | S754_infinity _, _ | _, S754_zero _ => S754_nan
  | S754_zero _, _ => x
  | S754_finite _ _ _, S754_infinity _ => x
  | S754_finite sx mx ex, S754_finite _ my ey =>
      let e := Z.min ex ey in
      let r := (Zpos mx * 2 ^ (ex - e)) mod (Zpos my * 2 ^ (ey - e)) in
      round64 (cond_Zopp sx r) e sx
  end.

(** [std::floor(x)]. *)
Definition dfloor (x : double) : double :=
  match x with
  | S754_finite s m e =>
      if 0 <=? e then x
      else round64 (cond_Zopp s (Zpos m) / 2 ^ (- e)) 0 s
  | _ => x
  end.

(** [(int) x]: truncation toward zero, undefined outside the [int] range. *)
Definition d2i (x : double) : option Z :=
  match x with
  | S754_zero _ => Some 0
  | S754_finite s m e =>
      let t := if 0 <=? e then cond_Zopp s (Zpos m * 2 ^ e)
               else cond_Zopp s (Zpos m / 2 ^ (- e)) in
      if (Int32.min_signed <=? t) && (t <=? Int32.max_signed)
      then Some t else None
  | _ => None
  end.
End IEEE.
Import IEEE.

(** ** Files, byte order and the loaders *)

Inductive endian : Type := little | big.

Definition endian_eqb (a b : endian) : bool :=
  match a, b with
  | little, little | big, big => true
  | _, _ => false
  end.

(** What the program sees of its environment: the files that exist, whether
    the heap can serve a request of a given size, and [std::endian::native]. *)
Record World : Type := {
  files : string -> option (list Byte.byte);
  heap_serves : Z -> bool;
  native : endian
}.

Definition path_append (dir name : string) : string :=
  (dir ++ "/" ++ name)%string.

Definition byte_val (b : Byte.byte) : Z := Z.of_N (Byte.to_N b).

(** The unsigned integer held by a group of bytes, first byte lowest. *)
Fixpoint word_le (bs : list Byte.byte) : Z :=
  match bs with
  | [] => 0
  | b :: t => byte_val b + 256 * word_le t
  end.

(** The same group read by a host of the given byte order. *)
Definition word_native (host : endian) (bs : list Byte.byte) : Z :=
  match host with
  | little => word_le bs
  | big => word_le (rev bs)
  end.

(** [n] consecutive groups of [k] bytes. *)
Fixpoint chunks (k n : nat) (bs : list Byte.byte) : list (list Byte.byte) :=
  match n with
  | O => []
  | S n' => firstn k bs :: chunks k n' (skipn k bs)
  end.

(** The byte swap of [loadRaster], on [uint32_t]. *)
Definition swap32 (v : Z) : Z :=
  Z.lor (Z.lor (Z.lor (Z.shiftr v 24)
                      (Z.land (Int32.uwrap (Z.shiftl v 8)) 0x00FF0000))
               (Z.land (Z.shiftr v 8) 0x0000FF00))
        (Int32.uwrap (Z.shiftl v 24)).

Definition uwrap64 (z : Z) : Z := z mod 2 ^ 64.

(** The byte swap of [toNativeByteOrder], on [uint64_t]. *)
Definition swap64 (v : Z) : Z :=
  Z.lor (Z.lor (Z.lor (Z.lor (Z.lor (Z.lor (Z.lor
    (Z.shiftr v 56)
    (Z.land (uwrap64 (Z.shiftl v 40)) 0x00FF000000000000))
    (Z.land (uwrap64 (Z.shiftl v 24)) 0x0000FF0000000000))
    (Z.land (uwrap64 (Z.shiftl v 8)) 0x000000FF00000000))
    (Z.land (Z.shiftr v 8) 0x00000000FF000000))
    (Z.land (Z.shiftr v 24) 0x0000000000FF0000))
    (Z.land (Z.shiftr v 40) 0x000000000000FF00))
    (uwrap64 (Z.shiftl v 56)).

(** [readAllBytes].  The stream is open when the file exists; [new char[n]]
    throws when the heap cannot serve the request, so the test of [bytes]
    that follows it always succeeds; a read of fewer than [numBytes] bytes
    leaves the stream in a failed state. *)
Definition readAllBytes (w : World) (file : string) (numBytes : Z)
  : outcome (option (list Byte.byte)) :=
  match files w file with
  | Some content =>
      if (0 <=? numBytes) && heap_serves w numBytes then
        if numBytes <=? Z.of_nat (List.length content)
        then Ok (Some (firstn (Z.to_nat numBytes) content))
        else Ok None
      else Terminate
  | None => Ok None
  end.

(** [toNativeByteOrder] followed by the cast to [double*]. *)
Definition toNativeByteOrder (w : World) (numValues : Z)
    (bytes : option (list Byte.byte)) : option (list double) :=
  match bytes with
  | Some bs =>
      let words := map (word_native (native w))
                       (chunks 8 (Z.to_nat numValues) bs) in
      Some (map decode64
              (if endian_eqb (native w) little then map swap64 words
               else words))
  | None => None
  end.

(** ** The base class *)

Record TestCase : Type := {
  useNaN : bool;
  rasterFile : string;
  byteOrder : endian;
  coordinatesFile : string;
  expectedResultsFile : string;
  errorStatistics : list double;
  nodataMismatches : list Z
}.

Definition set_errorStatistics (t : TestCase) (v : list double) : TestCase :=
  {| useNaN := useNaN t; rasterFile := rasterFile t; byteOrder := byteOrder t;
     coordinatesFile := coordinatesFile t;
     expectedResultsFile := expectedResultsFile t;
     errorStatistics := v; nodataMismatches := nodataMismatches t |}.

Definition set_nodataMismatches (t : TestCase) (v : list Z) : TestCase :=
  {| useNaN := useNaN t; rasterFile := rasterFile t; byteOrder := byteOrder t;
     coordinatesFile := coordinatesFile t;
     expectedResultsFile := expectedResultsFile t;
     errorStatistics := errorStatistics t; nodataMismatches := v |}.

(** The constructor: the paths, and two zeroed arrays. *)
Definition new_TestCase (testNaN : bool) (testByteOrder : endian) : TestCase :=
  let directory :=
    path_append "../generated-data" (if testNaN then "nan" else "nodata") in
  {| useNaN := testNaN;
     byteOrder := testByteOrder;
     rasterFile :=
       path_append directory
         (if endian_eqb testByteOrder little then "little-endian.raw"
          else "big-endian.raw");
     coordinatesFile := path_append directory "coordinates.raw";
     expectedResultsFile := path_append directory "expected-results.raw";
     errorStatistics :=
       repeat (S754_zero false) (Z.to_nat NUM_VERIFIED_ITERATIONS);
     nodataMismatches := repeat 0 (Z.to_nat NUM_VERIFIED_ITERATIONS) |}.

Definition loadRaster (w : World) (t : TestCase) : outcome (option (list Z)) :=
  bytes <- readAllBytes w (rasterFile t) (WIDTH * HEIGHT * 4) ;;
  Ok (match bytes with
      | Some bs =>
          let words := map (word_native (native w))
                           (chunks 4 (Z.to_nat (WIDTH * HEIGHT)) bs) in
          Some (if endian_eqb (native w) (byteOrder t) then words
                else map swap32 words)
      | None => None
      end).

Definition loadCoordinates (w : World) (t : TestCase)
  : outcome (option (list double)) :=
  bytes <- readAllBytes w (coordinatesFile t)
             (2 * NUM_INTERPOLATION_POINTS * 8) ;;
  Ok (toNativeByteOrder w (2 * NUM_INTERPOLATION_POINTS) bytes).

Definition loadExpectedResults (w : World) (t : TestCase)
  : outcome (option (list double)) :=
  bytes <- readAllBytes w (expectedResultsFile t)
             (NUM_INTERPOLATION_POINTS * NUM_VERIFIED_ITERATIONS * 8) ;;
  Ok (toNativeByteOrder w
        (NUM_INTERPOLATION_POINTS * NUM_VERIFIED_ITERATIONS) bytes).

(** [success]: the loop over the ten rounds, with [n] rounds left. *)
Fixpoint success_from (n : nat) (i : Z) (mismatches : list Z) : bool :=
  match n with
  | O => true
  | S n' =>
      if negb (nth (Z.to_nat i) mismatches 0 =? 0) then
        if i <? 8 then false else success_from n' (i + 1) mismatches
      else success_from n' (i + 1) mismatches
  end.

Definition success (t : TestCase) : bool :=
  success_from (Z.to_nat NUM_VERIFIED_ITERATIONS) 0 (nodataMismatches t).

(** [resultEquals]: [!=] on doubles is the IEEE comparison. *)
Fixpoint resultEquals_from (n : nat) (i : Z) (t other : TestCase) : bool :=
  match n with
  | O => true
  | S n' =>
      if negb (deq (nth (Z.to_nat i) (errorStatistics t) S754_nan)
                   (nth (Z.to_nat i) (errorStatistics other) S754_nan))
         || negb (nth (Z.to_nat i) (nodataMismatches t) 0
                  =? nth (Z.to_nat i) (nodataMismatches other) 0)
      then false
      else resultEquals_from n' (i + 1) t other
  end.

Definition resultEquals (t other : TestCase) : bool :=
  resultEquals_from (Z.to_nat NUM_VERIFIED_ITERATIONS) 0 t other.

(** ** The interpolation loop, shared vocabulary *)

(** The variables of [computeAndCompare] that live across samples. *)
Record Locals : Type := {
  coordinates : list double;
  expectedResultCursor : Z;
  stats : double;
  self : TestCase
}.

(** [nodataMismatches[it]++], on an array of [int]. *)
Definition count_mismatch (it : Z) (t : TestCase) : outcome TestCase :=
  n <- defined (read (nodataMismatches t) it) ;;
  n' <- defined (Int32.add n 1) ;;
  Ok (set_nodataMismatches t (upd_nat (nodataMismatches t) (Z.to_nat it) n')).

(** The three fused multiply-adds of the bilinear interpolation. *)
Definition bilinear (v00 v01 v10 v11 : Z) (xf yf : double) : double :=
  let v0 := dfma (dsub (f2d v01) (f2d v00)) xf (f2d v00) in
  let v1 := dfma (dsub (f2d v11) (f2d v10)) xf (f2d v10) in
  dfma (dsub v1 v0) yf v0.

(** [WIDTH * ((int) yb) + ((int) xb)], computed on [int]. *)
Definition linear_offset (cy cx : Z) : option Z :=
  match Int32.mul WIDTH cy with
  | Some row => Int32.add row cx
  | None => None
  end.

(** The bound check on the linear offset. *)
Definition out_of_bounds (offset : Z) : bool :=
  (offset <? 0) || (offset >=? (HEIGHT - 1) * WIDTH + (WIDTH - 1)).

(** The feedback on one coordinate. *)
Definition feedback (c result : double) (size : Z) : double :=
  dfmod (dabs (dadd c result)) (i2d (size - 1)).

(** The two assignments to [coordinates] and the step of the cursor that
    end the body of the inner loop. *)
Definition move (ix iy : Z) (x y result : double) (stats' : double)
    (t : TestCase) (coords : list double) (cur : Z) : outcome Locals :=
  c1 <- defined (write coords ix (feedback x result WIDTH)) ;;
  c2 <- defined (write c1 iy (feedback y result HEIGHT)) ;;
  Ok {| coordinates := c2; expectedResultCursor := cur + 1;
        stats := stats'; self := t |}.

(** ** [TestNaN]: missing samples are quiet NaNs with a payload *)

Module TestNaN.
Definition FIRST_QUIET_NAN : Z := 0x7FC00000.
Definition UNKNOWN : Z := FIRST_QUIET_NAN.
Definition CLOUD : Z := FIRST_QUIET_NAN + 1.
Definition LAND : Z := FIRST_QUIET_NAN + 2.
Definition NO_PASS : Z := FIRST_QUIET_NAN + 3.

(** The maximum of the four corners read as [int32_t]. *)
Definition combine (p00 p01 p10 p11 : Z) : Z :=
  Int32.max (Int32.max (Int32.of_bits p00) (Int32.of_bits p01))
            (Int32.max (Int32.of_bits p10) (Int32.of_bits p11)).

(** The NaN pattern on the scale of the expected results:
    [(missingValueReason - FIRST_QUIET_NAN) + MISSING_VALUE_THRESHOLD],
    computed on [int] before it is converted to [double]. *)
Definition toNodata (missingValueReason : Z) : option Z :=
  match Int32.sub missingValueReason FIRST_QUIET_NAN with
  | Some payload => Int32.add payload MISSING_VALUE_THRESHOLD
  | None => None
  end.

(** The body of the inner loop, for point [i] of round [it]. *)
Definition sample (raster : list Z) (expectedResults : list double)
    (it i : Z) (s : Locals) : outcome Locals :=
  let ix := Z.shiftl i 1 in
  let iy := Z.lor ix 1 in
  x <- defined (read (coordinates s) ix) ;;
  y <- defined (read (coordinates s) iy) ;;
  let xb := dfloor x in
  let yb := dfloor y in
  cy <- defined (d2i yb) ;;
  cx <- defined (d2i xb) ;;
  offset <- defined (linear_offset cy cx) ;;
  if out_of_bounds offset then Exit 1 else
  v00 <- defined (read raster offset) ;;
  right <- defined (Int32.add offset 1) ;;
  v01 <- defined (read raster right) ;;
  offset <- defined (Int32.add offset WIDTH) ;;
  v10 <- defined (read raster offset) ;;
  right <- defined (Int32.add offset 1) ;;
  v11 <- defined (read raster right) ;;
  let xf := dsub x xb in
  let yf := dsub y yb in
  let result := bilinear v00 v01 v10 v11 xf yf in
  if isnan result then
    topRow <- defined (Int32.sub offset WIDTH) ;;
    p00 <- defined (read raster topRow) ;;
    topRight <- defined (Int32.add topRow 1) ;;
    p01 <- defined (read raster topRight) ;;
    p10 <- defined (read raster offset) ;;
    right <- defined (Int32.add offset 1) ;;
    p11 <- defined (read raster right) ;;
    let missingValueReason := combine p00 p01 p10 p11 in
    reason <- defined (toNodata missingValueReason) ;;
    let nodata := i2d reason in
    expected <- defined (read expectedResults (expectedResultCursor s)) ;;
    t <- (if negb (deq nodata expected) then count_mismatch it (self s)
          else Ok (self s)) ;;
    move ix iy x y (i2d 1) (stats s) t (coordinates s)
         (expectedResultCursor s)
  else
    expected <- defined (read expectedResults (expectedResultCursor s)) ;;
    if dle (i2d MISSING_VALUE_THRESHOLD) expected then
      t <- count_mismatch it (self s) ;;
      move ix iy x y result (stats s) t (coordinates s)
           (expectedResultCursor s)
    else
      move ix iy x y result
           (dmax (stats s) (dabs (dsub result expected))) (self s)
           (coordinates s) (expectedResultCursor s).

(** The body of the outer loop, for round [it]. *)
Definition iteration (raster : list Z) (expectedResults : list double)
    (it : Z) (s : Locals) : outcome Locals :=
  st <- defined (read (errorStatistics (self s)) it) ;;
  s' <- for_loop (Z.to_nat NUM_INTERPOLATION_POINTS) 0
          (sample raster expectedResults it)
          {| coordinates := coordinates s;
             expectedResultCursor := expectedResultCursor s;
             stats := st; self := self s |} ;;
  es <- defined (write (errorStatistics (self s')) it (stats s')) ;;
  Ok {| coordinates := coordinates s';
        expectedResultCursor := expectedResultCursor s';
        stats := stats s'; self := set_errorStatistics (self s') es |}.

(** The two nested loops, once the three buffers are loaded. *)
Definition iterations (raster : list Z) (coords expectedResults : list double)
    (t : TestCase) : outcome TestCase :=
  s <- for_loop (Z.to_nat NUM_VERIFIED_ITERATIONS) 0
         (iteration raster expectedResults)
         {| coordinates := coords; expectedResultCursor := 0;
            stats := S754_zero false; self := t |} ;;
  Ok (self s).

Definition computeAndCompare (w : World) (t : TestCase) : outcome TestCase :=
  raster <- loadRaster w t ;;
  match raster with
  | Some raster =>
      coords <- loadCoordinates w t ;;
      match coords with
      | Some coords =>
          expectedResults <- loadExpectedResults w t ;;
          match expectedResults with
          | Some expectedResults =>
              iterations raster coords expectedResults t
          | None => Ok t
          end
      | None => Ok t
      end
  | None => Ok t
  end.
End TestNaN.

(** ** [TestNodata]: missing samples are sentinel values *)

Module TestNodata.
Definition UNKNOWN : spec_float := i2f 10000.
Definition CLOUD : spec_float := i2f 10001.
Definition LAND : spec_float := i2f 10002.
Definition NO_PASS : spec_float := i2f 10003.

(** [std::max] on two [float]s held as bit patterns. *)
Definition fmax (a b : Z) : Z :=
  if SFltb (decode32 a) (decode32 b) then b else a.

(** The maximum of the four corners as floating-point numbers. *)
Definition combine (v00 v01 v10 v11 : Z) : Z :=
  fmax (fmax v00 v01) (fmax v10 v11).

(** [v >= MISSING_VALUE_THRESHOLD] for a [float]: the [int] is converted. *)
Definition isMissing (v : Z) : bool :=
  SFleb (i2f MISSING_VALUE_THRESHOLD) (decode32 v).

(** The body of the inner loop, for point [i] of round [it]. *)
Definition sample (raster : list Z) (expectedResults : list double)
    (it i : Z) (s : Locals) : outcome Locals :=
  let ix := Z.shiftl i 1 in
  let iy := Z.lor ix 1 in
  x <- defined (read (coordinates s) ix) ;;
  y <- defined (read (coordinates s) iy) ;;
  let xb := dfloor x in
  let yb := dfloor y in
  cy <- defined (d2i yb) ;;
  cx <- defined (d2i xb) ;;
  offset <- defined (linear_offset cy cx) ;;
  if out_of_bounds offset then Exit 1 else
  v00 <- defined (read raster offset) ;;
  right <- defined (Int32.add offset 1) ;;
  v01 <- defined (read raster right) ;;
  offset <- defined (Int32.add offset WIDTH) ;;
  v10 <- defined (read raster offset) ;;
  right <- defined (Int32.add offset 1) ;;
  v11 <- defined (read raster right) ;;
  let missingValueReason := combine v00 v01 v10 v11 in
  if isMissing missingValueReason then
    expected <- defined (read expectedResults (expectedResultCursor s)) ;;
    t <- (if negb (deq (f2d missingValueReason) expected)
          then count_mismatch it (self s) else Ok (self s)) ;;
    move ix iy x y (i2d 1) (stats s) t (coordinates s)
         (expectedResultCursor s)
  else
    let xf := dsub x xb in
    let yf := dsub y yb in
    let result := bilinear v00 v01 v10 v11 xf yf in
    expected <- defined (read expectedResults (expectedResultCursor s)) ;;
    if dle (i2d MISSING_VALUE_THRESHOLD) expected then
      t <- count_mismatch it (self s) ;;
      move ix iy x y result (stats s) t (coordinates s)
           (expectedResultCursor s)
    else
      move ix iy x y result
           (dmax (stats s) (dabs (dsub result expected))) (self s)
           (coordinates s) (expectedResultCursor s).

(** The body of the outer loop, for round [it]. *)
Definition iteration (raster : list Z) (expectedResults : list double)
    (it : Z) (s : Locals) : outcome Locals :=
  st <- defined (read (errorStatistics (self s)) it) ;;
  s' <- for_loop (Z.to_nat NUM_INTERPOLATION_POINTS) 0
          (sample raster expectedResults it)
          {| coordinates := coordinates s;
             expectedResultCursor := expectedResultCursor s;
             stats := st; self := self s |} ;;
  es <- defined (write (errorStatistics (self s')) it (stats s')) ;;
  Ok {| coordinates := coordinates s';
        expectedResultCursor := expectedResultCursor s';
        stats := stats s'; self := set_errorStatistics (self s') es |}.

(** The two nested loops, once the three buffers are loaded. *)
Definition iterations (raster : list Z) (coords expectedResults : list double)
    (t : TestCase) : outcome TestCase :=
  s <- for_loop (Z.to_nat NUM_VERIFIED_ITERATIONS) 0
         (iteration raster expectedResults)
         {| coordinates := coords; expectedResultCursor := 0;
            stats := S754_zero false; self := t |} ;;
  Ok (self s).

Definition computeAndCompare (w : World) (t : TestCase) : outcome TestCase :=
  raster <- loadRaster w t ;;
  match raster with
  | Some raster =>
      coords <- loadCoordinates w t ;;
      match coords with
      | Some coords =>
          expectedResults <- loadExpectedResults w t ;;
          match expectedResults with
          | Some expectedResults =>
              iterations raster coords expectedResults t
          | None => Ok t
          end
      | None => Ok t
      end
  | None => Ok t
  end.
End TestNodata.

(** ** The data model of the rasters

    The predicates below describe the cells the two rasters may hold; they
    are used in the statements only, never by the program. *)

(** A genuine sample: a finite [float] whose value lies in [-100, +100].
    Every finite binary32 number is a multiple of [2 ^ -149], so the bound
    is checked on integers. *)
Definition valid_sample (w : Z) : bool :=
  (0 <=? w) && (w <? 2 ^ 32) &&
  match decode32 w with
  | S754_zero _ => true
  | S754_finite _ m e => Zpos m * 2 ^ (e + 149) <=? 100 * 2 ^ 149
  | _ => false
  end.

(** The reason carried by a NaN cell, if the cell is one of the four NaNs. *)
Definition reasonIndex (w : Z) : option Z :=
  if (TestNaN.FIRST_QUIET_NAN <=? w) && (w <=? TestNaN.FIRST_QUIET_NAN + 3)
  then Some (w - TestNaN.FIRST_QUIET_NAN) else None.

(** A cell of the NaN raster that conforms to the data model. *)
Definition nan_cell (w : Z) : bool :=
  valid_sample w || match reasonIndex w with Some _ => true | None => false end.

(** The sentinel cell of reason [k]: the [float] of value [10000 + k]. *)
Definition sentinel_of (w k : Z) : Prop :=
  0 <= k <= 3 /\ decode32 w = i2f (MISSING_VALUE_THRESHOLD + k).

(** A cell of the sentinel raster that conforms to the data model. *)
Definition nodata_cell (w : Z) : Prop :=
  valid_sample w = true \/ exists k, sentinel_of w k.

(** The largest reason index among the NaN cells of a list of cells. *)
Fixpoint dominant (ws : list Z) : option Z :=
  match ws with
  | [] => None
  | w :: t =>
      match reasonIndex w, dominant t with
      | Some k, Some k' => Some (Z.max k k')
      | Some k, None => Some k
      | None, r => r
      end
  end.

(** The same logical cell in the two encodings: the same valid sample, or
    the same reason as a NaN payload on one side and a sentinel on the other. *)
Definition same_cell (wn ws : Z) : Prop :=
  (valid_sample wn = true /\ ws = wn)
  \/ exists k, 0 <= k <= 3 /\ wn = TestNaN.FIRST_QUIET_NAN + k
               /\ decode32 ws = i2f (MISSING_VALUE_THRESHOLD + k).

(** The double [d] is exactly the integer [n]. *)
Definition represents (d : double) (n : Z) : Prop :=
  match d with
  | S754_zero _ => n = 0
  | S754_finite s m e => e <= 0 /\ cond_Zopp s (Zpos m) = n * 2 ^ (- e)
  | _ => False
  end.

(** What a harness reports: the two arrays of statistics. *)
Definition statistics (t : TestCase) : list double * list Z :=
  (errorStatistics t, nodataMismatches t).

(** One of the three loads returned [NULL]. *)
Definition some_load_fails (w : World) (t : TestCase) : Prop :=
  loadRaster w t = Ok None
  \/ exists raster, loadRaster w t = Ok (Some raster)
     /\ (loadCoordinates w t = Ok None
         \/ exists coords, loadCoordinates w t = Ok (Some coords)
            /\ loadExpectedResults w t = Ok None).

(** A world without files, and one whose heap is exhausted. *)
Definition empty_world : World :=
  {| files := fun _ => None; heap_serves := fun _ => true; native := little |}.

Definition exhausted_world : World :=
  {| files := fun _ => Some [Byte.x00; Byte.x00; Byte.x80; Byte.x3f];
     heap_serves := fun _ => false; native := little |}.

(** The virtual call [test->computeAndCompare()]: [useNaN] is true exactly
    for the instances of [TestNaN]. *)
Definition computeAndCompare (w : World) (t : TestCase) : outcome TestCase :=
  if useNaN t then TestNaN.computeAndCompare w t
  else TestNodata.computeAndCompare w t.

(** The variables of the inner loop at its first point, for a point list
    that holds the single pair [(x, y)]. *)
Definition at_point (x y : double) (t : TestCase) : Locals :=
  {| coordinates := [x; y]; expectedResultCursor := 0;
     stats := S754_zero false; self := t |}.

(** ** The test driver *)

(** What is written to the standard output: the text sent to [std::cout] by
    one statement, or one call of [printf] with its format and arguments.
    What was written before an [exit] is not recorded. *)
Inductive output : Type :=
| Text (s : string)
| Printf (format : string) (d : double) (n : Z).

Definition newline : string := String (Ascii.ascii_of_nat 10) EmptyString.
Definition quote : string := String (Ascii.ascii_of_nat 34) EmptyString.

(** The loop of [printStatistics], with [n] rounds left. *)
Fixpoint printStatistics_from (n : nat) (i : Z) (t : TestCase) : list output :=
  match n with
  | O => []
  | S n' =>
      Printf ("%11.4f %6d" ++ newline)
             (nth (Z.to_nat i) (errorStatistics t) S754_nan)
             (nth (Z.to_nat i) (nodataMismatches t) 0)
      :: printStatistics_from n' (i + 1) t
  end.

Definition printStatistics (t : TestCase) : list output :=
  Text ("Errors in the use of raster data with "
        ++ (if useNaN t then "NaN"
            else quote ++ "No data" ++ quote ++ " sentinel")
        ++ " values in "
        ++ (if endian_eqb (byteOrder t) big then "big" else "little")
        ++ "-endian byte order:" ++ newline
        ++ "    Maximum   Number of " ++ quote ++ "missing value" ++ quote
        ++ " mismatches" ++ newline)
  :: printStatistics_from (Z.to_nat NUM_VERIFIED_ITERATIONS) 0 t.

(** The constructors of the two subclasses. *)
Definition new_TestNaN (testByteOrder : endian) : TestCase :=
  new_TestCase true testByteOrder.

Definition new_TestNodata (testByteOrder : endian) : TestCase :=
  new_TestCase false testByteOrder.

(** The objects a [TestCase*] of [testAndCompare] can point to. *)
Inductive test_ref : Type :=
| ref_this
| ref_nodataLittleEndian
| ref_nanBigEndian
| ref_nanLittleEndian.

(** The variables of [testAndCompare]: the receiver, the three harnesses
    it declares, its flag [success], and the output so far. *)
Record Driver : Type := {
  this : TestCase;
  nodataLittleEndian : TestCase;
  nanBigEndian : TestCase;
  nanLittleEndian : TestCase;
  successFlag : bool;
  stdout : list output
}.

(** The [switch] on the index of the test; [None] is the [NULL] pointer. *)
Definition select (t : Z) : option test_ref :=
  if t =? 0 then Some ref_this
  else if t =? 1 then Some ref_nodataLittleEndian
  else if t =? 2 then Some ref_nanBigEndian
  else if t =? 3 then Some ref_nanLittleEndian
  else None.

Definition deref (d : Driver) (p : test_ref) : TestCase :=
  match p with
  | ref_this => this d
  | ref_nodataLittleEndian => nodataLittleEndian d
  | ref_nanBigEndian => nanBigEndian d
  | ref_nanLittleEndian => nanLittleEndian d
  end.

Definition assign (d : Driver) (p : test_ref) (v : TestCase) : Driver :=
  {| this := match p with ref_this => v | _ => this d end;
     nodataLittleEndian :=
       match p with ref_nodataLittleEndian => v | _ => nodataLittleEndian d end;
     nanBigEndian :=
       match p with ref_nanBigEndian => v | _ => nanBigEndian d end;
     nanLittleEndian :=
       match p with ref_nanLittleEndian => v | _ => nanLittleEndian d end;
     successFlag := successFlag d;
     stdout := stdout d |}.

(** The virtual call [test->computeAndCompare()]: the receiver and
    [nodataLittleEndian] are instances of [TestNodata], the two others of
    [TestNaN]. *)
Definition call_computeAndCompare (w : World) (p : test_ref) (v : TestCase)
  : outcome TestCase :=
  match p with
  | ref_this | ref_nodataLittleEndian => TestNodata.computeAndCompare w v
  | ref_nanBigEndian | ref_nanLittleEndian => TestNaN.computeAndCompare w v
  end.

(** The body of the loop of [testAndCompare] for a pointer that is not
    [NULL]. *)
Definition run_test (w : World) (p : test_ref) (d : Driver) : outcome Driver :=
  v <- call_computeAndCompare w p (deref d p) ;;
  let d := assign d p v in
  let ok := successFlag d && success (deref d p) in
  if negb (resultEquals (this d) (deref d p)) then
    Ok {| this := this d; nodataLittleEndian := nodataLittleEndian d;
          nanBigEndian := nanBigEndian d; nanLittleEndian := nanLittleEndian d;
          successFlag := false;
          stdout := stdout d ++ printStatistics (deref d p) |}
  else
    Ok {| this := this d; nodataLittleEndian := nodataLittleEndian d;
          nanBigEndian := nanBigEndian d; nanLittleEndian := nanLittleEndian d;
          successFlag := ok;
          stdout := stdout d |}.

(** [for (int t=0; ; t++)]: the loop ends at the first [NULL] pointer.
    [None] when the [fuel] is spent before that. *)
Fixpoint tests_from (fuel : nat) (w : World) (t : Z) (d : Driver)
  : option (outcome Driver) :=
  match fuel with
  | O => None
  | S fuel' =>
      match select t with
      | None => Some (Ok d)
      | Some p =>
          match run_test w p d with
          | Ok d' => tests_from fuel' w (t + 1) d'
          | Exit code => Some (Exit code)
          | Terminate => Some Terminate
          | Undefined => Some Undefined
          end
      end
  end.

Definition success_message : string :=
  "Success (mismatches in the last iterations are normal)." ++ newline.

Definition failure_message : string := "TEST FAILURE." ++ newline.

(** [testAndCompare], called on the harness [receiver]; the result is the
    output of the call. *)
Definition testAndCompare (fuel : nat) (w : World) (receiver : TestCase)
  : option (outcome (list output)) :=
  match
    tests_from fuel w 0
      {| this := receiver;
         nodataLittleEndian := new_TestNodata little;
         nanBigEndian := new_TestNaN big;
         nanLittleEndian := new_TestNaN little;
         successFlag := true;
         stdout := [] |}
  with
  | Some (Ok d) =>
      Some (Ok (if successFlag d
                then stdout d ++ printStatistics (nanBigEndian d)
                              ++ [Text success_message]
                else stdout d ++ [Text failure_message]))
  | Some (Exit code) => Some (Exit code)
  | Some Terminate => Some Terminate
  | Some Undefined => Some Undefined
  | None => None
  end.

(** [main]: the output and the value returned.  The destructors, which
    release the arrays of the harnesses, are not part of the model. *)
Definition main (fuel : nat) (w : World) : option (outcome (list output * Z)) :=
  match testAndCompare fuel w (new_TestNodata big) with
  | Some c => Some (omap (fun out => (out, 0)) c)
  | None => None
  end.

(** ** Vocabulary of the proofs *)

(** The exponent of the last digit kept for a number below [2 ^ k]. *)
Definition fexp64 (k : Z) : Z := Z.max (k - 53) (-1074).

(** A double that is a zero or a finite number below [2 ^ K] in magnitude,
    with a mantissa of at most 53 bits and an exponent of at least -1074. *)
Definition fin (K : Z) (d : double) : Prop :=
  match d with
  | S754_zero _ => True
  | S754_finite _ m e =>
      Zpos (digits2_pos m) <= 53 /\ -1074 <= e /\ Zpos (digits2_pos m) + e <= K
  | _ => False
  end.

(** A double as the format has it: at most 53 bits, exponent from -1074. *)
Definition wf (d : double) : Prop :=
  match d with
  | S754_finite _ m e => Zpos (digits2_pos m) <= 53 /\ -1074 <= e
  | _ => True
  end.

(** The integer part of a finite number, rounded down. *)
Definition ifloor (s : bool) (m : positive) (e : Z) : Z :=
  if 0 <=? e then cond_Zopp s (Zpos m * 2 ^ e)
  else cond_Zopp s (Zpos m) / 2 ^ (- e).

(** A double in [0, n): a zero, or a positive finite number of value less
    than the integer [n]. *)
Definition below (d : double) (n : Z) : Prop :=
  match d with
  | S754_zero _ => 0 < n
  | S754_finite false m e =>
      Zpos m * 2 ^ Z.max e 0 < n * 2 ^ Z.max (- e) 0
  | _ => False
  end.

(** A value of the binary64 format, in its unique representation. *)
Definition valid_double (d : double) : Prop :=
  valid_binary prec64 emax64 d = true.

(** The rank of a cell of the NaN raster: -1 for a valid sample, the
    reason index for a NaN. *)
Definition rank_nan (w r : Z) : Prop :=
  (r = -1 /\ valid_sample w = true)
  \/ (0 <= r <= 3 /\ w = TestNaN.FIRST_QUIET_NAN + r).

(** The rank of a cell of the sentinel raster. *)
Definition rank_nodata (w r : Z) : Prop :=
  (r = -1 /\ valid_sample w = true)
  \/ (0 <= r <= 3 /\ decode32 w = i2f (MISSING_VALUE_THRESHOLD + r)).

(** What a sample that returns has read, and what it has written. *)
Inductive sampled (raster : list Z) (i : Z) (s s' : Locals)
    (missing : Z -> Z -> Z -> Z -> double -> bool) : Prop :=
| Sampled (x y : double) (cx cy : Z) (v00 v01 v10 v11 : Z)
    (sm_index : 0 <= i)
    (sm_read_x : read (coordinates s) (2 * i) = Some x)
    (sm_read_y : read (coordinates s) (2 * i + 1) = Some y)
    (sm_cast_x : d2i (dfloor x) = Some cx)
    (sm_cast_y : d2i (dfloor y) = Some cy)
    (sm_check : out_of_bounds (WIDTH * cy + cx) = false)
    (sm_read00 : read raster (WIDTH * cy + cx) = Some v00)
    (sm_read01 : read raster (WIDTH * cy + cx + 1) = Some v01)
    (sm_read10 : read raster (WIDTH * cy + cx + WIDTH) = Some v10)
    (sm_read11 : read raster (WIDTH * cy + cx + WIDTH + 1) = Some v11)
    (sm_written :
       let interpolated :=
         bilinear v00 v01 v10 v11 (dsub x (dfloor x)) (dsub y (dfloor y)) in
       let result :=
         if missing v00 v01 v10 v11 interpolated then i2d 1 else interpolated in
       coordinates s'
       = upd_nat (upd_nat (coordinates s) (Z.to_nat (2 * i))
                    (dfmod (dabs (dadd x result)) (i2d (WIDTH - 1))))
                 (Z.to_nat (2 * i + 1))
                 (dfmod (dabs (dadd y result)) (i2d (HEIGHT - 1))))
    (sm_cursor : expectedResultCursor s' = expectedResultCursor s + 1)
    (sm_self : errorStatistics (self s') = errorStatistics (self s)
               /\ List.length (nodataMismatches (self s'))
                  = List.length (nodataMismatches (self s)))
    (sm_stats : stats s' = stats s
                \/ exists v, stats s' = dmax (stats s) (dabs v)).

(** The four corners of the point at [(x, y)] satisfy [cell]. *)
Definition corners_conform (cell : Z -> Prop) (raster : list Z) (x y : double)
  : Prop :=
  forall cx cy d v,
    d2i (dfloor x) = Some cx -> d2i (dfloor y) = Some cy ->
    In d [0; 1; WIDTH; WIDTH + 1] ->
    read raster (WIDTH * cy + cx + d) = Some v ->
    cell v.

(** The harness [t0] holding the statistics of [t]. *)
Definition with_statistics (t0 t : TestCase) : TestCase :=
  set_errorStatistics (set_nodataMismatches t0 (nodataMismatches t))
                      (errorStatistics t).

(** The same local variables around another harness. *)
Definition with_self (f : TestCase -> TestCase) (s : Locals) : Locals :=
  {| coordinates := coordinates s;
     expectedResultCursor := expectedResultCursor s;
     stats := stats s; self := f (self s) |}.

(** A computation that does not call [exit]. *)
Definition never_exits {A} (c : outcome A) : Prop :=
  forall code, c <> Exit code.

(** Point [j] of the list lies in [0, WIDTH-1) x [0, HEIGHT-1). *)
Definition point_in_range (coords : list double) (j : Z) : Prop :=
  exists x y,
    read coords (2 * j) = Some x /\ read coords (2 * j + 1) = Some y
    /\ below x (WIDTH - 1) /\ below y (HEIGHT - 1).

(** All coordinates are doubles of the format and the points before [k]
    are in range. *)
Definition settled (k : Z) (s : Locals) : Prop :=
  Forall valid_double (coordinates s)
  /\ forall j, 0 <= j < k -> point_in_range (coordinates s) j.

(** What a loop keeps of the state it started from. *)
Definition advanced (n : Z) (s s' : Locals) : Prop :=
  settled NUM_INTERPOLATION_POINTS s'
  /\ expectedResultCursor s' = expectedResultCursor s + n
  /\ List.length (errorStatistics (self s'))
     = List.length (errorStatistics (self s))
  /\ List.length (nodataMismatches (self s'))
     = List.length (nodataMismatches (self s)).


(** The point [i] of the list is in range, and the next sample at this
    point passes the bound check with its four corners inside the raster. *)
Definition accepted_next (coords : list double) (i : Z) : Prop :=
  exists x' y' cx cy,
    read coords (2 * i) = Some x' /\ read coords (2 * i + 1) = Some y'
    /\ below x' (WIDTH - 1) /\ below y' (HEIGHT - 1)
    /\ d2i (dfloor x') = Some cx /\ d2i (dfloor y') = Some cy
    /\ out_of_bounds (WIDTH * cy + cx) = false
    /\ WIDTH * cy + cx + WIDTH + 1 < WIDTH * HEIGHT.

(** A statistic that is a number and not the negative zero: on such values
    [==] and identity of the representation are the same thing. *)
Definition proper (d : double) : Prop := d <> S754_nan /\ d <> S754_zero true.

(** The invariant of the sampling loops. *)
Definition proper_locals (s : Locals) : Prop :=
  proper (stats s) /\ Forall proper (errorStatistics (self s)).

(** The report of a driver whose harnesses [tests] ended in the given states,
    compared with [reference]: the statistics of those that differ, then the
    verdict, with the statistics of [shown] before a success. *)
Definition report (reference : TestCase) (tests : list TestCase)
    (shown : TestCase) : list output :=
  flat_map printStatistics
    (filter (fun t => negb (resultEquals reference t)) tests)
  ++ (if forallb (fun t => success t && resultEquals reference t) tests
      then printStatistics shown ++ [Text success_message]
      else [Text failure_message]).

(** The ways a computation may stop without returning: an [exit] with a
    code that satisfies [codes], or an exception when [throws] holds. *)
Definition stops_as {A} (codes : Z -> Prop) (throws : Prop) (c : outcome A)
  : Prop :=
  match c with
  | Exit code => codes code
  | Terminate => throws
  | _ => True
  end.

(** The heap cannot serve one of the three buffers of a harness. *)
Definition heap_fails (w : World) : Prop :=
  heap_serves w (WIDTH * HEIGHT * 4) = false
  \/ heap_serves w (2 * NUM_INTERPOLATION_POINTS * 8) = false
  \/ heap_serves w (NUM_INTERPOLATION_POINTS * NUM_VERIFIED_ITERATIONS * 8) = false.

(** What a sample records, given whether it was found missing, the value
    [nodata] it puts on the scale of the expected results in that case, the
    interpolated value and the expected one. *)
Definition accounted (it : Z) (s s' : Locals) (missing : bool)
    (nodata interpolated expected : double) : Prop :=
  if missing then
    stats s' = stats s
    /\ (if deq nodata expected then self s' = self s
        else count_mismatch it (self s) = Ok (self s'))
  else if dle (i2d MISSING_VALUE_THRESHOLD) expected then
    stats s' = stats s /\ count_mismatch it (self s) = Ok (self s')
  else
    stats s' = dmax (stats s) (dabs (dsub interpolated expected))
    /\ self s' = self s.

(** A sample at point [i] reads the point, its four corners and the
    expected value, and these satisfy [K] together with the interpolated
    value. *)
Definition examined (raster : list Z) (expectedResults : list double)
    (i : Z) (s : Locals)
    (K : Z -> Z -> Z -> Z -> double -> double -> Prop) : Prop :=
  exists x y cx cy v00 v01 v10 v11 expected,
    read (coordinates s) (2 * i) = Some x
    /\ read (coordinates s) (2 * i + 1) = Some y
    /\ d2i (dfloor x) = Some cx /\ d2i (dfloor y) = Some cy
    /\ read raster (WIDTH * cy + cx) = Some v00
    /\ read raster (WIDTH * cy + cx + 1) = Some v01
    /\ read raster (WIDTH * cy + cx + WIDTH) = Some v10
    /\ read raster (WIDTH * cy + cx + WIDTH + 1) = Some v11
    /\ read expectedResults (expectedResultCursor s) = Some expected
    /\ K v00 v01 v10 v11
         (bilinear v00 v01 v10 v11 (dsub x (dfloor x)) (dsub y (dfloor y)))
         expected.

(** A double that is [+0], a positive number or [+infinity]. *)
Definition nonnegative (d : double) : Prop :=
  match d with
  | S754_zero false | S754_infinity false | S754_finite false _ _ => True
  | _ => False
  end.

(** The mismatch counts while round [it] is running and at most [k] of its
    samples were counted: ten counts, those of the rounds before between 0
    and the number of points, those of the rounds after still zero. *)
Definition counted (it k : Z) (counts : list Z) : Prop :=
  List.length counts = Z.to_nat NUM_VERIFIED_ITERATIONS
  /\ forall j c, read counts j = Some c ->
       (j < it -> 0 <= c <= NUM_INTERPOLATION_POINTS)
       /\ (j = it -> 0 <= c <= k)
       /\ (it < j -> c = 0).

(** The invariant of the two loops on the statistics of a harness. *)
Definition tallied (it k : Z) (s : Locals) : Prop :=
  nonnegative (stats s)
  /\ Forall nonnegative (errorStatistics (self s))
  /\ List.length (errorStatistics (self s)) = Z.to_nat NUM_VERIFIED_ITERATIONS
  /\ counted it k (nodataMismatches (self s)).

(** A world whose files all hold zero bytes, as many as the raster needs. *)
Definition zero_world : World :=
  {| files := fun _ => Some (repeat Byte.x00 (Z.to_nat (WIDTH * HEIGHT * 4)));
     heap_serves := fun _ => true;
     native := little |}.

(** A raster whose first two rows hold the sample [1.0f] and whose other
    cells are missing, [land] being the cell that says so. *)
Definition two_rows (land : Z) : list Z :=
  repeat 0x3F800000 (Z.to_nat (2 * WIDTH))
  ++ repeat land (Z.to_nat (WIDTH * HEIGHT - 2 * WIDTH)).

(** The four bytes of a cell in a big-endian file: the sample [1.0f], the
    NaN of the reason [LAND] and the sentinel [10002.0f] of that reason. *)
Definition one_bytes : list Byte.byte :=
  [Byte.x3f; Byte.x80; Byte.x00; Byte.x00].

Definition land_nan_bytes : list Byte.byte :=
  [Byte.x7f; Byte.xc0; Byte.x00; Byte.x02].

Definition land_sentinel_bytes : list Byte.byte :=
  [Byte.x46; Byte.x1c; Byte.x48; Byte.x00].

(** The bytes of a raster file whose first two rows hold the cell [sample]
    and whose other cells hold [land]. *)
Definition two_rows_bytes (sample land : list Byte.byte) : list Byte.byte :=
  List.concat (repeat sample (Z.to_nat (2 * WIDTH)))
  ++ List.concat (repeat land (Z.to_nat (WIDTH * HEIGHT - 2 * WIDTH))).

(** A world with the four raster files of such a raster, each in its
    encoding and its byte order; the other files hold zero bytes. *)
Definition two_rows_world : World :=
  {| files := fun name =>
       if String.eqb name (rasterFile (new_TestCase true big))
       then Some (two_rows_bytes one_bytes land_nan_bytes)
       else if String.eqb name (rasterFile (new_TestCase true little))
       then Some (two_rows_bytes (rev one_bytes) (rev land_nan_bytes))
       else if String.eqb name (rasterFile (new_TestCase false big))
       then Some (two_rows_bytes one_bytes land_sentinel_bytes)
       else if String.eqb name (rasterFile (new_TestCase false little))
       then Some (two_rows_bytes (rev one_bytes) (rev land_sentinel_bytes))
       else Some (repeat Byte.x00 (Z.to_nat (WIDTH * HEIGHT * 4)));
     heap_serves := fun _ => true;
     native := little |}.

(** Points that all lie at the origin, and expected results that are all
    zero. *)
Definition origin : list double :=
  repeat (S754_zero false) (Z.to_nat (2 * NUM_INTERPOLATION_POINTS)).

Definition zero_expectations : list double :=
  repeat (S754_zero false)
         (Z.to_nat (NUM_INTERPOLATION_POINTS * NUM_VERIFIED_ITERATIONS)).

(** A coordinate whose integer part has no value of type [int]: a NaN, an
    infinity, or a number of magnitude [2 ^ 31] or more. *)
Definition unrepresentable (d : double) : Prop := d2i (dfloor d) = None.

(** The raster and the coordinates a harness loads, when it loads them,
    conform to the data model: every cell satisfies [cell] and every point
    lies in [0, WIDTH-1) x [0, HEIGHT-1). *)
Definition conforming (w : World) (t : TestCase) (cell : Z -> Prop) : Prop :=
  forall raster coords,
    loadRaster w t = Ok (Some raster) ->
    loadCoordinates w t = Ok (Some coords) ->
    Forall cell raster
    /\ forall j, 0 <= j < NUM_INTERPOLATION_POINTS -> point_in_range coords j.







(** A counter that one more mismatch does not overflow. *)
Definition countable (n : Z) : Prop :=
  Int32.min_signed <= n + 1 <= Int32.max_signed.


(** A counter with room for the mismatches of a whole round. *)
Definition spare (c : Z) : Prop :=
  Int32.min_signed <= c /\ c + NUM_INTERPOLATION_POINTS <= Int32.max_signed.

(** The counters while round [it] is running and [k] of its samples are
    done: the counter of the round has room for the samples that remain,
    those of the rounds to come for a whole round. *)
Definition roomy (it k : Z) (counts : list Z) : Prop :=
  forall j c, read counts j = Some c -> it <= j ->
    Int32.min_signed <= c
    /\ c + (if j =? it then NUM_INTERPOLATION_POINTS - k
            else NUM_INTERPOLATION_POINTS) <= Int32.max_signed.

(** The eight bytes of the big-endian double [1000000.0], and a world whose
    files all hold that double again and again: every point lies far
    outside the raster. *)
Definition far_bytes : list Byte.byte :=
  [Byte.x41; Byte.x2e; Byte.x84; Byte.x80;
   Byte.x00; Byte.x00; Byte.x00; Byte.x00].

Definition far_world : World :=
  {| files := fun _ =>
       Some (List.concat (repeat far_bytes (Z.to_nat (WIDTH * HEIGHT / 2))));
     heap_serves := fun _ => true;
     native := little |}.

(** * Properties *)

(** ** Arrays and integers *)

Lemma read_some_bounds {A} (a : list A) (i : Z) (v : A) :
  read a i = Some v -> 0 <= i < Z.of_nat (List.length a).
Proof.
  unfold read. destruct (Z.ltb_spec i 0); [discriminate|].
  intros E. assert (nth_error a (Z.to_nat i) <> None) as N by congruence.
  apply nth_error_Some in N. lia.
Qed.

Lemma read_beyond {A} (a : list A) (i : Z) :
  Z.of_nat (List.length a) <= i -> read a i = None.
Proof.
  intros L. unfold read. destruct (Z.ltb_spec i 0); [reflexivity|].
  apply nth_error_None. lia.
Qed.

Lemma read_within {A} (a : list A) (i : Z) :
  0 <= i < Z.of_nat (List.length a) -> exists v, read a i = Some v.
Proof.
  intros B. unfold read. destruct (Z.ltb_spec i 0); [lia|].
  destruct (nth_error a (Z.to_nat i)) eqn:E; [eauto|].
  apply nth_error_None in E. lia.
Qed.

Lemma read_Forall2 {A B} (R : A -> B -> Prop) (a : list A) (b : list B) (i : Z) :
  Forall2 R a b ->
  match read a i, read b i with
  | Some x, Some y => R x y
  | None, None => True
  | _, _ => False
  end.
Proof.
  intros F. unfold read. destruct (i <? 0); [exact I|].
  generalize (Z.to_nat i) as n.
  induction F as [|x y a' b' Rxy F IH]; intros [|n]; simpl; auto.
  apply IH.
Qed.

Lemma nth_upd_nat_other {A} (a : list A) (k j : nat) (v d : A) :
  j <> k -> nth j (upd_nat a k v) d = nth j a d.
Proof.
  revert k j. induction a as [|h t IH]; intros [|k] [|j] N; simpl; auto;
    try congruence.
Qed.

Lemma length_upd_nat {A} (a : list A) (k : nat) (v : A) :
  List.length (upd_nat a k v) = List.length a.
Proof.
  revert k. induction a as [|h t IH]; intros [|k]; simpl; auto.
Qed.

Lemma read_repeat {A} (x : A) (n : nat) (i : Z) :
  0 <= i < Z.of_nat n -> read (repeat x n) i = Some x.
Proof.
  intros B. unfold read. destruct (Z.ltb_spec i 0); [lia|].
  assert (Z.to_nat i < n)%nat as L by lia. revert L.
  generalize (Z.to_nat i) as k. clear. induction n as [|n IH]; intros [|k] L;
    cbn; try lia; [reflexivity|apply IH; lia].
Qed.

Lemma Forall_repeat {A} (P : A -> Prop) (x : A) (n : nat) :
  P x -> Forall P (repeat x n).
Proof. intros H. induction n; cbn; constructor; auto. Qed.

Lemma Forall2_repeat {A B} (R : A -> B -> Prop) (a : A) (b : B) (n : nat) :
  R a b -> Forall2 R (repeat a n) (repeat b n).
Proof. intros H. induction n; cbn; constructor; auto. Qed.

Lemma checked_spec (z : Z) :
  Int32.checked z
  = if (-2147483648 <=? z) && (z <=? 2147483647) then Some z else None.
Proof. reflexivity. Qed.

Lemma checked_fits (z : Z) :
  -2147483648 <= z <= 2147483647 -> Int32.checked z = Some z.
Proof.
  intros B. rewrite checked_spec.
  destruct (Z.leb_spec (-2147483648) z); [|lia].
  destruct (Z.leb_spec z 2147483647); [reflexivity|lia].
Qed.

Lemma checked_some (z r : Z) :
  Int32.checked z = Some r -> r = z /\ -2147483648 <= z <= 2147483647.
Proof.
  rewrite checked_spec.
  destruct (Z.leb_spec (-2147483648) z); cbn [andb]; [|discriminate].
  destruct (Z.leb_spec z 2147483647); [|discriminate].
  intros [= <-]. lia.
Qed.

Lemma checked_none (z : Z) :
  Int32.checked z = None <-> z < -2147483648 \/ 2147483647 < z.
Proof.
  rewrite checked_spec.
  destruct (Z.leb_spec (-2147483648) z); cbn [andb];
    [|split; [lia|reflexivity]].
  destruct (Z.leb_spec z 2147483647); split; try discriminate;
    try reflexivity; lia.
Qed.

Lemma linear_offset_some (cy cx offset : Z) :
  linear_offset cy cx = Some offset -> offset = WIDTH * cy + cx.
Proof.
  unfold linear_offset, Int32.mul, Int32.add.
  destruct (Int32.checked (WIDTH * cy)) as [row|] eqn:M; [|discriminate].
  apply checked_some in M as [-> _]. intros A.
  apply checked_some in A as [-> _]. reflexivity.
Qed.

Lemma linear_offset_fits (cy cx : Z) :
  0 <= cx < WIDTH -> 0 <= cy < HEIGHT ->
  linear_offset cy cx = Some (WIDTH * cy + cx).
Proof.
  unfold linear_offset, Int32.mul, Int32.add, WIDTH, HEIGHT. intros X Y.
  rewrite checked_fits by lia. apply checked_fits. lia.
Qed.

(** ** The verdicts of a harness *)

Lemma success_from_spec (n : nat) (i : Z) (mm : list Z) :
  0 <= i ->
  (success_from n i mm = true <->
   forall j, i <= j < i + Z.of_nat n -> j < 8 -> nth (Z.to_nat j) mm 0 = 0).
Proof.
  revert i. induction n as [|n IH]; intros i Hi.
  - simpl. split; [intros _ j B; lia | reflexivity].
  - cbn [success_from].
    destruct (Z.eqb_spec (nth (Z.to_nat i) mm 0) 0) as [E|E]; cbn [negb].
    + rewrite IH by lia. split; intros H j B L.
      * destruct (Z.eq_dec j i) as [->|N]; [exact E | apply H; lia].
      * apply H; lia.
    + destruct (Z.ltb_spec i 8) as [L8|L8].
      * split; [discriminate|]. intros H. exfalso. apply E, H; lia.
      * rewrite IH by lia. split; intros H j B L; lia.
Qed.

(** C5. [success()] is true exactly when the mismatch counts of the rounds
    0 to 7 are all zero; the counts of the rounds 8 and 9 and the error
    statistics of every round do not enter the result. *)
Theorem success_first_eight_rounds (t : TestCase) :
  (success t = true <->
   forall i, 0 <= i < 8 -> nth (Z.to_nat i) (nodataMismatches t) 0 = 0)
  /\ (forall (es : list double) (m8 m9 : Z),
        success (set_errorStatistics
                   (set_nodataMismatches t
                      (upd_nat (upd_nat (nodataMismatches t) 8 m8) 9 m9)) es)
        = success t).
Proof.
  assert (forall mm, success_from (Z.to_nat NUM_VERIFIED_ITERATIONS) 0 mm = true <->
            forall i, 0 <= i < 8 -> nth (Z.to_nat i) mm 0 = 0) as S.
  { intros mm. rewrite success_from_spec by lia.
    change (Z.of_nat (Z.to_nat NUM_VERIFIED_ITERATIONS)) with 10.
    split; intros H j B; [apply H; lia | intros L; apply H; lia]. }
  split; [apply S|].
  intros es m8 m9. apply Bool.eq_true_iff_eq. unfold success. cbn [nodataMismatches set_errorStatistics set_nodataMismatches].
  rewrite !S. split; intros H i B.
  - pose proof (H i B) as E.
    rewrite !nth_upd_nat_other in E by lia. exact E.
  - rewrite !nth_upd_nat_other by lia. apply H, B.
Qed.

(** [==] on doubles: equal values, the two zeros being equal and a NaN
    equal to nothing. *)
Lemma deq_exact (a b : double) :
  deq a b = true <->
  a <> S754_nan /\
  (a = b \/ exists s s', a = S754_zero s /\ b = S754_zero s').
Proof.
  unfold deq, SFeqb. split.
  - destruct a as [sa|sa| |sa ma ea], b as [sb|sb| |sb mb eb]; cbn;
      try discriminate;
      try (destruct sa; discriminate); try (destruct sb; discriminate).
    + intros _. split; [discriminate|]. right. eauto.
    + destruct sa, sb; try discriminate; intros _; split; (discriminate || auto).
    + change (PosDef.Pos.compare_cont Eq ma mb) with (Pos.compare ma mb).
      destruct sa, sb; try discriminate;
        (destruct (Z.compare_spec ea eb) as [->| |]; try discriminate);
        (destruct (Pos.compare_spec ma mb) as [->| |]; try discriminate);
        intros _; split; (discriminate || auto).
  - intros [N [<-|(s & s' & -> & ->)]]; [|reflexivity].
    destruct a as [sa|sa| |sa ma ea]; cbn; try congruence.
    + destruct sa; reflexivity.
    + change (PosDef.Pos.compare_cont Eq ma ma) with (Pos.compare ma ma).
      rewrite Z.compare_refl, Pos.compare_refl. destruct sa; reflexivity.
Qed.

Lemma resultEquals_from_spec (n : nat) (i : Z) (t o : TestCase) :
  0 <= i ->
  (resultEquals_from n i t o = true <->
   forall j, i <= j < i + Z.of_nat n ->
     deq (nth (Z.to_nat j) (errorStatistics t) S754_nan)
         (nth (Z.to_nat j) (errorStatistics o) S754_nan) = true
     /\ nth (Z.to_nat j) (nodataMismatches t) 0
        = nth (Z.to_nat j) (nodataMismatches o) 0).
Proof.
  revert i. induction n as [|n IH]; intros i Hi.
  - simpl. split; [intros _ j B; lia | reflexivity].
  - cbn [resultEquals_from].
    destruct (deq _ _) eqn:D; cbn [negb orb].
    + destruct (Z.eqb_spec (nth (Z.to_nat i) (nodataMismatches t) 0)
                           (nth (Z.to_nat i) (nodataMismatches o) 0)) as [E|E];
        cbn [negb].
      * rewrite IH by lia. split; intros H j B.
        -- destruct (Z.eq_dec j i) as [->|N]; [auto | apply H; lia].
        -- apply H; lia.
      * split; [discriminate|]. intros H. exfalso. apply E, H; lia.
    + split; [discriminate|]. intros H.
      destruct (H i ltac:(lia)) as [D' _]. congruence.
Qed.

(** ** The NaN payloads as integers *)

Lemma valid_sample_finite (w : Z) :
  valid_sample w = true ->
  0 <= w < 2 ^ 32 /\ (w / 2 ^ 23) mod 2 ^ 8 <> 255.
Proof.
  unfold valid_sample, decode32. intros H.
  apply andb_prop in H as [H V]. apply andb_prop in H as [L U].
  split; [lia|]. intros E. rewrite E in V. cbn in V.
  destruct (_ =? 0); discriminate.
Qed.

Lemma valid_sample_of_bits (w : Z) :
  valid_sample w = true -> Int32.of_bits w < TestNaN.FIRST_QUIET_NAN.
Proof.
  intros V. apply valid_sample_finite in V as [B E].
  unfold Int32.of_bits, Int32.half, Int32.modulus, TestNaN.FIRST_QUIET_NAN in *.
  change (2 ^ 32) with 4294967296 in *. change (2 ^ 31) with 2147483648.
  change (2 ^ 23) with 8388608 in *. change (2 ^ 8) with 256 in *.
  destruct (Z.ltb_spec w 2147483648) as [L|L]; [|lia].
  Z.div_mod_to_equations. lia.
Qed.

Lemma reasonIndex_some (w k : Z) :
  reasonIndex w = Some k ->
  0 <= k <= 3 /\ w = TestNaN.FIRST_QUIET_NAN + k
  /\ Int32.of_bits w = TestNaN.FIRST_QUIET_NAN + k.
Proof.
  unfold reasonIndex, Int32.of_bits, Int32.half, TestNaN.FIRST_QUIET_NAN.
  destruct (Z.leb_spec 0x7FC00000 w); [|discriminate].
  destruct (Z.leb_spec w (0x7FC00000 + 3)); [|discriminate].
  cbn [andb]. intros [= <-].
  change (2 ^ 31) with 2147483648.
  destruct (Z.ltb_spec w 2147483648); lia.
Qed.

Lemma reasonIndex_valid (w : Z) :
  valid_sample w = true -> reasonIndex w = None.
Proof.
  intros V. destruct (reasonIndex w) as [k|] eqn:R; [|reflexivity].
  apply valid_sample_of_bits in V. apply reasonIndex_some in R. lia.
Qed.

Lemma Int32_max_is_max (a b : Z) : Int32.max a b = Z.max a b.
Proof. unfold Int32.max. destruct (Z.ltb_spec a b); lia. Qed.

(** The signed reading of a conforming cell: below every NaN pattern for a
    valid sample, the pattern itself for a NaN. *)
Lemma nan_cell_cases (w : Z) :
  nan_cell w = true ->
  (reasonIndex w = None /\ valid_sample w = true
   /\ Int32.of_bits w < TestNaN.FIRST_QUIET_NAN)
  \/ (exists k, 0 <= k <= 3 /\ reasonIndex w = Some k
                /\ w = TestNaN.FIRST_QUIET_NAN + k
                /\ Int32.of_bits w = TestNaN.FIRST_QUIET_NAN + k).
Proof.
  unfold nan_cell. intros H. apply orb_prop in H as [V|R].
  - left. auto using reasonIndex_valid, valid_sample_of_bits.
  - right. destruct (reasonIndex w) as [k|] eqn:E; [|discriminate].
    exists k. apply reasonIndex_some in E. tauto.
Qed.

(** C3. When each of the four corners is a valid sample or one of the four
    quiet NaNs, and at least one is a NaN, the maximum of the four patterns
    read as signed 32-bit integers is [FIRST_QUIET_NAN + k] for the largest
    reason index [k] among the NaN corners. *)
Theorem combine_recovers_dominant_reason (p00 p01 p10 p11 k : Z) :
  nan_cell p00 = true -> nan_cell p01 = true ->
  nan_cell p10 = true -> nan_cell p11 = true ->
  dominant [p00; p01; p10; p11] = Some k ->
  TestNaN.combine p00 p01 p10 p11 = TestNaN.FIRST_QUIET_NAN + k.
Proof.
  intros C00 C01 C10 C11.
  apply nan_cell_cases in C00, C01, C10, C11.
  unfold TestNaN.combine. rewrite !Int32_max_is_max. cbn [dominant].
  destruct C00 as [(-> & _ & ?)|(k0 & ? & -> & _ & ->)];
  destruct C01 as [(-> & _ & ?)|(k1 & ? & -> & _ & ->)];
  destruct C10 as [(-> & _ & ?)|(k2 & ? & -> & _ & ->)];
  destruct C11 as [(-> & _ & ?)|(k3 & ? & -> & _ & ->)];
  intros [= <-]; lia.
Qed.

Lemma combine_recovers_dominant_reason_witness :
  TestNaN.combine 0x3F800000 TestNaN.LAND 0xC2C80000 TestNaN.CLOUD
  = TestNaN.FIRST_QUIET_NAN + 2.
Proof.
  apply (combine_recovers_dominant_reason
           0x3F800000 TestNaN.LAND 0xC2C80000 TestNaN.CLOUD 2);
    vm_compute; reflexivity.
Defined.

(** ** The scale of the expected results *)

(** C4. For every reason index [k] of 0..3, both codecs put the dominant
    missing outcome on the scale of the expected results at exactly
    [MISSING_VALUE_THRESHOLD + k]: the NaN codec through
    [(missingValueReason - FIRST_QUIET_NAN) + MISSING_VALUE_THRESHOLD], the
    sentinel codec through the conversion of the sentinel to [double]; the
    two doubles are the same. *)
Theorem codecs_share_the_expected_scale (k : Z) :
  0 <= k <= 3 ->
  TestNaN.toNodata (TestNaN.FIRST_QUIET_NAN + k)
  = Some (MISSING_VALUE_THRESHOLD + k)
  /\ represents (i2d (MISSING_VALUE_THRESHOLD + k))
                (MISSING_VALUE_THRESHOLD + k)
  /\ (forall w, sentinel_of w k ->
        represents (f2d w) (MISSING_VALUE_THRESHOLD + k)
        /\ f2d w = i2d (MISSING_VALUE_THRESHOLD + k)).
Proof.
  intros B.
  assert (k = 0 \/ k = 1 \/ k = 2 \/ k = 3) as [-> | [-> | [-> | ->]]] by lia;
    (split; [reflexivity|]); (split; [vm_compute; split; [discriminate|reflexivity]|]);
    intros w [_ D]; unfold f2d; rewrite D;
    (split; [vm_compute; split; [discriminate|reflexivity] | vm_compute; reflexivity]).
Qed.

Lemma codecs_share_the_expected_scale_witness :
  TestNaN.toNodata TestNaN.LAND = Some 10002
  /\ represents (i2d 10002) 10002
  /\ represents (f2d 0x461C4800) 10002
  /\ f2d 0x461C4800 = i2d 10002.
Proof.
  destruct (codecs_share_the_expected_scale 2 ltac:(lia)) as (A & B & C).
  destruct (C 0x461C4800) as [D E].
  - split; [lia | vm_compute; reflexivity].
  - exact (conj A (conj B (conj D E))).
Defined.

(** ** The loader *)

(** When the heap serves the request, [readAllBytes] returns [NULL] exactly
    for an absent file and for a file shorter than [numBytes]; a buffer it
    returns holds [numBytes] bytes. *)
Lemma readAllBytes_served (w : World) (file : string) (numBytes : Z) :
  0 <= numBytes -> heap_serves w numBytes = true ->
  (readAllBytes w file numBytes = Ok None <->
   files w file = None
   \/ exists content, files w file = Some content
        /\ Z.of_nat (List.length content) < numBytes)
  /\ (forall bytes, readAllBytes w file numBytes = Ok (Some bytes) ->
        Z.of_nat (List.length bytes) = numBytes)
  /\ exists r, readAllBytes w file numBytes = Ok r.
Proof.
  intros N H. unfold readAllBytes. rewrite H.
  destruct (Z.leb_spec 0 numBytes); [|lia]. cbn [andb].
  destruct (files w file) as [content|].
  - destruct (Z.leb_spec numBytes (Z.of_nat (List.length content))) as [L|L].
    + split; [|split].
      * split; [discriminate|]. intros [?|(c & [= <-] & ?)]; [discriminate|lia].
      * intros bytes [= <-]. rewrite length_firstn. lia.
      * eauto.
    + split; [|split].
      * split; [|reflexivity]. intros _. right. eauto.
      * discriminate.
      * eauto.
  - split; [|split]; [tauto | discriminate | eauto].
Qed.

(** C8, evaluated where the claim fails.  The file exists and holds the
    four bytes asked for, but the heap is exhausted: [new] throws, and the
    function does not return [NULL]. *)
Theorem readAllBytes_exhausted_heap :
  files exhausted_world "raster.raw" <> None
  /\ readAllBytes exhausted_world "raster.raw" 4 = Terminate
  /\ readAllBytes exhausted_world "raster.raw" 4 <> Ok None.
Proof.
  split; [discriminate|]. split; [reflexivity | discriminate].
Qed.

(** C10. If one of the three loads returns [NULL], [computeAndCompare]
    returns with the harness as the constructor left it: both arrays hold
    zeros only, and [success()] is true although nothing was verified. *)
Theorem failed_load_leaves_success (w : World) (testNaN : bool) (order : endian) :
  some_load_fails w (new_TestCase testNaN order) ->
  let t := new_TestCase testNaN order in
  computeAndCompare w t = Ok t
  /\ errorStatistics t = repeat (S754_zero false) 10
  /\ nodataMismatches t = repeat 0 10
  /\ success t = true.
Proof.
  intros F t. split; [|repeat split].
  unfold computeAndCompare, TestNaN.computeAndCompare, TestNodata.computeAndCompare.
  fold t in F.
  destruct F as [R|(raster & R & [C|(coords & C & E)])];
    rewrite R; cbn [bind]; try rewrite C; cbn [bind]; try rewrite E; cbn [bind];
    destruct (useNaN t); reflexivity.
Qed.

Lemma failed_load_leaves_success_witness :
  computeAndCompare empty_world (new_TestCase true big)
  = Ok (new_TestCase true big)
  /\ success (new_TestCase true big) = true.
Proof.
  destruct (failed_load_leaves_success empty_world true big) as (A & _ & _ & B).
  - left. reflexivity.
  - exact (conj A B).
Defined.

(** ** The bound check *)

(** What the check does guarantee: the base offset and its right
    neighbour are cells of the raster. *)
Lemma out_of_bounds_spec (offset : Z) :
  out_of_bounds offset = false <->
  0 <= offset /\ offset + 1 <= (HEIGHT - 1) * WIDTH + (WIDTH - 1).
Proof.
  unfold out_of_bounds, HEIGHT, WIDTH.
  destruct (Z.ltb_spec offset 0), (Z.geb_spec offset ((600 - 1) * 800 + (800 - 1)));
    cbn; split; intros; try discriminate; try reflexivity; lia.
Qed.

(** C2, evaluated where the claim fails.  At [(x, y) = (0, 599)] the base
    offset is 479200: the check lets it pass, although the lower row of the
    neighbourhood starts at cell 480000, one past the raster; the two reads
    there are outside the array.  No integer operation overflows on the
    way: the undefined behaviour is that of the reads. *)
Theorem bound_check_misses_lower_row
    (raster : list Z) (expectedResults : list double) (it : Z) (t : TestCase) :
  Z.of_nat (List.length raster) = WIDTH * HEIGHT ->
  (linear_offset 599 0 = Some 479200 /\ out_of_bounds 479200 = false)
  /\ (Int32.add 479200 WIDTH = Some 480000
      /\ (HEIGHT - 1) * WIDTH + (WIDTH - 1) < 480000)
  /\ TestNaN.sample raster expectedResults it 0
       (at_point (i2d 0) (i2d 599) t) = Undefined
  /\ TestNodata.sample raster expectedResults it 0
       (at_point (i2d 0) (i2d 599) t) = Undefined.
Proof.
  intros L. split; [split; reflexivity|]. split; [split; reflexivity|].
  assert (read raster 480000 = None) as R.
  { apply read_beyond. rewrite L. vm_compute. discriminate. }
  assert (d2i (dfloor (i2d 599)) = Some 599) as Dy by (vm_compute; reflexivity).
  assert (d2i (dfloor (i2d 0)) = Some 0) as Dx by (vm_compute; reflexivity).
  split.
  - unfold TestNaN.sample, at_point. cbn [coordinates].
    change (read [i2d 0; i2d 599] (Z.shiftl 0 1)) with (Some (i2d 0)).
    change (read [i2d 0; i2d 599] (Z.lor (Z.shiftl 0 1) 1)) with (Some (i2d 599)).
    cbn [defined bind]. rewrite Dy, Dx. cbn [defined bind].
    change (linear_offset 599 0) with (Some 479200). cbn [defined bind].
    change (out_of_bounds 479200) with false. cbv iota.
    change (Int32.add 479200 1) with (Some 479201).
    change (Int32.add 479200 WIDTH) with (Some 480000).
    destruct (read raster 479200); cbn [defined bind]; [|reflexivity].
    destruct (read raster 479201); cbn [defined bind]; [|reflexivity].
    rewrite R. reflexivity.
  - unfold TestNodata.sample, at_point. cbn [coordinates].
    change (read [i2d 0; i2d 599] (Z.shiftl 0 1)) with (Some (i2d 0)).
    change (read [i2d 0; i2d 599] (Z.lor (Z.shiftl 0 1) 1)) with (Some (i2d 599)).
    cbn [defined bind]. rewrite Dy, Dx. cbn [defined bind].
    change (linear_offset 599 0) with (Some 479200). cbn [defined bind].
    change (out_of_bounds 479200) with false. cbv iota.
    change (Int32.add 479200 1) with (Some 479201).
    change (Int32.add 479200 WIDTH) with (Some 480000).
    destruct (read raster 479200); cbn [defined bind]; [|reflexivity].
    destruct (read raster 479201); cbn [defined bind]; [|reflexivity].
    rewrite R. reflexivity.
Qed.

Lemma blank_raster_length :
  Z.of_nat (List.length (repeat 0 (Z.to_nat (WIDTH * HEIGHT)))) = WIDTH * HEIGHT.
Proof. rewrite repeat_length. apply Z2Nat.id. discriminate. Qed.

Lemma bound_check_misses_lower_row_witness :
  TestNaN.sample (repeat 0 (Z.to_nat (WIDTH * HEIGHT))) [] 0 0
    (at_point (i2d 0) (i2d 599) (new_TestCase true big)) = Undefined.
Proof.
  exact (proj1 (proj2 (proj2
           (bound_check_misses_lower_row
              (repeat 0 (Z.to_nat (WIDTH * HEIGHT))) [] 0
              (new_TestCase true big) blank_raster_length)))).
Defined.

(** ** Binary digits *)

Lemma digits2_pos_bounds (p : positive) :
  2 ^ (Zpos (digits2_pos p) - 1) <= Zpos p < 2 ^ Zpos (digits2_pos p).
Proof.
  induction p as [p IH|p IH|]; cbn [digits2_pos].
  - rewrite Pos2Z.inj_succ. replace (Z.succ (Zpos (digits2_pos p)) - 1) with (Z.succ (Zpos (digits2_pos p) - 1)) by lia.
    rewrite !Z.pow_succ_r by lia. lia.
  - rewrite Pos2Z.inj_succ. replace (Z.succ (Zpos (digits2_pos p)) - 1) with (Z.succ (Zpos (digits2_pos p) - 1)) by lia.
    rewrite !Z.pow_succ_r by lia. lia.
  - cbn. lia.
Qed.

(** [Zdigits2 m <= k] says [m < 2 ^ k]. *)
Lemma digits_le_iff (p : positive) (k : Z) :
  Zpos (digits2_pos p) <= k <-> Zpos p < 2 ^ k.
Proof.
  pose proof (digits2_pos_bounds p) as [L U]. split; intros H.
  - eapply Z.lt_le_trans; [exact U|]. apply Z.pow_le_mono_r; lia.
  - destruct (Z.le_gt_cases (Zpos (digits2_pos p)) k) as [|G]; [assumption|].
    exfalso. assert (2 ^ k <= 2 ^ (Zpos (digits2_pos p) - 1)).
    { destruct (Z.lt_ge_cases k 0).
      - rewrite (Z.pow_neg_r 2 k) by lia. apply Z.pow_nonneg; lia.
      - apply Z.pow_le_mono_r; lia. }
    lia.
Qed.

Lemma digits_ge_iff (p : positive) (k : Z) :
  0 < k -> (k <= Zpos (digits2_pos p) <-> 2 ^ (k - 1) <= Zpos p).
Proof.
  intros K. pose proof (digits_le_iff p (k - 1)). lia.
Qed.

Lemma digits_shift (p : positive) (d : Z) :
  0 <= d ->
  Zdigits2 (Zpos p * 2 ^ d) = Zpos (digits2_pos p) + d.
Proof.
  intros D. assert (0 < 2 ^ d) as P by (apply Z.pow_pos_nonneg; lia).
  destruct (Zpos p * 2 ^ d) as [|q|q] eqn:E; try lia. cbn [Zdigits2].
  pose proof (digits2_pos_bounds p) as [L U].
  assert (Zpos (digits2_pos q) <= Zpos (digits2_pos p) + d).
  { apply digits_le_iff. rewrite <- E, Z.pow_add_r by lia.
    apply Z.mul_lt_mono_pos_r; lia. }
  assert (Zpos (digits2_pos p) + d <= Zpos (digits2_pos q)).
  { apply digits_ge_iff; [lia|]. rewrite <- E.
    replace (Zpos (digits2_pos p) + d - 1) with (Zpos (digits2_pos p) - 1 + d) by lia.
    rewrite Z.pow_add_r by lia. apply Z.mul_le_mono_nonneg_r; lia. }
  lia.
Qed.

Lemma iter_xO (p : positive) (d : positive) :
  Zpos (Pos.iter xO p d) = Zpos p * 2 ^ Zpos d.
Proof.
  revert p. induction d as [|d IH] using Pos.peano_ind; intros p.
  - rewrite Pos.iter_succ_r || cbn. cbn. lia.
  - rewrite Pos.iter_succ, Pos2Z.inj_succ, Z.pow_succ_r by lia.
    rewrite Pos2Z.inj_xO, IH. lia.
Qed.

(** The alignment of [SFadd]: a shift to the left, never a loss. *)
Lemma shl_align_spec (mx : positive) (ex ex' : Z) :
  let '(m, e) := shl_align mx ex ex' in
  e = Z.min ex ex' /\ Zpos m = Zpos mx * 2 ^ (ex - e).
Proof.
  unfold shl_align. destruct (ex' - ex) as [|d|d] eqn:E.
  - split; [lia|]. replace (ex - ex) with 0 by lia. lia.
  - split; [lia|]. replace (ex - ex) with 0 by lia. lia.
  - split; [lia|]. rewrite iter_xO. f_equal. f_equal. lia.
Qed.

(** ** Shifts to the right *)

Lemma shr_1_m (r : shr_record) :
  0 <= shr_m r -> shr_m (shr_1 r) = shr_m r / 2.
Proof.
  destruct r as [m rb sb]. cbn [shr_m]. intros N.
  destruct m as [|[p|p|]|p]; cbn [shr_1 shr_m]; try lia; try reflexivity.
  - apply Z.div_unique with 1; lia.
  - apply Z.div_unique with 0; lia.
Qed.

Lemma iter_shr_1_m (p : positive) (r : shr_record) :
  0 <= shr_m r ->
  shr_m (iter_pos shr_1 p r) = shr_m r / 2 ^ Zpos p.
Proof.
  revert r. induction p as [p IH|p IH|]; intros r N; cbn [iter_pos].
  - assert (0 <= shr_m (shr_1 r)) by (rewrite shr_1_m by lia; apply Z.div_pos; lia).
    assert (0 < 2 ^ Zpos p) by (apply Z.pow_pos_nonneg; lia).
    rewrite IH; [rewrite IH by assumption|rewrite IH by assumption; apply Z.div_pos; lia].
    rewrite shr_1_m by lia. rewrite !Z.div_div by lia.
    f_equal. replace (Zpos p~1) with (1 + Zpos p + Zpos p) by lia.
    rewrite !Z.pow_add_r by lia. change (2 ^ 1) with 2. lia.
  - assert (0 < 2 ^ Zpos p) by (apply Z.pow_pos_nonneg; lia).
    rewrite IH; [rewrite IH by assumption|rewrite IH by assumption; apply Z.div_pos; lia].
    rewrite !Z.div_div by lia. f_equal.
    replace (Zpos p~0) with (Zpos p + Zpos p) by lia.
    rewrite !Z.pow_add_r by lia. lia.
  - rewrite shr_1_m by lia. reflexivity.
Qed.

Lemma Zdigits2_nonneg (m : Z) : 0 <= Zdigits2 m.
Proof. destruct m; cbn; lia. Qed.

Lemma Zdigits2_le_iff (m k : Z) :
  0 <= m -> 0 <= k -> (Zdigits2 m <= k <-> m < 2 ^ k).
Proof.
  intros M K. destruct m as [|p|p]; try lia.
  - cbn. split; intros _; [apply Z.pow_pos_nonneg|]; lia.
  - apply digits_le_iff.
Qed.

Lemma Zdigits2_div (m k j : Z) :
  0 <= m -> 0 <= k -> 0 <= j ->
  Zdigits2 m <= j + k -> Zdigits2 (m / 2 ^ k) <= j.
Proof.
  intros M K J D.
  assert (0 < 2 ^ k) by (apply Z.pow_pos_nonneg; lia).
  apply Zdigits2_le_iff; [apply Z.div_pos; lia | lia |].
  apply Zdigits2_le_iff in D; [|lia|lia].
  apply Z.div_lt_upper_bound; [lia|].
  rewrite <- Z.pow_add_r by lia. rewrite Z.add_comm. exact D.
Qed.

Lemma Zdigits2_succ (q : Z) : 0 <= q -> Zdigits2 (q + 1) <= Zdigits2 q + 1.
Proof.
  intros Q. pose proof (Zdigits2_nonneg q).
  apply Zdigits2_le_iff; [lia|lia|].
  assert (q < 2 ^ Zdigits2 q) by (apply Zdigits2_le_iff; lia).
  rewrite Z.pow_add_r by lia. change (2 ^ 1) with 2. lia.
Qed.

Lemma Zdigits2_mono (a b : Z) : 0 <= a <= b -> Zdigits2 a <= Zdigits2 b.
Proof.
  intros B. pose proof (Zdigits2_nonneg b).
  apply Zdigits2_le_iff; [lia|lia|].
  assert (b < 2 ^ Zdigits2 b) by (apply Zdigits2_le_iff; lia). lia.
Qed.

(** ** Rounding to binary64 *)

Lemma fexp64_eq (k : Z) : fexp prec64 emax64 k = fexp64 k.
Proof. reflexivity. Qed.

Lemma shr_record_of_loc_m (m : Z) (l : location) :
  shr_m (shr_record_of_loc m l) = m.
Proof. destruct l as [|[| |]]; reflexivity. Qed.

Lemma shr_fexp_spec (m e : Z) (l : location) :
  0 <= m ->
  exists mrs e',
    shr_fexp prec64 emax64 m e l = (mrs, e')
    /\ e' = Z.max e (fexp64 (Zdigits2 m + e))
    /\ shr_m mrs = m / 2 ^ (e' - e).
Proof.
  intros M. unfold shr_fexp, shr. rewrite fexp64_eq.
  destruct (fexp64 (Zdigits2 m + e) - e) as [|p|p] eqn:E.
  - eexists _, _. split; [reflexivity|]. split; [lia|].
    replace (e - e) with 0 by lia. rewrite Z.div_1_r. apply shr_record_of_loc_m.
  - eexists _, _. split; [reflexivity|]. split; [lia|].
    rewrite iter_shr_1_m by (rewrite shr_record_of_loc_m; lia).
    rewrite shr_record_of_loc_m. f_equal. f_equal. lia.
  - eexists _, _. split; [reflexivity|]. split; [lia|].
    replace (e - e) with 0 by lia. rewrite Z.div_1_r. apply shr_record_of_loc_m.
Qed.

Lemma round_nearest_even_bounds (q : Z) (l : location) :
  q <= round_nearest_even q l <= q + 1.
Proof.
  unfold round_nearest_even. destruct l as [|[| |]]; try lia.
  destruct (Z.even q); lia.
Qed.

Lemma fin_mono (K K' : Z) (d : double) : K <= K' -> fin K d -> fin K' d.
Proof. destruct d; cbn; intros; intuition lia. Qed.

Lemma binary_round_aux_fin (sx : bool) (mx ex : Z) (lx : location) (K : Z) :
  0 <= mx -> Zdigits2 mx + ex <= K -> ex <= 970 -> -1074 <= K <= 1023 ->
  fin (K + 1) (binary_round_aux prec64 emax64 sx mx ex lx).
Proof.
  intros M D E HK. unfold binary_round_aux.
  destruct (shr_fexp_spec mx ex lx M) as (mrs' & e' & -> & He' & Hq).
  pose proof (Zdigits2_nonneg mx) as Dm.
  assert (0 < 2 ^ (e' - ex)) as P1 by (apply Z.pow_pos_nonneg; lia).
  assert (0 <= shr_m mrs') as Q0 by (rewrite Hq; apply Z.div_pos; lia).
  pose proof (round_nearest_even_bounds (shr_m mrs') (loc_of_shr_record mrs')) as R.
  set (m1 := round_nearest_even (shr_m mrs') (loc_of_shr_record mrs')) in *.
  assert (Zdigits2 (shr_m mrs') <= Z.max (Zdigits2 mx - (e' - ex)) 0) as Dq.
  { rewrite Hq. apply Zdigits2_div; lia. }
  assert (Zdigits2 m1 <= Zdigits2 (shr_m mrs') + 1) as D1.
  { etransitivity; [apply Zdigits2_mono; split; [|apply R]; lia|].
    apply Zdigits2_succ; lia. }
  assert (0 <= m1) as M1 by lia.
  destruct (shr_fexp_spec m1 e' loc_Exact M1) as (mrs'' & e'' & -> & He'' & Hq').
  pose proof (Zdigits2_nonneg m1) as Dm1.
  assert (0 < 2 ^ (e'' - e')) as P2 by (apply Z.pow_pos_nonneg; lia).
  assert (0 <= shr_m mrs'') as Q0' by (rewrite Hq'; apply Z.div_pos; lia).
  assert (Zdigits2 (shr_m mrs'') <= Z.max (Zdigits2 m1 - (e'' - e')) 0) as Dq'.
  { rewrite Hq'. apply Zdigits2_div; lia. }
  unfold fexp64 in *.
  destruct (shr_m mrs'') as [|m|m] eqn:Em; [exact I| |lia].
  cbn [Zdigits2] in Dq'.
  change (emax64 - prec64) with 971.
  destruct (Z.leb_spec e'' 971) as [L|L]; [|lia].
  cbn [fin]. lia.
Qed.

Lemma binary_round_fin (sx : bool) (p : positive) (e K : Z) :
  Zpos (digits2_pos p) + e <= K -> -1074 <= K <= 1023 ->
  fin (K + 1) (binary_round prec64 emax64 sx p e).
Proof.
  intros D HK. unfold binary_round.
  pose proof (shl_align_spec p e (fexp prec64 emax64 (Zpos (digits2_pos p) + e))) as A.
  destruct (shl_align p e _) as [mz ez]. destruct A as [Ez Mz].
  rewrite fexp64_eq in Ez. unfold fexp64 in Ez.
  apply binary_round_aux_fin; try lia.
  rewrite Mz, digits_shift by lia. lia.
Qed.

(** Rounding an integer multiple of [2 ^ e] below [2 ^ K] never overflows
    and never yields a NaN. *)
Lemma round64_fin (m e : Z) (sz : bool) (K : Z) :
  Zdigits2 m + e <= K -> -1074 <= K <= 1023 ->
  fin (K + 1) (round64 m e sz).
Proof.
  intros D HK. unfold round64, binary_normalize.
  destruct m as [|p|p]; [exact I| |]; apply binary_round_fin; assumption.
Qed.

(** A number that fits the format is left as it is, up to the choice of
    the exponent. *)
Lemma round64_exact (s : bool) (p : positive) (e : Z) (sz : bool) :
  Zpos (digits2_pos p) <= 53 -> -1074 <= e ->
  Zpos (digits2_pos p) + e <= 1024 ->
  let e' := fexp64 (Zpos (digits2_pos p) + e) in
  e' <= e /\
  round64 (cond_Zopp s (Zpos p)) e sz
  = S754_finite s (Z.to_pos (Zpos p * 2 ^ (e - e'))) e'.
Proof.
  intros D E U e'. assert (e' <= e) as L by (unfold e', fexp64; lia).
  split; [exact L|].
  assert (round64 (cond_Zopp s (Zpos p)) e sz = binary_round prec64 emax64 s p e) as ->.
  { destruct s; reflexivity. }
  unfold binary_round.
  pose proof (shl_align_spec p e (fexp prec64 emax64 (Zpos (digits2_pos p) + e))) as A.
  destruct (shl_align p e _) as [mz ez]. destruct A as [Ez Mz].
  rewrite fexp64_eq in Ez. fold e' in Ez.
  assert (ez = e') as -> by lia.
  assert (Zdigits2 (Zpos mz) + e' = Zpos (digits2_pos p) + e) as Dz.
  { rewrite Mz, digits_shift by lia. lia. }
  unfold binary_round_aux, shr_fexp. rewrite !fexp64_eq.
  rewrite Dz. fold e'. replace (e' - e') with 0 by lia.
  cbn [shr shr_record_of_loc shr_m loc_of_shr_record round_nearest_even].
  rewrite !fexp64_eq, Dz. fold e'. replace (e' - e') with 0 by lia.
  cbn [shr shr_m].
  change (emax64 - prec64) with 971.
  destruct (Z.leb_spec e' 971) as [L'|L']; [|unfold e', fexp64 in L'; lia].
  f_equal. rewrite <- Mz. reflexivity.
Qed.

Lemma Zdigits2_abs (m : Z) : Zdigits2 (Z.abs m) = Zdigits2 m.
Proof. destruct m; reflexivity. Qed.

Lemma Zdigits2_abs_le (m k : Z) :
  0 <= k -> (Zdigits2 m <= k <-> Z.abs m < 2 ^ k).
Proof.
  intros K. rewrite <- Zdigits2_abs. apply Zdigits2_le_iff; lia.
Qed.

Lemma cond_Zopp_abs (s : bool) (m : Z) : Z.abs (cond_Zopp s m) = Z.abs m.
Proof. destruct s; cbn; lia. Qed.

(** The magnitude of [m * 2 ^ (e - e0)] for a number [m * 2 ^ e] below
    [2 ^ K], once aligned on a smaller exponent [e0]. *)
Lemma aligned_bound (m : positive) (e e0 K : Z) :
  Zpos (digits2_pos m) + e <= K -> e0 <= e ->
  Zpos m * 2 ^ (e - e0) < 2 ^ (K - e0).
Proof.
  intros D L.
  assert (Zpos m < 2 ^ (K - e)) as B by (apply digits_le_iff; lia).
  assert (0 < Zpos (digits2_pos m)) by lia.
  replace (K - e0) with ((K - e) + (e - e0)) by lia.
  rewrite Z.pow_add_r by lia.
  apply Z.mul_lt_mono_pos_r; [apply Z.pow_pos_nonneg|]; lia.
Qed.

(** The sum or difference of two aligned numbers below [2 ^ K]. *)
Lemma sum_digits (a b e K : Z) :
  Z.abs a < 2 ^ (K - e) -> Z.abs b < 2 ^ (K - e) ->
  Zdigits2 (a + b) + e <= K + 1 /\ Zdigits2 (a - b) + e <= K + 1.
Proof.
  intros A B.
  assert (0 <= K - e).
  { destruct (Z.lt_ge_cases (K - e) 0) as [N|]; [|assumption].
    rewrite (Z.pow_neg_r 2 (K - e)) in A by assumption. lia. }
  assert (2 ^ (K + 1 - e) = 2 * 2 ^ (K - e)) as P.
  { replace (K + 1 - e) with (Z.succ (K - e)) by lia. apply Z.pow_succ_r; lia. }
  split.
  - assert (Zdigits2 (a + b) <= K + 1 - e); [|lia].
    apply Zdigits2_abs_le; lia.
  - assert (Zdigits2 (a - b) <= K + 1 - e); [|lia].
    apply Zdigits2_abs_le; lia.
Qed.

Lemma shl_align_fst (mx : positive) (ex ez : Z) :
  ez <= ex -> Zpos (fst (shl_align mx ex ez)) = Zpos mx * 2 ^ (ex - ez).
Proof.
  intros L. pose proof (shl_align_spec mx ex ez) as A.
  destruct (shl_align mx ex ez) as [m e]. destruct A as [-> E].
  cbn [fst]. rewrite E. f_equal. f_equal. lia.
Qed.

Lemma dsub_fin (K : Z) (a b : double) :
  -1074 <= K <= 1021 -> fin K a -> fin K b -> fin (K + 2) (dsub a b).
Proof.
  intros HK A B. unfold dsub.
  destruct a as [sa| | |sa ma ea], b as [sb| | |sb mb eb]; cbn [fin] in *;
    try contradiction.
  - cbn [SFsub]. destruct sa, sb; exact I.
  - cbn [SFsub fin]. lia.
  - cbn [SFsub fin]. lia.
  - cbn [SFsub].
    replace (K + 2) with ((K + 1) + 1) by lia.
    apply round64_fin; [|lia].
    rewrite !shl_align_fst by lia.
    apply sum_digits; rewrite cond_Zopp_abs, Z.abs_eq by lia;
      apply aligned_bound; lia.
Qed.

Lemma dadd_fin (K : Z) (a b : double) :
  -1074 <= K <= 1021 -> fin K a -> fin K b -> fin (K + 2) (dadd a b).
Proof.
  intros HK A B. unfold dadd.
  destruct a as [sa| | |sa ma ea], b as [sb| | |sb mb eb]; cbn [fin] in *;
    try contradiction.
  - cbn [SFadd]. destruct sa, sb; exact I.
  - cbn [SFadd fin]. lia.
  - cbn [SFadd fin]. lia.
  - cbn [SFadd].
    replace (K + 2) with ((K + 1) + 1) by lia.
    apply round64_fin; [|lia].
    rewrite !shl_align_fst by lia.
    apply sum_digits; rewrite cond_Zopp_abs, Z.abs_eq by lia;
      apply aligned_bound; lia.
Qed.

Lemma digits_mul (a b : positive) :
  Zpos (digits2_pos (a * b)) <= Zpos (digits2_pos a) + Zpos (digits2_pos b).
Proof.
  apply digits_le_iff. rewrite Pos2Z.inj_mul, Z.pow_add_r by lia.
  pose proof (digits2_pos_bounds a). pose proof (digits2_pos_bounds b).
  apply Z.mul_lt_mono_nonneg; lia.
Qed.

Lemma dfma_fin (Ka Kb Kc : Z) (a b c : double) :
  0 <= Ka -> 0 <= Kb -> 0 <= Kc -> Ka + Kb <= 1021 -> Kc <= 1021 ->
  fin Ka a -> fin Kb b -> fin Kc c ->
  fin (Z.max (Ka + Kb) Kc + 2) (dfma a b c).
Proof.
  intros HKa HKb HKc HK HK' A B C. unfold dfma.
  destruct a as [sa| | |sa ma ea], b as [sb| | |sb mb eb]; cbn [fin] in *;
    try contradiction.
  - destruct c as [sc| | |sc mc ec]; cbn [fin] in *; try contradiction.
    + destruct (Bool.eqb _ _); exact I.
    + lia.
  - destruct c as [sc| | |sc mc ec]; cbn [fin] in *; try contradiction.
    + destruct (Bool.eqb _ _); exact I.
    + lia.
  - destruct c as [sc| | |sc mc ec]; cbn [fin] in *; try contradiction.
    + destruct (Bool.eqb _ _); exact I.
    + lia.
  - pose proof (digits_mul ma mb) as DM.
    destruct c as [sc| | |sc mc ec]; cbn [fin] in *; try contradiction.
    + apply fin_mono with (Ka + Kb + 1); [lia|].
      apply round64_fin; [|lia].
      destruct (xorb sa sb); cbn [cond_Zopp Z.opp Zdigits2]; lia.
    + set (e := Z.min (ea + eb) ec).
      replace (Z.max (Ka + Kb) Kc + 2) with ((Z.max (Ka + Kb) Kc + 1) + 1) by lia.
      apply round64_fin; [|lia].
      apply sum_digits.
      * rewrite cond_Zopp_abs, Z.abs_eq
          by (apply Z.mul_nonneg_nonneg; [lia|apply Z.pow_nonneg; lia]).
        apply aligned_bound; unfold e; lia.
      * rewrite cond_Zopp_abs, Z.abs_eq
          by (apply Z.mul_nonneg_nonneg; [lia|apply Z.pow_nonneg; lia]).
        apply aligned_bound; unfold e; lia.
Qed.

(** NaN in, NaN out. *)
Lemma dsub_nan_l (b : double) : dsub S754_nan b = S754_nan.
Proof. reflexivity. Qed.

Lemma dsub_nan_r (a : double) : dsub a S754_nan = S754_nan.
Proof. destruct a; reflexivity. Qed.

Lemma dfma_nan_l (b c : double) : dfma S754_nan b c = S754_nan.
Proof. reflexivity. Qed.

Lemma dfma_nan_z (a b : double) : dfma a b S754_nan = S754_nan.
Proof. destruct a, b; reflexivity. Qed.

Lemma fin_not_nan (K : Z) (d : double) : fin K d -> isnan d = false.
Proof. destruct d; cbn; intros; (reflexivity || contradiction). Qed.

(** ** Decoding a [float] *)

Lemma finite_inj (s s' : bool) (m m' : positive) (e e' : Z) :
  S754_finite s m e = S754_finite s' m' e' -> s = s' /\ m = m' /\ e = e'.
Proof. intros H. injection H. auto. Qed.

Lemma decode32_finite (w : Z) (s : bool) (m : positive) (e : Z) :
  decode32 w = S754_finite s m e ->
  Zpos m < 2 ^ 24 /\ -149 <= e <= 104 /\ (e = -149 \/ 2 ^ 23 <= Zpos m).
Proof.
  unfold decode32.
  pose proof (Z.mod_pos_bound (w / 2 ^ 23) (2 ^ 8) ltac:(lia)) as Bx.
  pose proof (Z.mod_pos_bound w (2 ^ 23) ltac:(lia)) as Bf.
  remember ((w / 2 ^ 23) mod 2 ^ 8) as ex eqn:Hex.
  remember (w mod 2 ^ 23) as fr eqn:Hfr.
  remember (Z.testbit w 31) as s0 eqn:Hs.
  clear Hex Hfr Hs w.
  change (2 ^ 8) with 256 in Bx. change (2 ^ 23) with 8388608 in *.
  change (2 ^ 24) with 16777216.
  destruct (Z.eqb_spec ex 255); [destruct (fr =? 0); discriminate|].
  destruct (Z.eqb_spec ex 0).
  - destruct (Z.eqb_spec fr 0); [discriminate|].
    intros E. apply finite_inj in E as (_ & Em & Ee). subst m e.
    rewrite Z2Pos.id by lia. lia.
  - intros E. apply finite_inj in E as (_ & Em & Ee). subst m e.
    rewrite Z2Pos.id by lia. lia.
Qed.

Lemma valid_sample_decode (w : Z) :
  valid_sample w = true ->
  match decode32 w with
  | S754_zero _ => True
  | S754_finite _ m e => Zpos m * 2 ^ (e + 149) <= 100 * 2 ^ 149
  | _ => False
  end.
Proof.
  unfold valid_sample. intros H. apply andb_prop in H as [_ V].
  destruct (decode32 w); try discriminate; [exact I|]. lia.
Qed.

(** A valid sample converts to a finite double. *)
Lemma f2d_fin (w : Z) : valid_sample w = true -> fin 129 (f2d w).
Proof.
  intros V. apply valid_sample_decode in V. unfold f2d, widen.
  destruct (decode32 w) as [s| | |s m e] eqn:D; try contradiction; [exact I|].
  apply decode32_finite in D as (M & E & _).
  apply (round64_fin _ _ _ 128); [|lia].
  assert (Zpos (digits2_pos m) <= 24) by (apply digits_le_iff; exact M).
  destruct s; cbn [cond_Zopp Z.opp Zdigits2]; lia.
Qed.

Lemma f2d_reason (k : Z) :
  0 <= k <= 3 -> f2d (TestNaN.FIRST_QUIET_NAN + k) = S754_nan.
Proof.
  intros B. assert (k = 0 \/ k = 1 \/ k = 2 \/ k = 3) as [-> | [-> | [-> | ->]]] by lia;
    reflexivity.
Qed.

(** ** [floor] and the cast to [int] *)

Lemma fin_wf (K : Z) (d : double) : fin K d -> wf d.
Proof. destruct d; cbn; tauto. Qed.

Lemma valid_binary_wf (d : double) :
  valid_binary prec64 emax64 d = true -> wf d.
Proof.
  destruct d as [| | |s m e]; cbn [valid_binary wf]; try tauto.
  unfold bounded, canonical_mantissa. rewrite fexp64_eq. unfold fexp64.
  intros H. apply andb_prop in H as [C _]. apply Z.eqb_eq in C. lia.
Qed.

Lemma ifloor_abs (s : bool) (m : positive) (e : Z) :
  e < 0 -> Z.abs (ifloor s m e) <= Zpos m.
Proof.
  intros E. unfold ifloor. destruct (Z.leb_spec 0 e); [lia|].
  assert (1 <= 2 ^ (- e)) by (apply (Z.pow_le_mono_r 2 0); lia).
  destruct s; cbn [cond_Zopp]; Z.div_mod_to_equations; nia.
Qed.

Lemma int_range_dec (t : Z) :
  (Int32.min_signed <=? t) && (t <=? Int32.max_signed) = true <->
  - 2 ^ 31 <= t <= 2 ^ 31 - 1.
Proof.
  unfold Int32.min_signed, Int32.max_signed, Int32.half.
  rewrite andb_true_iff, !Z.leb_le. tauto.
Qed.

(** The cast of an integer-valued double gives the integer back. *)
Lemma d2i_round64_int (q : Z) (sz : bool) :
  Zdigits2 q <= 53 ->
  d2i (round64 q 0 sz)
  = if (Int32.min_signed <=? q) && (q <=? Int32.max_signed) then Some q else None.
Proof.
  intros D. destruct q as [|p|p].
  - reflexivity.
  - destruct (round64_exact false p 0 sz) as [L E]; cbn [Zdigits2] in D; try lia.
    cbn [cond_Zopp] in E. rewrite E. clear E.
    set (e' := fexp64 (Zpos (digits2_pos p) + 0)) in *.
    assert (0 < 2 ^ (0 - e')) by (apply Z.pow_pos_nonneg; lia).
    unfold d2i. rewrite Z2Pos.id by lia.
    destruct (Z.leb_spec 0 e').
    + replace e' with 0 by lia. cbn [cond_Zopp]. rewrite !Z.mul_1_r. reflexivity.
    + cbn [cond_Zopp]. replace (0 - e') with (- e') by lia.
      rewrite Z.div_mul by lia. reflexivity.
  - destruct (round64_exact true p 0 sz) as [L E]; cbn [Zdigits2] in D; try lia.
    cbn [cond_Zopp Z.opp] in E. rewrite E. clear E.
    set (e' := fexp64 (Zpos (digits2_pos p) + 0)) in *.
    assert (0 < 2 ^ (0 - e')) by (apply Z.pow_pos_nonneg; lia).
    unfold d2i. rewrite Z2Pos.id by lia.
    destruct (Z.leb_spec 0 e').
    + replace e' with 0 by lia. cbn [cond_Zopp]. rewrite !Z.mul_1_r. reflexivity.
    + cbn [cond_Zopp]. replace (0 - e') with (- e') by lia.
      rewrite Z.div_mul by lia. reflexivity.
Qed.

(** [(int) floor(x)] is the integer part of [x] when it fits an [int]. *)
Lemma d2i_dfloor (s : bool) (m : positive) (e : Z) :
  Zpos (digits2_pos m) <= 53 ->
  d2i (dfloor (S754_finite s m e))
  = if (Int32.min_signed <=? ifloor s m e) && (ifloor s m e <=? Int32.max_signed)
    then Some (ifloor s m e) else None.
Proof.
  intros D. unfold dfloor, ifloor. destruct (Z.leb_spec 0 e) as [E|E].
  - unfold d2i. destruct (Z.leb_spec 0 e); [reflexivity|lia].
  - apply d2i_round64_int.
    apply Zdigits2_abs_le; [lia|].
    pose proof (ifloor_abs s m e E) as A. unfold ifloor in A.
    destruct (Z.leb_spec 0 e); [lia|].
    assert (Zpos m < 2 ^ 53) by (apply digits_le_iff; exact D). lia.
Qed.

(** A coordinate that passes the cast is small, and so is its floor. *)
Lemma floor_cast_fin (x : double) (c : Z) :
  wf x -> d2i (dfloor x) = Some c -> fin 33 x /\ fin 33 (dfloor x).
Proof.
  destruct x as [s| | |s m e]; cbn [wf]; try discriminate.
  - intros _ _. split; exact I.
  - intros [D E] C. rewrite d2i_dfloor in C by exact D.
    destruct (_ && _) eqn:R; [|discriminate]. apply int_range_dec in R.
    clear C. unfold dfloor. unfold ifloor in R.
    destruct (Z.leb_spec 0 e) as [P|N].
    + assert (fin 33 (S754_finite s m e)); [|tauto].
      cbn [fin]. split; [exact D|]. split; [exact E|].
      assert (Zpos (digits2_pos m) <= 32 - e); [|lia].
      assert (0 < 2 ^ e) by (apply Z.pow_pos_nonneg; lia).
      assert (Zpos m * 2 ^ e < 2 ^ 32) as B by (destruct s; cbn [cond_Zopp] in R; lia).
      assert (e <= 32).
      { destruct (Z.le_gt_cases e 32); [assumption|].
        assert (2 ^ 32 < 2 ^ e) by (apply Z.pow_lt_mono_r; lia). nia. }
      apply digits_le_iff.
      replace 32 with ((32 - e) + e) in B by lia.
      rewrite Z.pow_add_r in B by lia. nia.
    + assert (1 <= 2 ^ (- e)) as P1 by (apply (Z.pow_le_mono_r 2 0); lia).
      assert (Zpos m < 2 ^ 32 * 2 ^ (- e)) as B.
      { change (2 ^ 31) with 2147483648 in R. change (2 ^ 32) with 4294967296.
        destruct s; cbn [cond_Zopp] in R; Z.div_mod_to_equations; nia. }
      split.
      * cbn [fin]. split; [exact D|]. split; [exact E|].
        assert (Zpos (digits2_pos m) <= 32 + - e); [|lia].
        apply digits_le_iff. rewrite Z.pow_add_r by lia. exact B.
      * apply (round64_fin _ _ _ 32); [|lia].
        assert (Zdigits2 (cond_Zopp s (Zpos m) / 2 ^ (- e)) <= 32); [|lia].
        apply Zdigits2_abs_le; [lia|].
        change (2 ^ 31) with 2147483648 in R. change (2 ^ 32) with 4294967296.
        lia.
Qed.

Lemma below_cast (d : double) (n : Z) :
  wf d -> below d n -> n <= 2 ^ 31 ->
  exists c, d2i (dfloor d) = Some c /\ 0 <= c < n.
Proof.
  destruct d as [s| | |[|] m e]; cbn [wf below]; try contradiction.
  - intros _ N _. exists 0. split; [reflexivity|lia].
  - intros [D E] B N. rewrite d2i_dfloor by exact D.
    unfold ifloor. cbn [cond_Zopp].
    assert (0 <= (if 0 <=? e then Zpos m * 2 ^ e else Zpos m / 2 ^ (- e)) < n) as R.
    { destruct (Z.leb_spec 0 e) as [P|P].
      - rewrite Z.max_l, Z.max_r in B by lia. change (2 ^ 0) with 1 in B.
        assert (0 < 2 ^ e) by (apply Z.pow_pos_nonneg; lia). nia.
      - rewrite Z.max_r, Z.max_l in B by lia. change (2 ^ 0) with 1 in B.
        assert (0 < 2 ^ (- e)) by (apply Z.pow_pos_nonneg; lia).
        split; [apply Z.div_pos; lia|]. apply Z.div_lt_upper_bound; lia. }
    destruct (Z.leb_spec 0 e);
      (destruct (_ && _) eqn:C;
       [eexists; split; [reflexivity|exact R]
       |exfalso; apply not_true_iff_false in C; apply C, int_range_dec;
        change (2 ^ 31) with 2147483648 in *; lia]).
Qed.

(** ** [fmod] and the feedback *)

Lemma i2d_exact (n : Z) :
  0 < n < 2 ^ 53 ->
  exists my ey, i2d n = S754_finite false my ey
    /\ Zpos (digits2_pos my) <= 53 /\ -1074 <= ey <= 0
    /\ Zpos my = n * 2 ^ (- ey).
Proof.
  intros B. destruct n as [|p|p]; try lia.
  assert (Zpos (digits2_pos p) <= 53) as D by (apply digits_le_iff; lia).
  destruct (round64_exact false p 0 false) as [L E]; try lia.
  cbn [cond_Zopp] in E. unfold i2d. rewrite E. clear E.
  set (e' := fexp64 (Zpos (digits2_pos p) + 0)) in *.
  assert (0 < 2 ^ (0 - e')) by (apply Z.pow_pos_nonneg; lia).
  eexists _, _. split; [reflexivity|].
  assert (Zpos (Z.to_pos (Zpos p * 2 ^ (0 - e'))) = Zpos p * 2 ^ (- e')) as V.
  { rewrite Z2Pos.id by lia. f_equal. }
  split; [|split; [unfold e', fexp64 in *; lia|exact V]].
  assert (Zdigits2 (Zpos p * 2 ^ (0 - e')) = Zpos (digits2_pos p) + (0 - e')) as DS
    by (apply digits_shift; lia).
  replace (0 - e') with (- e') in DS by lia. rewrite <- V in DS.
  cbn [Zdigits2] in DS. rewrite DS. unfold e', fexp64. lia.
Qed.

(** The remainder of a non-negative double by a positive integer [n] is a
    double of the format, in [0, n). *)
Lemma dfmod_below (s : double) (my : positive) (ey n : Z) :
  wf s -> isnan s = false -> (forall b, s <> S754_infinity b) ->
  Zpos (digits2_pos my) <= 53 -> -1074 <= ey <= 0 ->
  Zpos my = n * 2 ^ (- ey) ->
  below (dfmod (dabs s) (S754_finite false my ey)) n
  /\ valid_double (dfmod (dabs s) (S754_finite false my ey)).
Proof.
  intros W N I Dy Ey V.
  assert (0 < n) as Npos.
  { assert (0 < 2 ^ (- ey)) by (apply Z.pow_pos_nonneg; lia). nia. }
  destruct s as [b|b| |b m e]; cbn [wf isnan dabs SFabs dfmod] in *;
    try discriminate.
  - split; [exact Npos|reflexivity].
  - exfalso. apply (I b). reflexivity.
  - destruct W as [D E].
    set (e0 := Z.min e ey).
    set (A := Zpos m * 2 ^ (e - e0)). set (B := Zpos my * 2 ^ (ey - e0)).
    assert (0 < 2 ^ (e - e0)) by (apply Z.pow_pos_nonneg; unfold e0; lia).
    assert (0 < 2 ^ (ey - e0)) as P2 by (apply Z.pow_pos_nonneg; unfold e0; lia).
    assert (0 < B) as Bpos by (unfold B; nia).
    pose proof (Z.mod_pos_bound A B Bpos) as R.
    assert (A mod B <= A) as RA by (apply Z.mod_le; unfold A; nia).
    destruct (A mod B) as [|p|p] eqn:Ep; try lia.
    + split; [exact Npos|reflexivity].
    + assert (Zpos (digits2_pos p) <= 53) as Dp.
      { apply digits_le_iff.
        assert (Zpos m < 2 ^ 53) by (apply digits_le_iff; exact D).
        assert (Zpos my < 2 ^ 53) by (apply digits_le_iff; exact Dy).
        destruct (Z.le_ge_cases e ey).
        - assert (e - e0 = 0) as Z0 by (unfold e0; lia).
          unfold A in RA. rewrite Z0 in RA. change (2 ^ 0) with 1 in RA. lia.
        - assert (ey - e0 = 0) as Z0 by (unfold e0; lia).
          unfold B in R. rewrite Z0 in R. change (2 ^ 0) with 1 in R. lia. }
      destruct (round64_exact false p e0 false) as [L X];
        [exact Dp|unfold e0; lia|unfold e0; lia|].
      cbn [cond_Zopp]. cbn [cond_Zopp] in X. rewrite X. clear X.
      set (e' := fexp64 (Zpos (digits2_pos p) + e0)) in *.
      assert (0 < 2 ^ (e0 - e')) by (apply Z.pow_pos_nonneg; lia).
      assert (Zpos (Z.to_pos (Zpos p * 2 ^ (e0 - e'))) = Zpos p * 2 ^ (e0 - e')) as VP
        by (rewrite Z2Pos.id by lia; reflexivity).
      split.
      * cbn [below]. rewrite VP.
        assert (e' <= 0) by (unfold e0 in L; lia).
        rewrite Z.max_r, Z.max_l by lia. change (2 ^ 0) with 1. rewrite Z.mul_1_r.
        assert (Zpos p < n * 2 ^ (- e0)) as PB.
        { unfold B in R. rewrite V in R.
          replace (- e0) with (- ey + (ey - e0)) by lia.
          rewrite Z.pow_add_r by (unfold e0; lia). lia. }
        replace (- e') with (- e0 + (e0 - e')) by lia.
        rewrite Z.pow_add_r by (unfold e0 in *; lia). nia.
      * unfold valid_double, valid_binary, bounded, canonical_mantissa.
        rewrite fexp64_eq.
        assert (Zdigits2 (Zpos p * 2 ^ (e0 - e'))
                = Zpos (digits2_pos p) + (e0 - e')) as DS
          by (apply digits_shift; lia).
        rewrite <- VP in DS. cbn [Zdigits2] in DS. rewrite DS.
        replace (Zpos (digits2_pos p) + (e0 - e') + e')
          with (Zpos (digits2_pos p) + e0) by lia.
        fold e'. rewrite Z.eqb_refl. cbn [andb].
        apply Z.leb_le. change (emax64 - prec64) with 971.
        unfold e', fexp64, e0. lia.
Qed.

(** The feedback applied to finite operands gives a coordinate in
    [0, size - 1). *)
Lemma feedback_below (K : Z) (c r : double) (size : Z) :
  -1074 <= K <= 1021 -> fin K c -> fin K r -> 1 < size <= 2 ^ 53 ->
  below (feedback c r size) (size - 1) /\ valid_double (feedback c r size).
Proof.
  intros HK C R S. unfold feedback.
  destruct (i2d_exact (size - 1)) as (my & ey & -> & Dy & Ey & V); [lia|].
  pose proof (dadd_fin K c r HK C R) as F.
  apply dfmod_below; try assumption.
  - exact (fin_wf _ _ F).
  - exact (fin_not_nan _ _ F).
  - intros b E. rewrite E in F. exact F.
Qed.

(** ** The bilinear interpolation *)

Lemma bilinear_fin (v00 v01 v10 v11 : Z) (xf yf : double) :
  valid_sample v00 = true -> valid_sample v01 = true ->
  valid_sample v10 = true -> valid_sample v11 = true ->
  fin 35 xf -> fin 35 yf ->
  fin 207 (bilinear v00 v01 v10 v11 xf yf).
Proof.
  intros V00 V01 V10 V11 X Y. apply f2d_fin in V00, V01, V10, V11.
  unfold bilinear.
  assert (forall a b c, fin 129 a -> fin 129 b -> fin 129 c ->
            fin 168 (dfma (dsub a b) xf c)) as H.
  { intros a b c A B C.
    apply (dfma_fin 131 35 129); try lia; try assumption.
    apply (dsub_fin 129); (lia || assumption). }
  apply (dfma_fin 170 35 168); try lia; try assumption.
  - apply (dsub_fin 168); [lia| |]; apply H; assumption.
  - apply H; assumption.
Qed.

Lemma bilinear_nan (v00 v01 v10 v11 : Z) (xf yf : double) :
  f2d v00 = S754_nan \/ f2d v01 = S754_nan
  \/ f2d v10 = S754_nan \/ f2d v11 = S754_nan ->
  bilinear v00 v01 v10 v11 xf yf = S754_nan.
Proof.
  unfold bilinear. intros [E|[E|[E|E]]]; rewrite E;
    repeat first [rewrite dsub_nan_l | rewrite dsub_nan_r
                 | rewrite dfma_nan_l | rewrite dfma_nan_z];
    reflexivity.
Qed.

(** ** The two encodings of a cell *)

Lemma same_cell_rank (wn ws : Z) :
  same_cell wn ws ->
  exists r, rank_nan wn r /\ rank_nodata ws r /\ (r = -1 -> ws = wn).
Proof.
  intros [[V ->]|(k & B & -> & D)].
  - exists (-1). split; [left; auto|]. split; [left; auto|reflexivity].
  - exists k. split; [right; auto|]. split; [right; auto|lia].
Qed.

Lemma i2f_sentinel (k : Z) :
  0 <= k <= 3 ->
  i2f (MISSING_VALUE_THRESHOLD + k)
  = S754_finite false (Z.to_pos (10240000 + 1024 * k)) (-10).
Proof.
  intros B. assert (k = 0 \/ k = 1 \/ k = 2 \/ k = 3) as [-> | [-> | [-> | ->]]] by lia;
    reflexivity.
Qed.

(** Every valid sample is below every sentinel. *)
Lemma valid_lt_sentinel (w k : Z) :
  valid_sample w = true -> 0 <= k <= 3 ->
  SFcompare (decode32 w) (i2f (MISSING_VALUE_THRESHOLD + k)) = Some Lt
  /\ SFcompare (i2f (MISSING_VALUE_THRESHOLD + k)) (decode32 w) = Some Gt.
Proof.
  intros V B. rewrite i2f_sentinel by exact B.
  apply valid_sample_decode in V.
  destruct (decode32 w) as [s| | |s m e] eqn:D; try contradiction.
  - split; reflexivity.
  - apply decode32_finite in D as (M & E & C).
    destruct s; [split; reflexivity|].
    cbn [SFcompare].
    assert (e < -10) as L.
    { destruct (Z.lt_ge_cases e (-10)) as [|G]; [assumption|]. exfalso.
      assert (2 ^ 139 <= 2 ^ (e + 149)) by (apply Z.pow_le_mono_r; lia).
      assert (0 < 2 ^ 139) by (apply Z.pow_pos_nonneg; lia).
      assert (e <> -149) by lia.
      assert (2 ^ 23 <= Zpos m) as M' by tauto.
      assert (2 ^ 23 * 2 ^ 139 <= Zpos m * 2 ^ (e + 149))
        by (apply Z.mul_le_mono_nonneg; lia).
      assert (100 * 2 ^ 149 < 2 ^ 23 * 2 ^ 139) by (vm_compute; reflexivity).
      lia. }
    rewrite (proj2 (Z.compare_lt_iff e (-10)) L).
    rewrite (proj2 (Z.compare_gt_iff (-10) e)) by lia.
    split; reflexivity.
Qed.

Lemma sentinel_order (a b : Z) :
  0 <= a <= 3 -> 0 <= b <= 3 ->
  SFltb (i2f (MISSING_VALUE_THRESHOLD + a)) (i2f (MISSING_VALUE_THRESHOLD + b))
  = (a <? b).
Proof.
  intros A B.
  assert (a = 0 \/ a = 1 \/ a = 2 \/ a = 3) as [-> | [-> | [-> | ->]]] by lia;
  assert (b = 0 \/ b = 1 \/ b = 2 \/ b = 3) as [-> | [-> | [-> | ->]]] by lia;
  reflexivity.
Qed.

(** [std::max] on two cells of the sentinel raster keeps the larger rank. *)
Lemma fmax_rank (a b ra rb : Z) :
  rank_nodata a ra -> rank_nodata b rb ->
  rank_nodata (TestNodata.fmax a b) (Z.max ra rb).
Proof.
  unfold TestNodata.fmax, SFltb.
  intros [[-> Va]|[Ba Da]] [[-> Vb]|[Bb Db]].
  - rewrite Z.max_id. destruct (SFcompare _ _) as [[| |]|]; left; auto.
  - rewrite Db, (proj1 (valid_lt_sentinel a rb Va Bb)).
    rewrite Z.max_r by lia. right. auto.
  - rewrite Da, (proj2 (valid_lt_sentinel b ra Vb Ba)).
    rewrite Z.max_l by lia. right. auto.
  - pose proof (sentinel_order ra rb Ba Bb) as O. unfold SFltb in O.
    rewrite Da, Db.
    destruct (Z.ltb_spec ra rb);
      destruct (SFcompare _ _) as [[| |]|]; try discriminate;
      first [rewrite Z.max_r by lia | rewrite Z.max_l by lia]; right; auto.
Qed.

Lemma nodata_combine_rank (v00 v01 v10 v11 r00 r01 r10 r11 : Z) :
  rank_nodata v00 r00 -> rank_nodata v01 r01 ->
  rank_nodata v10 r10 -> rank_nodata v11 r11 ->
  rank_nodata (TestNodata.combine v00 v01 v10 v11)
              (Z.max (Z.max r00 r01) (Z.max r10 r11)).
Proof.
  intros. unfold TestNodata.combine. auto using fmax_rank.
Qed.

(** The test that follows: a cell is missing exactly when its rank is a
    reason. *)
Lemma isMissing_rank (w r : Z) :
  rank_nodata w r -> TestNodata.isMissing w = (0 <=? r).
Proof.
  unfold TestNodata.isMissing, SFleb. intros [[-> V]|[B D]].
  - replace MISSING_VALUE_THRESHOLD with (MISSING_VALUE_THRESHOLD + 0) by reflexivity.
    rewrite (proj2 (valid_lt_sentinel w 0 V ltac:(lia))). reflexivity.
  - rewrite D. destruct (Z.leb_spec 0 r); [|lia].
    assert (r = 0 \/ r = 1 \/ r = 2 \/ r = 3) as [-> | [-> | [-> | ->]]] by lia;
      reflexivity.
Qed.

Lemma f2d_sentinel (w r : Z) :
  0 <= r <= 3 -> decode32 w = i2f (MISSING_VALUE_THRESHOLD + r) ->
  f2d w = i2d (MISSING_VALUE_THRESHOLD + r).
Proof.
  intros B D. unfold f2d. rewrite D.
  assert (r = 0 \/ r = 1 \/ r = 2 \/ r = 3) as [-> | [-> | [-> | ->]]] by lia;
    reflexivity.
Qed.

Lemma rank_nan_bits (w r : Z) :
  rank_nan w r ->
  (r = -1 /\ Int32.of_bits w < TestNaN.FIRST_QUIET_NAN)
  \/ (0 <= r <= 3 /\ Int32.of_bits w = TestNaN.FIRST_QUIET_NAN + r).
Proof.
  intros [[-> V]|[B ->]].
  - left. split; [reflexivity|]. apply valid_sample_of_bits, V.
  - right. split; [exact B|].
    unfold Int32.of_bits, Int32.half, TestNaN.FIRST_QUIET_NAN.
    change (2 ^ 31) with 2147483648.
    destruct (Z.ltb_spec (0x7FC00000 + r) 2147483648); lia.
Qed.

(** The integer maximum of the four NaN-raster cells carries the largest
    rank, as soon as one of them is missing. *)
Lemma nan_combine_rank (p00 p01 p10 p11 r00 r01 r10 r11 : Z) :
  rank_nan p00 r00 -> rank_nan p01 r01 ->
  rank_nan p10 r10 -> rank_nan p11 r11 ->
  0 <= Z.max (Z.max r00 r01) (Z.max r10 r11) ->
  TestNaN.combine p00 p01 p10 p11
  = TestNaN.FIRST_QUIET_NAN + Z.max (Z.max r00 r01) (Z.max r10 r11).
Proof.
  intros R00 R01 R10 R11 P.
  apply rank_nan_bits in R00, R01, R10, R11.
  unfold TestNaN.combine. rewrite !Int32_max_is_max. lia.
Qed.

Lemma toNodata_reason (r : Z) :
  0 <= r <= 3 ->
  TestNaN.toNodata (TestNaN.FIRST_QUIET_NAN + r)
  = Some (MISSING_VALUE_THRESHOLD + r).
Proof.
  intros B. assert (r = 0 \/ r = 1 \/ r = 2 \/ r = 3) as [-> | [-> | [-> | ->]]] by lia;
    reflexivity.
Qed.

(** The NaN test of [TestNaN]: the interpolation is a NaN exactly when one
    of the corners is missing. *)
Lemma nan_isnan_rank (v00 v01 v10 v11 r00 r01 r10 r11 : Z) (xf yf : double) :
  rank_nan v00 r00 -> rank_nan v01 r01 ->
  rank_nan v10 r10 -> rank_nan v11 r11 ->
  fin 35 xf -> fin 35 yf ->
  isnan (bilinear v00 v01 v10 v11 xf yf)
  = (0 <=? Z.max (Z.max r00 r01) (Z.max r10 r11)).
Proof.
  intros R00 R01 R10 R11 X Y.
  destruct (Z.leb_spec 0 (Z.max (Z.max r00 r01) (Z.max r10 r11))) as [P|P].
  - rewrite bilinear_nan; [reflexivity|].
    destruct R00 as [[-> ?]|[? ->]]; [|left; apply f2d_reason; assumption].
    destruct R01 as [[-> ?]|[? ->]]; [|right; left; apply f2d_reason; assumption].
    destruct R10 as [[-> ?]|[? ->]]; [|right; right; left; apply f2d_reason; assumption].
    destruct R11 as [[-> ?]|[? ->]]; [|right; right; right; apply f2d_reason; assumption].
    lia.
  - destruct R00 as [[-> ?]|[? ->]]; [|lia].
    destruct R01 as [[-> ?]|[? ->]]; [|lia].
    destruct R10 as [[-> ?]|[? ->]]; [|lia].
    destruct R11 as [[-> ?]|[? ->]]; [|lia].
    apply (fin_not_nan 207), bilinear_fin; assumption.
Qed.

(** ** One sample *)

Lemma read_upd_same {A} (a : list A) (i : Z) (x v : A) :
  read a i = Some x -> read (upd_nat a (Z.to_nat i) v) i = Some v.
Proof.
  unfold read. destruct (i <? 0); [discriminate|].
  generalize (Z.to_nat i) as n. clear i.
  induction a as [|h t IH]; intros [|n]; cbn; try discriminate; auto.
Qed.

Lemma read_upd_other {A} (a : list A) (i j : Z) (v : A) :
  0 <= i -> 0 <= j -> i <> j ->
  read (upd_nat a (Z.to_nat i) v) j = read a j.
Proof.
  intros I J N. unfold read. destruct (j <? 0); [reflexivity|].
  assert (Z.to_nat i <> Z.to_nat j) as N' by lia.
  revert N'. generalize (Z.to_nat i) as n, (Z.to_nat j) as k. clear.
  induction a as [|h t IH]; intros [|n] [|k] N; cbn; auto; congruence.
Qed.

Lemma Forall_upd_nat {A} (P : A -> Prop) (a : list A) (n : nat) (v : A) :
  Forall P a -> P v -> Forall P (upd_nat a n v).
Proof.
  intros F V. revert n. induction F as [|h t Ph F IH]; intros [|n]; cbn; auto.
Qed.

Lemma read_Forall {A} (P : A -> Prop) (a : list A) (i : Z) (x : A) :
  Forall P a -> read a i = Some x -> P x.
Proof.
  intros F R. unfold read in R. destruct (i <? 0); [discriminate|].
  apply nth_error_In in R. rewrite Forall_forall in F. auto.
Qed.

Lemma point_indices (i : Z) :
  0 <= i -> Z.shiftl i 1 = 2 * i /\ Z.lor (Z.shiftl i 1) 1 = 2 * i + 1.
Proof.
  intros I. rewrite Z.shiftl_mul_pow2 by lia. change (2 ^ 1) with 2.
  split; [lia|]. destruct i as [|p|p]; [reflexivity| |lia].
  rewrite Z.mul_comm. reflexivity.
Qed.

Lemma shiftl_nonneg (i : Z) : 0 <= Z.shiftl i 1 -> 0 <= i.
Proof. rewrite Z.shiftl_nonneg. auto. Qed.

(** The offsets of the four corners: once the check has passed, none of
    the sums overflows. *)
Lemma corner_offsets (offset : Z) :
  out_of_bounds offset = false ->
  0 <= offset < 479999
  /\ Int32.add offset 1 = Some (offset + 1)
  /\ Int32.add offset WIDTH = Some (offset + WIDTH)
  /\ Int32.add (offset + WIDTH) 1 = Some (offset + WIDTH + 1)
  /\ Int32.sub (offset + WIDTH) WIDTH = Some offset.
Proof.
  intros OB. apply out_of_bounds_spec in OB. unfold HEIGHT, WIDTH in *.
  unfold Int32.add, Int32.sub.
  rewrite (checked_fits (offset + 1)) by lia.
  rewrite (checked_fits (offset + 800)) by lia.
  rewrite (checked_fits (offset + 800 + 1)) by lia.
  replace (offset + 800 - 800) with offset by lia.
  rewrite (checked_fits offset) by lia. split; [lia|]. repeat split.
Qed.

(** The tail of the loop body: both coordinates are overwritten. *)
Lemma move_ok (ix iy : Z) (x y x0 y0 result st : double) (t : TestCase)
    (coords : list double) (cur : Z) :
  read coords ix = Some x0 -> read coords iy = Some y0 -> ix <> iy ->
  move ix iy x y result st t coords cur
  = Ok {| coordinates :=
            upd_nat (upd_nat coords (Z.to_nat ix) (feedback x result WIDTH))
                    (Z.to_nat iy) (feedback y result HEIGHT);
          expectedResultCursor := cur + 1; stats := st; self := t |}.
Proof.
  intros Rx Ry N. unfold move, write. rewrite Rx. cbn [defined bind].
  pose proof (read_some_bounds _ _ _ Rx). pose proof (read_some_bounds _ _ _ Ry).
  rewrite read_upd_other by lia. rewrite Ry. reflexivity.
Qed.

(** A mismatch is counted exactly when the counter is in the array and
    its successor is a value of type [int]; the counter is then one more. *)
Lemma count_mismatch_ok (it : Z) (t t' : TestCase) :
  count_mismatch it t = Ok t' <->
  exists n, read (nodataMismatches t) it = Some n /\ countable n
    /\ t' = set_nodataMismatches t
              (upd_nat (nodataMismatches t) (Z.to_nat it) (n + 1)).
Proof.
  unfold count_mismatch, countable, Int32.add.
  unfold Int32.min_signed, Int32.max_signed, Int32.half.
  change (2 ^ 31) with 2147483648.
  destruct (read (nodataMismatches t) it) as [n|]; cbn [defined bind].
  - destruct (Int32.checked (n + 1)) as [n'|] eqn:C; cbn [defined bind].
    + apply checked_some in C as [-> C]. split.
      * intros [= <-]. exists n. repeat split; lia.
      * intros (m & [= <-] & _ & ->). reflexivity.
    + apply checked_none in C. split; [discriminate|].
      intros (m & [= <-] & B & _). lia.
  - split; [discriminate|]. intros (m & E & _). discriminate E.
Qed.


Lemma count_mismatch_arrays (it : Z) (t0 t : TestCase) :
  count_mismatch it t0 = Ok t ->
  errorStatistics t = errorStatistics t0
  /\ List.length (nodataMismatches t) = List.length (nodataMismatches t0).
Proof.
  intros H. apply count_mismatch_ok in H as (n & _ & _ & ->).
  cbn [errorStatistics nodataMismatches set_nodataMismatches].
  split; [reflexivity|apply length_upd_nat].
Qed.

Lemma maybe_count_mismatch_arrays (b : bool) (it : Z) (t0 t : TestCase) :
  (if b then count_mismatch it t0 else Ok t0) = Ok t ->
  errorStatistics t = errorStatistics t0
  /\ List.length (nodataMismatches t) = List.length (nodataMismatches t0).
Proof.
  destruct b; [apply count_mismatch_arrays|]. intros [= <-]. auto.
Qed.

Ltac bind_step H :=
  match type of H with
  | bind (defined ?o) _ = Ok _ =>
      let E := fresh "E" in
      destruct o eqn:E; cbn [defined bind] in H; [|discriminate H]
  end.

(** An operation on [int] whose result is known. *)
Ltac int_step H :=
  match type of H with
  | bind (defined ?o) _ = _ =>
      match goal with
      | O : o = Some _ |- _ => rewrite O in H; cbn [defined bind] in H
      end
  end.

Ltac int_goal :=
  match goal with
  | O : ?o = Some _ |- context [defined ?o] => rewrite O; cbn [defined bind]
  end.

(** The second reads of the four corners, in the branch of [TestNaN] for
    a missing sample. *)
Ltac nan_corners H :=
  repeat first
    [ int_step H
    | match type of H with
      | bind (defined (read ?a ?j)) _ = _ =>
          match goal with
          | R : read a j = Some _ |- _ => rewrite R in H; cbn [defined bind] in H
          end
      end ].

(** The linear offset of a sample that went on. *)
Ltac offset_step H :=
  match type of H with
  | bind (defined (linear_offset ?cy ?cx)) _ = Ok _ =>
      let LO := fresh "LO" in
      let o := fresh "o" in
      destruct (linear_offset cy cx) as [o|] eqn:LO;
      cbn [defined bind] in H; [|discriminate H];
      pose proof (linear_offset_some _ _ _ LO); subst o
  end.

Lemma nan_sample_inv (raster : list Z) (expectedResults : list double)
    (it i : Z) (s s' : Locals) :
  TestNaN.sample raster expectedResults it i s = Ok s' ->
  sampled raster i s s' (fun _ _ _ _ interpolated => isnan interpolated).
Proof.
  unfold TestNaN.sample. intros H.
  bind_step H. bind_step H. bind_step H. bind_step H. offset_step H.
  destruct (out_of_bounds _) eqn:OB; [discriminate H|].
  pose proof (corner_offsets _ OB) as (B & O1 & O2 & O3 & O4).
  bind_step H. int_step H. bind_step H. int_step H.
  bind_step H. int_step H. bind_step H.
  assert (0 <= i) as I.
  { apply shiftl_nonneg. apply read_some_bounds in E. lia. }
  destruct (point_indices i I) as [Ix Iy]. rewrite Ix, Iy in *.
  assert (2 * i <> 2 * i + 1) as N by lia.
  match type of H with
  | (if isnan ?b then _ else _) = _ => set (interp := b) in *
  end.
  assert (exists st t,
            (errorStatistics t = errorStatistics (self s)
             /\ List.length (nodataMismatches t)
                = List.length (nodataMismatches (self s)))
            /\ (st = stats s \/ exists v, st = dmax (stats s) (dabs v))
            /\ move (2 * i) (2 * i + 1) d d0
                 (if isnan interp then i2d 1 else interp) st t
                 (coordinates s) (expectedResultCursor s) = Ok s')
    as (st & t & ST & SS & M).
  { destruct (isnan interp).
    - nan_corners H. bind_step H. bind_step H.
      destruct (if negb _ then _ else _) as [t| | |] eqn:T; cbn [bind] in H;
        try discriminate H.
      apply maybe_count_mismatch_arrays in T. eauto 10.
    - bind_step H. destruct (dle _ _).
      + destruct (count_mismatch it (self s)) as [t| | |] eqn:T; cbn [bind] in H;
          try discriminate H.
        apply count_mismatch_arrays in T. eauto 10.
      + eauto 10. }
  rewrite (move_ok _ _ _ _ _ _ _ _ _ _ _ E E0 N) in M.
  injection M as <-.
  econstructor; eauto.
Qed.

Lemma nodata_sample_inv (raster : list Z) (expectedResults : list double)
    (it i : Z) (s s' : Locals) :
  TestNodata.sample raster expectedResults it i s = Ok s' ->
  sampled raster i s s'
    (fun v00 v01 v10 v11 _ =>
       TestNodata.isMissing (TestNodata.combine v00 v01 v10 v11)).
Proof.
  unfold TestNodata.sample. intros H.
  bind_step H. bind_step H. bind_step H. bind_step H. offset_step H.
  destruct (out_of_bounds _) eqn:OB; [discriminate H|].
  pose proof (corner_offsets _ OB) as (B & O1 & O2 & O3 & O4).
  bind_step H. int_step H. bind_step H. int_step H.
  bind_step H. int_step H. bind_step H.
  assert (0 <= i) as I.
  { apply shiftl_nonneg. apply read_some_bounds in E. lia. }
  destruct (point_indices i I) as [Ix Iy]. rewrite Ix, Iy in *.
  assert (2 * i <> 2 * i + 1) as N by lia.
  match type of H with
  | (if ?c then _ else _) = _ => set (miss := c) in *
  end.
  match type of H with
  | context [bilinear ?a ?b ?c ?d ?xf ?yf] => set (interp := bilinear a b c d xf yf) in *
  end.
  assert (exists st t,
            (errorStatistics t = errorStatistics (self s)
             /\ List.length (nodataMismatches t)
                = List.length (nodataMismatches (self s)))
            /\ (st = stats s \/ exists v, st = dmax (stats s) (dabs v))
            /\ move (2 * i) (2 * i + 1) d d0
                 (if miss then i2d 1 else interp) st t
                 (coordinates s) (expectedResultCursor s) = Ok s')
    as (st & t & ST & SS & M).
  { destruct miss.
    - bind_step H.
      destruct (if negb _ then _ else _) as [t| | |] eqn:T; cbn [bind] in H;
        try discriminate H.
      apply maybe_count_mismatch_arrays in T. eauto 10.
    - bind_step H. destruct (dle _ _).
      + destruct (count_mismatch it (self s)) as [t| | |] eqn:T; cbn [bind] in H;
          try discriminate H.
        apply count_mismatch_arrays in T. eauto 10.
      + eauto 10. }
  rewrite (move_ok _ _ _ _ _ _ _ _ _ _ _ E E0 N) in M.
  injection M as <-.
  econstructor; eauto.
Qed.

Lemma nan_cell_rank (w : Z) : nan_cell w = true -> exists r, rank_nan w r.
Proof.
  intros C. apply nan_cell_cases in C as [(_ & V & _)|(k & B & _ & E & _)].
  - exists (-1). left. auto.
  - exists k. right. auto.
Qed.

Lemma nodata_cell_rank (w : Z) : nodata_cell w -> exists r, rank_nodata w r.
Proof.
  intros [V|(k & B & D)].
  - exists (-1). left. auto.
  - exists k. right. auto.
Qed.

Lemma i2d_1_fin : fin 207 (i2d 1).
Proof. apply (fin_mono 2); [lia|]. apply (round64_fin 1 0 false 1); cbn; lia. Qed.

(** What is fed back is always a finite double: the interpolation of four
    valid samples, or the scalar 1. *)
Lemma nan_result_fin (v00 v01 v10 v11 : Z) (xf yf : double) :
  (exists r, rank_nan v00 r) -> (exists r, rank_nan v01 r) ->
  (exists r, rank_nan v10 r) -> (exists r, rank_nan v11 r) ->
  fin 35 xf -> fin 35 yf ->
  fin 207 (if isnan (bilinear v00 v01 v10 v11 xf yf) then i2d 1
           else bilinear v00 v01 v10 v11 xf yf).
Proof.
  intros [r00 R00] [r01 R01] [r10 R10] [r11 R11] X Y.
  rewrite (nan_isnan_rank _ _ _ _ _ _ _ _ _ _ R00 R01 R10 R11 X Y).
  destruct (Z.leb_spec 0 (Z.max (Z.max r00 r01) (Z.max r10 r11))) as [P|P];
    [apply i2d_1_fin|].
  destruct R00 as [[-> ?]|[? ->]]; [|lia].
  destruct R01 as [[-> ?]|[? ->]]; [|lia].
  destruct R10 as [[-> ?]|[? ->]]; [|lia].
  destruct R11 as [[-> ?]|[? ->]]; [|lia].
  apply bilinear_fin; assumption.
Qed.

Lemma nodata_result_fin (v00 v01 v10 v11 : Z) (xf yf : double) :
  (exists r, rank_nodata v00 r) -> (exists r, rank_nodata v01 r) ->
  (exists r, rank_nodata v10 r) -> (exists r, rank_nodata v11 r) ->
  fin 35 xf -> fin 35 yf ->
  fin 207 (if TestNodata.isMissing (TestNodata.combine v00 v01 v10 v11)
           then i2d 1 else bilinear v00 v01 v10 v11 xf yf).
Proof.
  intros [r00 R00] [r01 R01] [r10 R10] [r11 R11] X Y.
  rewrite (isMissing_rank _ _ (nodata_combine_rank _ _ _ _ _ _ _ _ R00 R01 R10 R11)).
  destruct (Z.leb_spec 0 (Z.max (Z.max r00 r01) (Z.max r10 r11))) as [P|P];
    [apply i2d_1_fin|].
  destruct R00 as [[-> ?]|[? _]]; [|lia].
  destruct R01 as [[-> ?]|[? _]]; [|lia].
  destruct R10 as [[-> ?]|[? _]]; [|lia].
  destruct R11 as [[-> ?]|[? _]]; [|lia].
  apply bilinear_fin; assumption.
Qed.

(** The fractional part of a coordinate that passed the cast. *)
Lemma fraction_fin (x : double) (c : Z) :
  wf x -> d2i (dfloor x) = Some c -> fin 207 x /\ fin 35 (dsub x (dfloor x)).
Proof.
  intros W C. destruct (floor_cast_fin x c W C) as [F1 F2].
  split; [apply (fin_mono 33); [lia|exact F1]|].
  apply (dsub_fin 33); (lia || assumption).
Qed.

Lemma Forall_corners_conform (cell : Z -> Prop) (raster : list Z) (x y : double) :
  Forall cell raster -> corners_conform cell raster x y.
Proof. intros F cx cy d v _ _ _ R. exact (read_Forall _ _ _ _ F R). Qed.

(** The coordinates of a point after a sample that returned: both in
    range, both doubles of the format, the other points untouched. *)
Lemma sampled_in_range (raster : list Z) (i : Z) (s s' : Locals)
    (missing : Z -> Z -> Z -> Z -> double -> bool) (cell : Z -> Prop) :
  (forall v00 v01 v10 v11 xf yf,
      cell v00 -> cell v01 -> cell v10 -> cell v11 ->
      fin 35 xf -> fin 35 yf ->
      fin 207 (if missing v00 v01 v10 v11 (bilinear v00 v01 v10 v11 xf yf)
               then i2d 1 else bilinear v00 v01 v10 v11 xf yf)) ->
  (forall x y, read (coordinates s) (2 * i) = Some x ->
               read (coordinates s) (2 * i + 1) = Some y ->
               corners_conform cell raster x y) ->
  Forall valid_double (coordinates s) ->
  sampled raster i s s' missing ->
  exists x' y',
    read (coordinates s') (2 * i) = Some x'
    /\ read (coordinates s') (2 * i + 1) = Some y'
    /\ below x' (WIDTH - 1) /\ below y' (HEIGHT - 1)
    /\ Forall valid_double (coordinates s')
    /\ (forall j, 0 <= j -> j <> 2 * i -> j <> 2 * i + 1 ->
          read (coordinates s') j = read (coordinates s) j).
Proof.
  intros M CC V [x y cx cy v00 v01 v10 v11 I Rx Ry Cx Cy OB R00 R01 R10 R11 Wr Cu Se Ss].
  cbv zeta in Wr.
  assert (wf x) as Wx by (apply valid_binary_wf; exact (read_Forall _ _ _ _ V Rx)).
  assert (wf y) as Wy by (apply valid_binary_wf; exact (read_Forall _ _ _ _ V Ry)).
  destruct (fraction_fin x cx Wx Cx) as [Fx Fxf].
  destruct (fraction_fin y cy Wy Cy) as [Fy Fyf].
  specialize (CC x y Rx Ry cx cy).
  assert (cell v00) as C00.
  { apply (CC 0 v00 Cx Cy); [cbn; auto|]. rewrite Z.add_0_r. exact R00. }
  assert (cell v01) as C01 by (apply (CC 1 v01 Cx Cy); [cbn; auto|exact R01]).
  assert (cell v10) as C10 by (apply (CC WIDTH v10 Cx Cy); [cbn; auto|exact R10]).
  assert (cell v11) as C11.
  { apply (CC (WIDTH + 1) v11 Cx Cy); [cbn; auto|].
    rewrite Z.add_assoc. exact R11. }
  pose proof (M v00 v01 v10 v11 _ _ C00 C01 C10 C11 Fxf Fyf) as Fr.
  set (r := if missing v00 v01 v10 v11 _ then i2d 1 else _) in *.
  destruct (feedback_below 207 x r WIDTH) as [Bx Vx];
    [lia|assumption|assumption|unfold WIDTH; lia|].
  destruct (feedback_below 207 y r HEIGHT) as [By Vy];
    [lia|assumption|assumption|unfold HEIGHT; lia|].
  unfold feedback in *.
  eexists _, _. rewrite Wr.
  split; [|split; [|split; [exact Bx|split; [exact By|split]]]].
  - rewrite read_upd_other by lia.
    eapply read_upd_same. exact Rx.
  - eapply read_upd_same. rewrite read_upd_other by lia. exact Ry.
  - apply Forall_upd_nat; [apply Forall_upd_nat|]; assumption.
  - intros j J N1 N2. rewrite !read_upd_other by lia. reflexivity.
Qed.

(** A coordinate pair in range passes the casts and the bound check, and
    its four corners are cells of the raster. *)
Lemma in_range_offset (x y : double) :
  valid_double x -> valid_double y ->
  below x (WIDTH - 1) -> below y (HEIGHT - 1) ->
  exists cx cy,
    d2i (dfloor x) = Some cx /\ d2i (dfloor y) = Some cy
    /\ 0 <= cx < WIDTH - 1 /\ 0 <= cy < HEIGHT - 1
    /\ linear_offset cy cx = Some (WIDTH * cy + cx)
    /\ out_of_bounds (WIDTH * cy + cx) = false
    /\ WIDTH * cy + cx + WIDTH + 1 < WIDTH * HEIGHT.
Proof.
  intros Vx Vy Bx By.
  destruct (below_cast x (WIDTH - 1)) as (cx & Cx & Rx);
    [apply valid_binary_wf; exact Vx|exact Bx|vm_compute; discriminate|].
  destruct (below_cast y (HEIGHT - 1)) as (cy & Cy & Ry);
    [apply valid_binary_wf; exact Vy|exact By|vm_compute; discriminate|].
  exists cx, cy.
  assert (linear_offset cy cx = Some (WIDTH * cy + cx)) as E
    by (apply linear_offset_fits; unfold WIDTH, HEIGHT in *; lia).
  unfold WIDTH, HEIGHT in *. repeat split; try assumption; try lia.
  apply out_of_bounds_spec. unfold WIDTH, HEIGHT. lia.
Qed.

(** ** The two codecs, sample by sample *)

Lemma rank_nan_range (w r : Z) : rank_nan w r -> -1 <= r <= 3.
Proof. intros [[-> _]|[B _]]; lia. Qed.

Lemma sample_equiv (rn rs : list Z) (expectedResults : list double)
    (it i : Z) (s : Locals) :
  Forall2 same_cell rn rs ->
  Forall valid_double (coordinates s) ->
  TestNaN.sample rn expectedResults it i s
  = TestNodata.sample rs expectedResults it i s.
Proof.
  intros F V. unfold TestNaN.sample, TestNodata.sample.
  destruct (read (coordinates s) (Z.shiftl i 1)) as [x|] eqn:Rx;
    cbn [defined bind]; [|reflexivity].
  destruct (read (coordinates s) (Z.lor (Z.shiftl i 1) 1)) as [y|] eqn:Ry;
    cbn [defined bind]; [|reflexivity].
  destruct (d2i (dfloor y)) as [cy|] eqn:Cy; cbn [defined bind]; [|reflexivity].
  destruct (d2i (dfloor x)) as [cx|] eqn:Cx; cbn [defined bind]; [|reflexivity].
  destruct (linear_offset cy cx) as [o|] eqn:LO; cbn [defined bind];
    [|reflexivity].
  destruct (out_of_bounds o) eqn:OB; [reflexivity|].
  pose proof (corner_offsets _ OB) as (B & O1 & O2 & O3 & O4).
  pose proof (read_Forall2 same_cell rn rs o F) as P00.
  pose proof (read_Forall2 same_cell rn rs (o + 1) F) as P01.
  pose proof (read_Forall2 same_cell rn rs (o + WIDTH) F) as P10.
  pose proof (read_Forall2 same_cell rn rs (o + WIDTH + 1) F) as P11.
  destruct (read rn o) as [n00|] eqn:N00', (read rs o) as [s00|];
    try contradiction; cbn [defined bind]; [|reflexivity].
  rewrite O1. cbn [defined bind].
  destruct (read rn (o + 1)) as [n01|] eqn:N01', (read rs (o + 1)) as [s01|];
    try contradiction; cbn [defined bind]; [|reflexivity].
  rewrite O2. cbn [defined bind].
  destruct (read rn (o + WIDTH)) as [n10|] eqn:N10',
           (read rs (o + WIDTH)) as [s10|];
    try contradiction; cbn [defined bind]; [|reflexivity].
  rewrite O3. cbn [defined bind].
  destruct (read rn (o + WIDTH + 1)) as [n11|] eqn:N11',
           (read rs (o + WIDTH + 1)) as [s11|];
    try contradiction; cbn [defined bind]; [|reflexivity].
  apply same_cell_rank in P00 as (r00 & N00 & S00 & Q00).
  apply same_cell_rank in P01 as (r01 & N01 & S01 & Q01).
  apply same_cell_rank in P10 as (r10 & N10 & S10 & Q10).
  apply same_cell_rank in P11 as (r11 & N11 & S11 & Q11).
  assert (wf x) as Wx by (apply valid_binary_wf; exact (read_Forall _ _ _ _ V Rx)).
  assert (wf y) as Wy by (apply valid_binary_wf; exact (read_Forall _ _ _ _ V Ry)).
  destruct (fraction_fin x cx Wx Cx) as [_ Fxf].
  destruct (fraction_fin y cy Wy Cy) as [_ Fyf].
  rewrite (nan_isnan_rank _ _ _ _ _ _ _ _ _ _ N00 N01 N10 N11 Fxf Fyf).
  pose proof (nodata_combine_rank _ _ _ _ _ _ _ _ S00 S01 S10 S11) as SC.
  rewrite (isMissing_rank _ _ SC).
  destruct (Z.leb_spec 0 (Z.max (Z.max r00 r01) (Z.max r10 r11))) as [P|P].
  - repeat (first [rewrite O4 | rewrite O1 | rewrite O3 | rewrite N00'
                  | rewrite N01' | rewrite N10' | rewrite N11'];
            cbn [defined bind]).
    rewrite (nan_combine_rank _ _ _ _ _ _ _ _ N00 N01 N10 N11 P).
    destruct SC as [[C _]|[C D]]; [lia|].
    rewrite (toNodata_reason _ C). cbn [defined bind].
    rewrite (f2d_sentinel _ _ C D). reflexivity.
  - pose proof (rank_nan_range _ _ N00). pose proof (rank_nan_range _ _ N01).
    pose proof (rank_nan_range _ _ N10). pose proof (rank_nan_range _ _ N11).
    rewrite Q00, Q01, Q10, Q11 by lia. reflexivity.
Qed.

(** Two loop bodies that agree on the states of an invariant run the same
    loop. *)
Lemma for_loop_agree {S : Type} (P : S -> Prop)
    (body1 body2 : Z -> S -> outcome S) (n : nat) :
  (forall i s, P s -> body1 i s = body2 i s) ->
  (forall i s s', P s -> body2 i s = Ok s' -> P s') ->
  forall i s, P s ->
    for_loop n i body1 s = for_loop n i body2 s
    /\ (forall s', for_loop n i body2 s = Ok s' -> P s').
Proof.
  intros E K. induction n as [|n IH]; intros i s Ps; cbn [for_loop].
  - split; [reflexivity|]. intros s' [= <-]. exact Ps.
  - rewrite (E i s Ps).
    destruct (body2 i s) as [s1| | |] eqn:B; cbn [bind];
      try (split; [reflexivity|discriminate]).
    apply IH. exact (K i s s1 Ps B).
Qed.

Lemma same_cell_nodata (rn rs : list Z) :
  Forall2 same_cell rn rs -> Forall (fun w => exists r, rank_nodata w r) rs.
Proof.
  induction 1 as [|wn ws rn rs C F IH]; constructor; [|exact IH].
  apply same_cell_rank in C as (r & _ & R & _). eauto.
Qed.

Lemma nodata_sample_valid (rs : list Z) (expectedResults : list double)
    (it i : Z) (s s' : Locals) :
  Forall (fun w => exists r, rank_nodata w r) rs ->
  Forall valid_double (coordinates s) ->
  TestNodata.sample rs expectedResults it i s = Ok s' ->
  Forall valid_double (coordinates s').
Proof.
  intros C V H. apply nodata_sample_inv in H.
  destruct (sampled_in_range rs i s s' _ _ nodata_result_fin
              (fun x y _ _ => Forall_corners_conform _ rs x y C) V H)
    as (x' & y' & _ & _ & _ & _ & V' & _).
  exact V'.
Qed.

Lemma iteration_equiv (rn rs : list Z) (expectedResults : list double)
    (it : Z) (s : Locals) :
  Forall2 same_cell rn rs ->
  Forall valid_double (coordinates s) ->
  TestNaN.iteration rn expectedResults it s
  = TestNodata.iteration rs expectedResults it s
  /\ (forall s', TestNodata.iteration rs expectedResults it s = Ok s' ->
        Forall valid_double (coordinates s')).
Proof.
  intros F V. unfold TestNaN.iteration, TestNodata.iteration.
  generalize (Z.to_nat NUM_INTERPOLATION_POINTS) as n. intros n.
  destruct (read (errorStatistics (self s)) it) as [st|]; cbn [defined bind];
    [|split; [reflexivity|discriminate]].
  pose proof (same_cell_nodata rn rs F) as C.
  destruct (for_loop_agree (fun s => Forall valid_double (coordinates s))
              (TestNaN.sample rn expectedResults it)
              (TestNodata.sample rs expectedResults it) n
              (fun i s V => sample_equiv rn rs expectedResults it i s F V)
              (fun i s s' V H => nodata_sample_valid rs expectedResults it i s s' C V H)
              0 {| coordinates := coordinates s;
                   expectedResultCursor := expectedResultCursor s;
                   stats := st; self := self s |} V) as [E K].
  rewrite E. clear E.
  destruct (for_loop _ _ _ _) as [s1| | |] eqn:L; cbn [bind];
    try (split; [reflexivity|discriminate]).
  split; [reflexivity|].
  destruct (write _ _ _); cbn [defined bind]; [|discriminate].
  intros s' [= <-]. cbn [coordinates]. apply K. reflexivity.
Qed.

(** Same buffers, same harness: the two codecs return the same harness. *)
Lemma iterations_equiv (rn rs : list Z) (coords expectedResults : list double)
    (t : TestCase) :
  Forall2 same_cell rn rs ->
  Forall valid_double coords ->
  TestNaN.iterations rn coords expectedResults t
  = TestNodata.iterations rs coords expectedResults t.
Proof.
  intros F V. unfold TestNaN.iterations, TestNodata.iterations.
  generalize (Z.to_nat NUM_VERIFIED_ITERATIONS) as n. intros n.
  destruct (for_loop_agree (fun s => Forall valid_double (coordinates s))
              (TestNaN.iteration rn expectedResults)
              (TestNodata.iteration rs expectedResults) n
              (fun i s V => proj1 (iteration_equiv rn rs expectedResults i s F V))
              (fun i s s' V H => proj2 (iteration_equiv rn rs expectedResults i s F V) s' H)
              0 {| coordinates := coords; expectedResultCursor := 0;
                   stats := S754_zero false; self := t |} V) as [E _].
  rewrite E. reflexivity.
Qed.

(** ** The harness enters the loops through its statistics only *)

Lemma with_statistics_same (t0 t : TestCase) :
  statistics t = statistics t0 -> with_statistics t0 t = t0.
Proof.
  destruct t0, t. unfold statistics, with_statistics. cbn.
  intros [= -> ->]. reflexivity.
Qed.

Lemma omap_omap {A B C} (f : A -> B) (g : B -> C) (c : outcome A) :
  omap g (omap f c) = omap (fun a => g (f a)) c.
Proof. destruct c; reflexivity. Qed.

Lemma omap_bind {A B C} (f : B -> C) (c : outcome A) (k : A -> outcome B) :
  omap f (bind c k) = bind c (fun a => omap f (k a)).
Proof. destruct c; reflexivity. Qed.

Lemma for_loop_commute {S : Type} (f : S -> S) (body : Z -> S -> outcome S)
    (n : nat) :
  (forall i s, body i (f s) = omap f (body i s)) ->
  forall i s, for_loop n i body (f s) = omap f (for_loop n i body s).
Proof.
  intros C. induction n as [|n IH]; intros i s; cbn [for_loop]; [reflexivity|].
  rewrite C. destruct (body i s); cbn [omap bind]; try reflexivity. apply IH.
Qed.

Lemma count_mismatch_frame (t0 : TestCase) (it : Z) (t : TestCase) :
  count_mismatch it (with_statistics t0 t)
  = omap (with_statistics t0) (count_mismatch it t).
Proof.
  unfold count_mismatch. cbn [with_statistics nodataMismatches set_errorStatistics
                              set_nodataMismatches].
  destruct (read (nodataMismatches t) it) as [n|]; cbn [defined bind omap];
    [|reflexivity].
  destruct (Int32.add n 1); reflexivity.
Qed.

Lemma move_frame (t0 : TestCase) (ix iy : Z) (x y r st : double) (t : TestCase)
    (coords : list double) (cur : Z) :
  move ix iy x y r st (with_statistics t0 t) coords cur
  = omap (with_self (with_statistics t0)) (move ix iy x y r st t coords cur).
Proof.
  unfold move. destruct (write coords ix _) as [c1|]; cbn [defined bind omap];
    [|reflexivity].
  destruct (write c1 iy _); reflexivity.
Qed.

Lemma nodata_sample_frame (t0 : TestCase) (rs : list Z)
    (expectedResults : list double) (it i : Z) (s : Locals) :
  TestNodata.sample rs expectedResults it i (with_self (with_statistics t0) s)
  = omap (with_self (with_statistics t0))
         (TestNodata.sample rs expectedResults it i s).
Proof.
  unfold TestNodata.sample.
  cbn [with_self coordinates expectedResultCursor stats self].
  repeat match goal with
         | |- context [defined ?o] =>
             destruct o; cbn [defined bind omap]; [|reflexivity]
         | |- context [if out_of_bounds ?o then _ else _] =>
             destruct (out_of_bounds o); [reflexivity|]
         | |- context [if TestNodata.isMissing ?v then _ else _] =>
             destruct (TestNodata.isMissing v)
         | |- context [if negb ?c then _ else _] =>
             destruct (negb c)
         | |- context [if dle ?a ?b then _ else _] =>
             destruct (dle a b)
         end;
    rewrite ?count_mismatch_frame;
    try (destruct (count_mismatch it (self s)); cbn [omap bind]; try reflexivity);
    cbn [bind]; apply move_frame.
Qed.

Lemma nodata_iteration_frame (t0 : TestCase) (rs : list Z)
    (expectedResults : list double) (it : Z) (s : Locals) :
  TestNodata.iteration rs expectedResults it (with_self (with_statistics t0) s)
  = omap (with_self (with_statistics t0))
         (TestNodata.iteration rs expectedResults it s).
Proof.
  unfold TestNodata.iteration.
  generalize (Z.to_nat NUM_INTERPOLATION_POINTS) as n. intros n.
  cbn [with_self coordinates expectedResultCursor stats self with_statistics
       errorStatistics set_errorStatistics set_nodataMismatches].
  destruct (read (errorStatistics (self s)) it) as [st|]; cbn [defined bind omap];
    [|reflexivity].
  change {| coordinates := coordinates s;
            expectedResultCursor := expectedResultCursor s; stats := st;
            self := with_statistics t0 (self s) |}
    with (with_self (with_statistics t0)
            {| coordinates := coordinates s;
               expectedResultCursor := expectedResultCursor s; stats := st;
               self := self s |}).
  rewrite (for_loop_commute (with_self (with_statistics t0)) _ _
             (nodata_sample_frame t0 rs expectedResults it)).
  destruct (for_loop _ _ _ _) as [s1| | |]; cbn [omap bind]; try reflexivity.
  cbn [with_self coordinates expectedResultCursor stats self with_statistics
       errorStatistics set_errorStatistics set_nodataMismatches].
  destruct (write _ _ _); reflexivity.
Qed.

Lemma nodata_iterations_frame (t0 : TestCase) (rs : list Z)
    (coords expectedResults : list double) (t : TestCase) :
  TestNodata.iterations rs coords expectedResults (with_statistics t0 t)
  = omap (with_statistics t0) (TestNodata.iterations rs coords expectedResults t).
Proof.
  unfold TestNodata.iterations.
  generalize (Z.to_nat NUM_VERIFIED_ITERATIONS) as n. intros n.
  change {| coordinates := coords; expectedResultCursor := 0;
            stats := S754_zero false; self := with_statistics t0 t |}
    with (with_self (with_statistics t0)
            {| coordinates := coords; expectedResultCursor := 0;
               stats := S754_zero false; self := t |}).
  rewrite (for_loop_commute (with_self (with_statistics t0)) _ _
             (nodata_iteration_frame t0 rs expectedResults)).
  destruct (for_loop _ _ _ _); reflexivity.
Qed.

Lemma statistics_with_statistics (t0 t : TestCase) :
  statistics (with_statistics t0 t) = statistics t.
Proof. reflexivity. Qed.

(** ** Where a sample can exit *)

Lemma never_exits_ok {A} (a : A) : never_exits (Ok a).
Proof. intros code. discriminate. Qed.

Lemma never_exits_defined {A} (o : option A) : never_exits (defined o).
Proof. intros code. destruct o; discriminate. Qed.

Lemma never_exits_bind {A B} (c : outcome A) (k : A -> outcome B) :
  never_exits c -> (forall a, never_exits (k a)) -> never_exits (bind c k).
Proof.
  intros C K code. destruct c as [a| | |]; cbn [bind]; try discriminate.
  - apply K.
  - intros H. exact (C code0 eq_refl).
Qed.

Lemma never_exits_if {A} (b : bool) (c1 c2 : outcome A) :
  never_exits c1 -> never_exits c2 -> never_exits (if b then c1 else c2).
Proof. destruct b; auto. Qed.

Lemma count_mismatch_never_exits (it : Z) (t : TestCase) :
  never_exits (count_mismatch it t).
Proof.
  unfold count_mismatch. apply never_exits_bind;
    [apply never_exits_defined|intros n].
  apply never_exits_bind; [apply never_exits_defined|intros n'].
  apply never_exits_ok.
Qed.

Lemma move_never_exits (ix iy : Z) (x y r st : double) (t : TestCase)
    (coords : list double) (cur : Z) :
  never_exits (move ix iy x y r st t coords cur).
Proof.
  unfold move. apply never_exits_bind; [apply never_exits_defined|intros c1].
  apply never_exits_bind; [apply never_exits_defined|intros c2].
  apply never_exits_ok.
Qed.

Lemma bind_defined_exit {A B} (o : option A) (k : A -> outcome B) (code : Z) :
  bind (defined o) k = Exit code -> exists a, o = Some a /\ k a = Exit code.
Proof. destruct o as [a|]; cbn [defined bind]; [eauto|discriminate]. Qed.

Lemma bind_ok {A B} (c : outcome A) (k : A -> outcome B) (b : B) :
  bind c k = Ok b -> exists a, c = Ok a /\ k a = Ok b.
Proof. destruct c as [a| | |]; cbn [bind]; [eauto|discriminate..]. Qed.

Lemma bind_exit {A B} (c : outcome A) (k : A -> B) (code : Z) :
  bind c (fun a => Ok (k a)) = Exit code -> c = Exit code.
Proof.
  destruct c; cbn [bind]; intros H; try discriminate H.
  injection H as ->. reflexivity.
Qed.

Ltac no_exit :=
  repeat first
    [ apply never_exits_ok
    | apply never_exits_defined
    | apply move_never_exits
    | apply count_mismatch_never_exits
    | apply never_exits_if
    | apply never_exits_bind; [|intros ?] ].

Lemma nan_sample_exit (raster : list Z) (expectedResults : list double)
    (it i : Z) (s : Locals) (c : Z) :
  TestNaN.sample raster expectedResults it i s = Exit c ->
  exists x y cx cy,
    read (coordinates s) (Z.shiftl i 1) = Some x
    /\ read (coordinates s) (Z.lor (Z.shiftl i 1) 1) = Some y
    /\ d2i (dfloor x) = Some cx /\ d2i (dfloor y) = Some cy
    /\ out_of_bounds (WIDTH * cy + cx) = true.
Proof.
  unfold TestNaN.sample. cbv zeta. intros H.
  apply bind_defined_exit in H as (x & Rx & H).
  apply bind_defined_exit in H as (y & Ry & H).
  apply bind_defined_exit in H as (cy & Cy & H).
  apply bind_defined_exit in H as (cx & Cx & H).
  apply bind_defined_exit in H as (o & LO & H).
  apply linear_offset_some in LO. subst o.
  destruct (out_of_bounds _) eqn:OB.
  { exists x, y, cx, cy. repeat split; assumption. }
  exfalso. revert H. generalize c.
  match goal with
  | |- forall code : Z, ?r = Exit code -> False => change (never_exits r)
  end.
  no_exit.
Qed.

Lemma nodata_sample_exit (raster : list Z) (expectedResults : list double)
    (it i : Z) (s : Locals) (c : Z) :
  TestNodata.sample raster expectedResults it i s = Exit c ->
  exists x y cx cy,
    read (coordinates s) (Z.shiftl i 1) = Some x
    /\ read (coordinates s) (Z.lor (Z.shiftl i 1) 1) = Some y
    /\ d2i (dfloor x) = Some cx /\ d2i (dfloor y) = Some cy
    /\ out_of_bounds (WIDTH * cy + cx) = true.
Proof.
  unfold TestNodata.sample. cbv zeta. intros H.
  apply bind_defined_exit in H as (x & Rx & H).
  apply bind_defined_exit in H as (y & Ry & H).
  apply bind_defined_exit in H as (cy & Cy & H).
  apply bind_defined_exit in H as (cx & Cx & H).
  apply bind_defined_exit in H as (o & LO & H).
  apply linear_offset_some in LO. subst o.
  destruct (out_of_bounds _) eqn:OB.
  { exists x, y, cx, cy. repeat split; assumption. }
  exfalso. revert H. generalize c.
  match goal with
  | |- forall code : Z, ?r = Exit code -> False => change (never_exits r)
  end.
  no_exit.
Qed.

(** ** The coordinates across the rounds *)

Section Rounds.
Variable sample : Z -> Z -> Locals -> outcome Locals.
Variable raster : list Z.
Variable missing : Z -> Z -> Z -> Z -> double -> bool.

Hypothesis sample_inv :
  forall it i s s', sample it i s = Ok s' -> sampled raster i s s' missing.
Hypothesis sample_exit :
  forall it i s c, sample it i s = Exit c ->
    exists x y cx cy,
      read (coordinates s) (Z.shiftl i 1) = Some x
      /\ read (coordinates s) (Z.lor (Z.shiftl i 1) 1) = Some y
      /\ d2i (dfloor x) = Some cx /\ d2i (dfloor y) = Some cy
      /\ out_of_bounds (WIDTH * cy + cx) = true.
Hypothesis sample_range :
  forall i s s', Forall valid_double (coordinates s) ->
    sampled raster i s s' missing ->
    exists x' y',
      read (coordinates s') (2 * i) = Some x'
      /\ read (coordinates s') (2 * i + 1) = Some y'
      /\ below x' (WIDTH - 1) /\ below y' (HEIGHT - 1)
      /\ Forall valid_double (coordinates s')
      /\ (forall j, 0 <= j -> j <> 2 * i -> j <> 2 * i + 1 ->
            read (coordinates s') j = read (coordinates s) j).

(** A sample puts its own point in range and leaves the others. *)
Lemma sample_settles (it i : Z) (s s' : Locals) :
  Forall valid_double (coordinates s) ->
  sample it i s = Ok s' ->
  Forall valid_double (coordinates s')
  /\ 0 <= i
  /\ point_in_range (coordinates s') i
  /\ (forall j, 0 <= j -> j <> i ->
        point_in_range (coordinates s) j -> point_in_range (coordinates s') j).
Proof.
  intros V H. apply sample_inv in H.
  assert (0 <= i) as I by (destruct H; assumption).
  destruct (sample_range i s s' V H) as (x' & y' & Rx & Ry & Bx & By & V' & Fr).
  split; [exact V'|]. split; [exact I|]. split.
  - exists x', y'. auto.
  - intros j J N (x & y & Rx0 & Ry0 & Bx0 & By0).
    exists x, y. rewrite !Fr by lia. auto.
Qed.

Lemma sample_step (it i k : Z) (s s' : Locals) :
  settled k s -> sample it i s = Ok s' ->
  settled k s' /\ (i = k -> settled (k + 1) s').
Proof.
  intros [V P] H.
  destruct (sample_settles it i s s' V H) as (V' & I & Pi & Po).
  assert (forall j, 0 <= j < k -> point_in_range (coordinates s') j) as Q.
  { intros j J. destruct (Z.eq_dec j i) as [->|N]; [exact Pi|].
    apply Po; [lia|exact N|apply P, J]. }
  split; [split; assumption|].
  intros <-. split; [exact V'|]. intros j J.
  destruct (Z.eq_dec j i) as [->|N]; [exact Pi|apply Q; lia].
Qed.

Lemma sample_no_exit (it i k : Z) (s : Locals) (c : Z) :
  settled k s -> 0 <= i < k -> sample it i s <> Exit c.
Proof.
  intros [V P] I H. apply sample_exit in H as (x & y & cx & cy & Rx & Ry & Cx & Cy & OB).
  destruct (point_indices i ltac:(lia)) as [Ix Iy]. rewrite Ix in Rx. rewrite Iy in Ry.
  destruct (P i I) as (x0 & y0 & Rx0 & Ry0 & Bx & By).
  rewrite Rx in Rx0. rewrite Ry in Ry0. injection Rx0 as <-. injection Ry0 as <-.
  destruct (in_range_offset x y) as (cx' & cy' & Cx' & Cy' & _ & _ & _ & OB' & _);
    try assumption.
  - exact (read_Forall _ _ _ _ V Rx).
  - exact (read_Forall _ _ _ _ V Ry).
  - congruence.
Qed.

(** The inner loop of the first round: after point [i], the points
    before [i + 1] are in range. *)
Lemma first_round (it : Z) (n : nat) (i : Z) (s s' : Locals) :
  0 <= i -> settled i s ->
  for_loop n i (sample it) s = Ok s' -> settled (i + Z.of_nat n) s'.
Proof.
  revert i s. induction n as [|n IH]; intros i s I St H; cbn [for_loop] in H.
  - injection H as <-. replace (i + Z.of_nat 0) with i by lia. exact St.
  - destruct (sample it i s) as [s1| | |] eqn:B; cbn [bind] in H;
      try discriminate H.
    destruct (sample_step it i i s s1 St B) as [_ S1].
    replace (i + Z.of_nat (S n)) with ((i + 1) + Z.of_nat n) by lia.
    apply (IH (i + 1) s1); [lia|apply S1; reflexivity|exact H].
Qed.

(** The inner loop of a later round: no exit, and the points stay in
    range. *)
Lemma later_round (it k : Z) (n : nat) (i : Z) (s : Locals) :
  0 <= i -> i + Z.of_nat n <= k -> settled k s ->
  (forall c, for_loop n i (sample it) s <> Exit c)
  /\ (forall s', for_loop n i (sample it) s = Ok s' -> settled k s').
Proof.
  revert i s. induction n as [|n IH]; intros i s I L St; cbn [for_loop].
  - split; [discriminate|]. intros s' [= <-]. exact St.
  - destruct (sample it i s) as [s1| | |] eqn:B; cbn [bind];
      try (split; [discriminate|discriminate]).
    + destruct (sample_step it i k s s1 St B) as [S1 _].
      apply IH; [lia|lia|exact S1].
    + exfalso. exact (sample_no_exit it i k s code St ltac:(lia) B).
Qed.

Variable expectedResults : list double.
Variable iteration : Z -> Locals -> outcome Locals.
Hypothesis iteration_eq :
  forall it s,
    iteration it s
    = (st <- defined (read (errorStatistics (self s)) it) ;;
       s' <- for_loop (Z.to_nat NUM_INTERPOLATION_POINTS) 0 (sample it)
               {| coordinates := coordinates s;
                  expectedResultCursor := expectedResultCursor s;
                  stats := st; self := self s |} ;;
       es <- defined (write (errorStatistics (self s')) it (stats s')) ;;
       Ok {| coordinates := coordinates s';
             expectedResultCursor := expectedResultCursor s';
             stats := stats s'; self := set_errorStatistics (self s') es |}).

Lemma points_count :
  Z.of_nat (Z.to_nat NUM_INTERPOLATION_POINTS) = NUM_INTERPOLATION_POINTS.
Proof. apply Z2Nat.id. discriminate. Qed.

(** A first round that returns leaves every point in range. *)
Lemma first_iteration (it : Z) (s s' : Locals) :
  Forall valid_double (coordinates s) ->
  iteration it s = Ok s' -> settled NUM_INTERPOLATION_POINTS s'.
Proof.
  intros V H. rewrite iteration_eq in H.
  pose proof points_count as PC. revert PC H.
  generalize (Z.to_nat NUM_INTERPOLATION_POINTS) as n. intros n PC H.
  apply bind_ok in H as (st & _ & H).
  apply bind_ok in H as (s1 & L & H).
  apply bind_ok in H as (es & _ & H).
  injection H as <-.
  apply first_round in L; [|lia|split; [exact V|intros j J; lia]].
  rewrite Z.add_0_l, PC in L. exact L.
Qed.

(** A later round does not exit and keeps every point in range. *)
Lemma later_iteration (it : Z) (s : Locals) :
  settled NUM_INTERPOLATION_POINTS s ->
  never_exits (iteration it s)
  /\ (forall s', iteration it s = Ok s' -> settled NUM_INTERPOLATION_POINTS s').
Proof.
  intros St. rewrite iteration_eq.
  pose proof points_count as PC. revert PC.
  generalize (Z.to_nat NUM_INTERPOLATION_POINTS) as n. intros n PC.
  destruct (read (errorStatistics (self s)) it) as [st|]; cbn [defined bind];
    [|split; [intros c; discriminate|discriminate]].
  destruct (later_round it NUM_INTERPOLATION_POINTS n 0
              {| coordinates := coordinates s;
                 expectedResultCursor := expectedResultCursor s;
                 stats := st; self := self s |}) as [NE K];
    [lia|lia|exact St|].
  destruct (for_loop n 0 (sample it) _) as [s1| | |]; cbn [bind].
  - specialize (K s1 eq_refl).
    destruct (write _ _ _); cbn [defined bind];
      [|split; [intros c; discriminate|discriminate]].
    split; [intros c; discriminate|]. intros s' [= <-]. exact K.
  - exfalso. exact (NE code eq_refl).
  - split; [intros c; discriminate|discriminate].
  - split; [intros c; discriminate|discriminate].
Qed.

Lemma later_iterations (n : nat) (i : Z) (s : Locals) :
  settled NUM_INTERPOLATION_POINTS s ->
  never_exits (for_loop n i iteration s).
Proof.
  revert i s. induction n as [|n IH]; intros i s St; cbn [for_loop].
  - apply never_exits_ok.
  - destruct (later_iteration i s St) as [NE K].
    destruct (iteration i s) as [s1| | |] eqn:E; cbn [bind].
    + apply IH, K. reflexivity.
    + exfalso. exact (NE code eq_refl).
    + intros c. discriminate.
    + intros c. discriminate.
Qed.

(** The ten rounds can exit in the first one only. *)
Lemma exit_in_first_iteration (s : Locals) (c : Z) :
  Forall valid_double (coordinates s) ->
  for_loop (Z.to_nat NUM_VERIFIED_ITERATIONS) 0 iteration s = Exit c ->
  iteration 0 s = Exit c.
Proof.
  intros V. change (Z.to_nat NUM_VERIFIED_ITERATIONS) with (S 9).
  cbn [for_loop].
  destruct (iteration 0 s) as [s1| | |] eqn:E; cbn [bind]; try discriminate;
    [|auto].
  intros H. exfalso.
  exact (later_iterations 9 (0 + 1) s1 (first_iteration 0 s s1 V E) c H).
Qed.
End Rounds.

(** ** What a sample records *)

Lemma move_fields (ix iy : Z) (x y r st : double) (t : TestCase)
    (coords : list double) (cur : Z) (s' : Locals) :
  move ix iy x y r st t coords cur = Ok s' -> stats s' = st /\ self s' = t.
Proof.
  unfold move. destruct (write coords ix _) as [c1|]; cbn [defined bind];
    [|discriminate].
  destruct (write c1 iy _) as [c2|]; cbn [defined bind]; [|discriminate].
  intros [= <-]. split; reflexivity.
Qed.

Lemma nan_sample_examined (raster : list Z) (expectedResults : list double)
    (it i : Z) (s s' : Locals) :
  TestNaN.sample raster expectedResults it i s = Ok s' ->
  examined raster expectedResults i s
    (fun p00 p01 p10 p11 interpolated expected =>
       exists reason,
         (isnan interpolated = true ->
          TestNaN.toNodata (TestNaN.combine p00 p01 p10 p11) = Some reason)
         /\ accounted it s s' (isnan interpolated) (i2d reason)
              interpolated expected).
Proof.
  unfold TestNaN.sample. intros H.
  bind_step H. bind_step H. bind_step H. bind_step H. offset_step H.
  destruct (out_of_bounds _) eqn:OB; [discriminate H|].
  pose proof (corner_offsets _ OB) as (B & O1 & O2 & O3 & O4).
  bind_step H. int_step H. bind_step H. int_step H.
  bind_step H. int_step H. bind_step H.
  assert (0 <= i) as I.
  { apply shiftl_nonneg. apply read_some_bounds in E. lia. }
  destruct (point_indices i I) as [Ix Iy]. rewrite Ix, Iy in *.
  match type of H with
  | (if isnan ?b then _ else _) = _ => set (interp := b) in *
  end.
  unfold examined, accounted.
  destruct (isnan interp) eqn:N.
  - nan_corners H. bind_step H. bind_step H.
    destruct (if negb _ then _ else _) as [t| | |] eqn:T; cbn [bind] in H;
      try discriminate H.
    apply move_fields in H as [St Se].
    exists d, d0, z0, z, z1, z2, z3, z4, d1. fold interp. rewrite N.
    do 9 (split; [first [assumption|reflexivity]|]).
    exists z5. split; [intros _; assumption|]. split; [exact St|].
    destruct (deq _ d1); cbn [negb] in T.
    + injection T as <-. exact Se.
    + rewrite Se. exact T.
  - bind_step H.
    exists d, d0, z0, z, z1, z2, z3, z4, d1. fold interp. rewrite N.
    do 9 (split; [first [assumption|reflexivity]|]).
    exists 0. split; [discriminate|].
    destruct (dle _ d1).
    + destruct (count_mismatch it (self s)) as [t| | |] eqn:T; cbn [bind] in H;
        try discriminate H.
      apply move_fields in H as [St Se]. rewrite Se. auto.
    + apply move_fields in H as [St Se]. auto.
Qed.

Lemma nodata_sample_examined (raster : list Z) (expectedResults : list double)
    (it i : Z) (s s' : Locals) :
  TestNodata.sample raster expectedResults it i s = Ok s' ->
  examined raster expectedResults i s
    (fun v00 v01 v10 v11 interpolated expected =>
       accounted it s s'
         (TestNodata.isMissing (TestNodata.combine v00 v01 v10 v11))
         (f2d (TestNodata.combine v00 v01 v10 v11))
         interpolated expected).
Proof.
  unfold TestNodata.sample. intros H.
  bind_step H. bind_step H. bind_step H. bind_step H. offset_step H.
  destruct (out_of_bounds _) eqn:OB; [discriminate H|].
  pose proof (corner_offsets _ OB) as (B & O1 & O2 & O3 & O4).
  bind_step H. int_step H. bind_step H. int_step H.
  bind_step H. int_step H. bind_step H.
  assert (0 <= i) as I.
  { apply shiftl_nonneg. apply read_some_bounds in E. lia. }
  destruct (point_indices i I) as [Ix Iy]. rewrite Ix, Iy in *.
  unfold examined, accounted.
  destruct (TestNodata.isMissing _) eqn:N.
  - bind_step H.
    destruct (if negb _ then _ else _) as [t| | |] eqn:T; cbn [bind] in H;
      try discriminate H.
    apply move_fields in H as [St Se].
    exists d, d0, z0, z, z1, z2, z3, z4, d1. rewrite N.
    do 9 (split; [first [assumption|reflexivity]|]). split; [exact St|].
    destruct (deq _ d1); cbn [negb] in T.
    + injection T as <-. exact Se.
    + rewrite Se. exact T.
  - bind_step H.
    exists d, d0, z0, z, z1, z2, z3, z4, d1. rewrite N.
    do 9 (split; [first [assumption|reflexivity]|]).
    destruct (dle _ d1).
    + destruct (count_mismatch it (self s)) as [t| | |] eqn:T; cbn [bind] in H;
        try discriminate H.
      apply move_fields in H as [St Se]. rewrite Se. auto.
    + apply move_fields in H as [St Se]. auto.
Qed.

Lemma accounted_self (it : Z) (s s' : Locals) (missing : bool)
    (nodata interpolated expected : double) :
  accounted it s s' missing nodata interpolated expected ->
  self s' = self s \/ count_mismatch it (self s) = Ok (self s').
Proof.
  unfold accounted. destruct missing.
  - intros [_ H]. destruct (deq nodata expected); auto.
  - destruct (dle _ expected); intros [_ H]; auto.
Qed.

(** ** A complete run returns *)

(** A sample changes the harness by counting one mismatch at most. *)
Lemma nan_sample_self (raster : list Z) (expectedResults : list double)
    (it i : Z) (s s' : Locals) :
  TestNaN.sample raster expectedResults it i s = Ok s' ->
  self s' = self s \/ count_mismatch it (self s) = Ok (self s').
Proof.
  intros H.
  destruct (nan_sample_examined _ _ _ _ _ _ H)
    as (? & ? & ? & ? & ? & ? & ? & ? & ?
        & _ & _ & _ & _ & _ & _ & _ & _ & _ & ? & _ & A).
  exact (accounted_self _ _ _ _ _ _ _ A).
Qed.

Lemma nodata_sample_self (raster : list Z) (expectedResults : list double)
    (it i : Z) (s s' : Locals) :
  TestNodata.sample raster expectedResults it i s = Ok s' ->
  self s' = self s \/ count_mismatch it (self s) = Ok (self s').
Proof.
  intros H.
  destruct (nodata_sample_examined _ _ _ _ _ _ H)
    as (? & ? & ? & ? & ? & ? & ? & ? & ?
        & _ & _ & _ & _ & _ & _ & _ & _ & _ & A).
  exact (accounted_self _ _ _ _ _ _ _ A).
Qed.

(** The room left in the counters, sample after sample. *)
Lemma roomy_countable (it k : Z) (counts : list Z) (n : Z) :
  k < NUM_INTERPOLATION_POINTS -> roomy it k counts ->
  read counts it = Some n -> countable n.
Proof.
  intros K R E. destruct (R it n E ltac:(lia)) as [Lo Hi].
  rewrite Z.eqb_refl in Hi. unfold countable.
  unfold Int32.min_signed, Int32.max_signed, Int32.half in *.
  change (2 ^ 31) with 2147483648 in *. lia.
Qed.

Lemma roomy_step (it k : Z) (t t' : TestCase) :
  roomy it k (nodataMismatches t) ->
  t' = t \/ count_mismatch it t = Ok t' ->
  roomy it (k + 1) (nodataMismatches t').
Proof.
  intros R [->|H].
  - intros j c E J. destruct (R j c E J) as [Lo Hi]. split; [exact Lo|].
    destruct (j =? it); lia.
  - apply count_mismatch_ok in H as (n & Rn & _ & ->).
    cbn [nodataMismatches set_nodataMismatches]. intros j c E J.
    pose proof (read_some_bounds _ _ _ Rn) as Bi.
    destruct (Z.eq_dec j it) as [->|N].
    + rewrite (read_upd_same _ _ _ _ Rn) in E. injection E as <-.
      destruct (R it n Rn ltac:(lia)) as [Lo Hi].
      rewrite Z.eqb_refl in *. lia.
    + rewrite read_upd_other in E by lia.
      destruct (R j c E J) as [Lo Hi]. split; [exact Lo|].
      destruct (j =? it); lia.
Qed.

Lemma roomy_next (it : Z) (counts : list Z) :
  roomy it NUM_INTERPOLATION_POINTS counts -> roomy (it + 1) 0 counts.
Proof.
  intros R j c E J. destruct (R j c E ltac:(lia)) as [Lo Hi].
  split; [exact Lo|].
  destruct (Z.eqb_spec j it) as [->|_]; [lia|].
  destruct (j =? it + 1); lia.
Qed.

Lemma spare_roomy (counts : list Z) : Forall spare counts -> roomy 0 0 counts.
Proof.
  intros F j c E _. destruct (read_Forall _ _ _ _ F E) as [Lo Hi].
  split; [exact Lo|]. destruct (j =? 0); lia.
Qed.

Lemma nodata_sample_progress (raster : list Z) (expectedResults : list double)
    (it i : Z) (s : Locals) :
  Z.of_nat (List.length raster) = WIDTH * HEIGHT ->
  Forall valid_double (coordinates s) -> 0 <= i ->
  point_in_range (coordinates s) i ->
  0 <= expectedResultCursor s < Z.of_nat (List.length expectedResults) ->
  0 <= it < Z.of_nat (List.length (nodataMismatches (self s))) ->
  (forall n, read (nodataMismatches (self s)) it = Some n -> countable n) ->
  exists s', TestNodata.sample raster expectedResults it i s = Ok s'.
Proof.
  intros L V I (x & y & Rx & Ry & Bx & By) Be Bn Cn.
  destruct (in_range_offset x y) as (cx & cy & Cx & Cy & _ & _ & Eo & OB & Lo);
    try assumption;
    [exact (read_Forall _ _ _ _ V Rx)|exact (read_Forall _ _ _ _ V Ry)|].
  destruct (point_indices i I) as [Ix Iy].
  destruct (read_within expectedResults _ Be) as [e0 Re].
  destruct (read_within (nodataMismatches (self s)) _ Bn) as [n Rn].
  destruct (corner_offsets _ OB) as (B & O1 & O2 & O3 & O4).
  set (o := WIDTH * cy + cx) in *.
  assert (0 <= o /\ o + WIDTH + 1 < Z.of_nat (List.length raster) /\ 0 < WIDTH)
    as (B0 & B1 & B2) by (rewrite L; split; [lia|split; [exact Lo|reflexivity]]).
  destruct (read_within raster o) as [v00 R00]; [lia|].
  destruct (read_within raster (o + 1)) as [v01 R01]; [lia|].
  destruct (read_within raster (o + WIDTH)) as [v10 R10]; [lia|].
  destruct (read_within raster (o + WIDTH + 1)) as [v11 R11]; [lia|].
  assert (2 * i <> 2 * i + 1) as N by lia.
  assert (exists t', count_mismatch it (self s) = Ok t') as [t' Cm].
  { eexists. apply count_mismatch_ok. exists n.
    split; [exact Rn|]. split; [exact (Cn n Rn)|reflexivity]. }
  unfold TestNodata.sample. rewrite Iy, Ix, Rx, Ry. cbn [defined bind].
  rewrite Cy, Cx. cbn [defined bind].
  repeat (first [rewrite Eo | rewrite OB | rewrite O1 | rewrite O2 | rewrite O3
                | rewrite R00 | rewrite R01 | rewrite R10 | rewrite R11
                | rewrite Re];
          cbn [defined bind]).
  destruct (TestNodata.isMissing _); cbn [defined bind].
  - destruct (negb _); rewrite ?Cm; cbn [defined bind];
      rewrite (move_ok _ _ _ _ _ _ _ _ _ _ _ Rx Ry N); eauto.
  - destruct (dle _ _); rewrite ?Cm; cbn [defined bind];
      rewrite (move_ok _ _ _ _ _ _ _ _ _ _ _ Rx Ry N); eauto.
Qed.

Lemma nan_sample_progress (raster : list Z) (expectedResults : list double)
    (it i : Z) (s : Locals) :
  Z.of_nat (List.length raster) = WIDTH * HEIGHT ->
  Forall (fun w => nan_cell w = true) raster ->
  Forall valid_double (coordinates s) -> 0 <= i ->
  point_in_range (coordinates s) i ->
  0 <= expectedResultCursor s < Z.of_nat (List.length expectedResults) ->
  0 <= it < Z.of_nat (List.length (nodataMismatches (self s))) ->
  (forall n, read (nodataMismatches (self s)) it = Some n -> countable n) ->
  exists s', TestNaN.sample raster expectedResults it i s = Ok s'.
Proof.
  intros L C V I (x & y & Rx & Ry & Bx & By) Be Bn Cn.
  destruct (in_range_offset x y) as (cx & cy & Cx & Cy & _ & _ & Eo & OB & Lo);
    try assumption;
    [exact (read_Forall _ _ _ _ V Rx)|exact (read_Forall _ _ _ _ V Ry)|].
  destruct (point_indices i I) as [Ix Iy].
  destruct (read_within expectedResults _ Be) as [e0 Re].
  destruct (read_within (nodataMismatches (self s)) _ Bn) as [n Rn].
  destruct (corner_offsets _ OB) as (B & O1 & O2 & O3 & O4).
  set (o := WIDTH * cy + cx) in *.
  assert (0 <= o /\ o + WIDTH + 1 < Z.of_nat (List.length raster) /\ 0 < WIDTH)
    as (B0 & B1 & B2) by (rewrite L; split; [lia|split; [exact Lo|reflexivity]]).
  destruct (read_within raster o) as [v00 R00]; [lia|].
  destruct (read_within raster (o + 1)) as [v01 R01]; [lia|].
  destruct (read_within raster (o + WIDTH)) as [v10 R10]; [lia|].
  destruct (read_within raster (o + WIDTH + 1)) as [v11 R11]; [lia|].
  assert (2 * i <> 2 * i + 1) as N by lia.
  assert (exists t', count_mismatch it (self s) = Ok t') as [t' Cm].
  { eexists. apply count_mismatch_ok. exists n.
    split; [exact Rn|]. split; [exact (Cn n Rn)|reflexivity]. }
  destruct (nan_cell_rank _ (read_Forall _ _ _ _ C R00)) as [r00 K00].
  destruct (nan_cell_rank _ (read_Forall _ _ _ _ C R01)) as [r01 K01].
  destruct (nan_cell_rank _ (read_Forall _ _ _ _ C R10)) as [r10 K10].
  destruct (nan_cell_rank _ (read_Forall _ _ _ _ C R11)) as [r11 K11].
  assert (wf x) as Wx by (apply valid_binary_wf; exact (read_Forall _ _ _ _ V Rx)).
  assert (wf y) as Wy by (apply valid_binary_wf; exact (read_Forall _ _ _ _ V Ry)).
  destruct (fraction_fin x cx Wx Cx) as [_ Fxf].
  destruct (fraction_fin y cy Wy Cy) as [_ Fyf].
  unfold TestNaN.sample. rewrite Iy, Ix, Rx, Ry. cbn [defined bind].
  rewrite Cy, Cx. cbn [defined bind].
  repeat (first [rewrite Eo | rewrite OB | rewrite O1 | rewrite O2 | rewrite O3
                | rewrite O4 | rewrite R00 | rewrite R01 | rewrite R10
                | rewrite R11 | rewrite Re];
          cbn [defined bind]).
  rewrite (nan_isnan_rank _ _ _ _ _ _ _ _ _ _ K00 K01 K10 K11 Fxf Fyf).
  destruct (Z.leb_spec 0 (Z.max (Z.max r00 r01) (Z.max r10 r11))) as [P|P].
  - rewrite (nan_combine_rank _ _ _ _ _ _ _ _ K00 K01 K10 K11 P).
    pose proof (rank_nan_range _ _ K00). pose proof (rank_nan_range _ _ K01).
    pose proof (rank_nan_range _ _ K10). pose proof (rank_nan_range _ _ K11).
    rewrite toNodata_reason by lia. cbn [defined bind].
    destruct (negb _); rewrite ?Cm; cbn [defined bind];
      rewrite (move_ok _ _ _ _ _ _ _ _ _ _ _ Rx Ry N); eauto.
  - destruct (dle _ _); rewrite ?Cm; cbn [defined bind];
      rewrite (move_ok _ _ _ _ _ _ _ _ _ _ _ Rx Ry N); eauto.
Qed.

Section Returns.
Variable sample : Z -> Z -> Locals -> outcome Locals.
Variable raster : list Z.
Variable missing : Z -> Z -> Z -> Z -> double -> bool.
Variable expectedResults : list double.
Variable iteration : Z -> Locals -> outcome Locals.

Hypothesis sample_inv :
  forall it i s s', sample it i s = Ok s' -> sampled raster i s s' missing.
Hypothesis sample_self :
  forall it i s s', sample it i s = Ok s' ->
    self s' = self s \/ count_mismatch it (self s) = Ok (self s').
Hypothesis sample_range :
  forall i s s', Forall valid_double (coordinates s) ->
    sampled raster i s s' missing ->
    exists x' y',
      read (coordinates s') (2 * i) = Some x'
      /\ read (coordinates s') (2 * i + 1) = Some y'
      /\ below x' (WIDTH - 1) /\ below y' (HEIGHT - 1)
      /\ Forall valid_double (coordinates s')
      /\ (forall j, 0 <= j -> j <> 2 * i -> j <> 2 * i + 1 ->
            read (coordinates s') j = read (coordinates s) j).
Hypothesis sample_progress :
  forall it i s,
    Forall valid_double (coordinates s) -> 0 <= i ->
    point_in_range (coordinates s) i ->
    0 <= expectedResultCursor s < Z.of_nat (List.length expectedResults) ->
    0 <= it < Z.of_nat (List.length (nodataMismatches (self s))) ->
    (forall n, read (nodataMismatches (self s)) it = Some n -> countable n) ->
    exists s', sample it i s = Ok s'.
Hypothesis iteration_eq :
  forall it s,
    iteration it s
    = (st <- defined (read (errorStatistics (self s)) it) ;;
       s' <- for_loop (Z.to_nat NUM_INTERPOLATION_POINTS) 0 (sample it)
               {| coordinates := coordinates s;
                  expectedResultCursor := expectedResultCursor s;
                  stats := st; self := self s |} ;;
       es <- defined (write (errorStatistics (self s')) it (stats s')) ;;
       Ok {| coordinates := coordinates s';
             expectedResultCursor := expectedResultCursor s';
             stats := stats s'; self := set_errorStatistics (self s') es |}).

Lemma inner_loop_returns (it : Z) (n : nat) (i : Z) (s : Locals) :
  settled NUM_INTERPOLATION_POINTS s ->
  0 <= i -> i + Z.of_nat n <= NUM_INTERPOLATION_POINTS ->
  0 <= expectedResultCursor s ->
  expectedResultCursor s + Z.of_nat n <= Z.of_nat (List.length expectedResults) ->
  0 <= it < Z.of_nat (List.length (nodataMismatches (self s))) ->
  roomy it i (nodataMismatches (self s)) ->
  exists s', for_loop n i (sample it) s = Ok s' /\ advanced (Z.of_nat n) s s'
             /\ roomy it (i + Z.of_nat n) (nodataMismatches (self s')).
Proof.
  revert i s. induction n as [|n IH]; intros i s St I Li C Le Bn Ro;
    cbn [for_loop].
  - exists s. split; [reflexivity|]. split.
    + unfold advanced. rewrite Z.add_0_r. auto.
    + rewrite Z.add_0_r. exact Ro.
  - destruct St as [V P].
    destruct (sample_progress it i s V I (P i ltac:(lia)) ltac:(lia) Bn
                (fun m => roomy_countable it i _ m ltac:(lia) Ro)) as [s1 H1].
    rewrite H1. cbn [bind].
    destruct (sample_step sample raster missing sample_inv sample_range
                it i NUM_INTERPOLATION_POINTS s s1 (conj V P) H1) as [St1 _].
    pose proof (sample_inv _ _ _ _ H1) as S1.
    assert (expectedResultCursor s1 = expectedResultCursor s + 1
            /\ errorStatistics (self s1) = errorStatistics (self s)
            /\ List.length (nodataMismatches (self s1))
               = List.length (nodataMismatches (self s))) as (C1 & E1 & M1)
      by (destruct S1; tauto).
    pose proof (roomy_step it i _ _ Ro (sample_self _ _ _ _ H1)) as Ro1.
    destruct (IH (i + 1) s1 St1) as (s' & H & A & Ro'); try lia; try assumption.
    exists s'. split; [exact H|].
    replace (i + Z.of_nat (S n)) with (i + 1 + Z.of_nat n) by lia.
    split; [|exact Ro'].
    destruct A as (A1 & A2 & A3 & A4).
    split; [exact A1|]. split; [rewrite A2, C1; lia|].
    split; [rewrite A3, E1; reflexivity|rewrite A4, M1; reflexivity].
Qed.

Lemma iteration_returns (it : Z) (s : Locals) :
  settled NUM_INTERPOLATION_POINTS s ->
  0 <= expectedResultCursor s ->
  expectedResultCursor s + NUM_INTERPOLATION_POINTS
  <= Z.of_nat (List.length expectedResults) ->
  0 <= it < Z.of_nat (List.length (errorStatistics (self s))) ->
  0 <= it < Z.of_nat (List.length (nodataMismatches (self s))) ->
  roomy it 0 (nodataMismatches (self s)) ->
  exists s', iteration it s = Ok s' /\ advanced NUM_INTERPOLATION_POINTS s s'
             /\ roomy (it + 1) 0 (nodataMismatches (self s')).
Proof.
  intros St C Le Bs Bn Ro. rewrite iteration_eq.
  pose proof (Z2Nat.id NUM_INTERPOLATION_POINTS ltac:(discriminate)) as PC.
  revert PC. generalize (Z.to_nat NUM_INTERPOLATION_POINTS) as n. intros n PC.
  destruct (read_within _ _ Bs) as [st Rs]. rewrite Rs. cbn [defined bind].
  destruct (inner_loop_returns it n 0
              {| coordinates := coordinates s;
                 expectedResultCursor := expectedResultCursor s;
                 stats := st; self := self s |})
    as (s1 & H & (A1 & A2 & A3 & A4) & Ro1);
    cbn [coordinates expectedResultCursor self]; try lia; try assumption.
  rewrite H. cbn [bind]. cbn [coordinates expectedResultCursor self] in *.
  destruct (read_within (errorStatistics (self s1)) it) as [old Ro0]; [lia|].
  unfold write. rewrite Ro0. cbn [defined bind].
  eexists. split; [reflexivity|]. unfold advanced.
  cbn [coordinates expectedResultCursor self errorStatistics nodataMismatches
       set_errorStatistics].
  rewrite length_upd_nat.
  split; [split; [exact A1|]; split; [lia|]; split; assumption|].
  apply roomy_next. rewrite Z.add_0_l, PC in Ro1. exact Ro1.
Qed.

Lemma iterations_return (n : nat) (it : Z) (s : Locals) :
  settled NUM_INTERPOLATION_POINTS s ->
  0 <= it ->
  it + Z.of_nat n <= Z.of_nat (List.length (errorStatistics (self s))) ->
  it + Z.of_nat n <= Z.of_nat (List.length (nodataMismatches (self s))) ->
  0 <= expectedResultCursor s ->
  expectedResultCursor s + Z.of_nat n * NUM_INTERPOLATION_POINTS
  <= Z.of_nat (List.length expectedResults) ->
  roomy it 0 (nodataMismatches (self s)) ->
  exists s', for_loop n it iteration s = Ok s'.
Proof.
  revert it s. induction n as [|n IH]; intros it s St I Bs Bn C Le Ro;
    cbn [for_loop].
  - eauto.
  - assert (0 < NUM_INTERPOLATION_POINTS) as NP by reflexivity.
    destruct (iteration_returns it s St C)
      as (s1 & H & (A1 & A2 & A3 & A4) & Ro1); try lia; try assumption.
    rewrite H. cbn [bind].
    apply IH; try assumption; try lia.
Qed.
End Returns.

Lemma nodata_iterations_return (raster : list Z)
    (coords expectedResults : list double) (t : TestCase) :
  Z.of_nat (List.length raster) = WIDTH * HEIGHT ->
  Forall nodata_cell raster ->
  Forall valid_double coords ->
  (forall j, 0 <= j < NUM_INTERPOLATION_POINTS -> point_in_range coords j) ->
  NUM_INTERPOLATION_POINTS * NUM_VERIFIED_ITERATIONS
  <= Z.of_nat (List.length expectedResults) ->
  NUM_VERIFIED_ITERATIONS <= Z.of_nat (List.length (errorStatistics t)) ->
  NUM_VERIFIED_ITERATIONS <= Z.of_nat (List.length (nodataMismatches t)) ->
  Forall spare (nodataMismatches t) ->
  exists t', TestNodata.iterations raster coords expectedResults t = Ok t'.
Proof.
  intros L C V P Le Bs Bn Sp. unfold TestNodata.iterations.
  destruct (iterations_return (TestNodata.sample raster expectedResults) raster
              (fun v00 v01 v10 v11 _ =>
                 TestNodata.isMissing (TestNodata.combine v00 v01 v10 v11))
              expectedResults (TestNodata.iteration raster expectedResults)
              (nodata_sample_inv raster expectedResults)
              (nodata_sample_self raster expectedResults)
              (fun i s s' Vs Hs =>
                 sampled_in_range raster i s s' _ _
                   (fun v00 v01 v10 v11 xf yf C00 C01 C10 C11 =>
                      nodata_result_fin v00 v01 v10 v11 xf yf
                        (nodata_cell_rank _ C00) (nodata_cell_rank _ C01)
                        (nodata_cell_rank _ C10) (nodata_cell_rank _ C11))
                   (fun x y _ _ => Forall_corners_conform _ raster x y C) Vs Hs)
              (fun it i s => nodata_sample_progress raster expectedResults it i s L)
              (fun it s => eq_refl)
              (Z.to_nat NUM_VERIFIED_ITERATIONS) 0
              {| coordinates := coords; expectedResultCursor := 0;
                 stats := S754_zero false; self := t |}) as [s' H];
    cbn [coordinates expectedResultCursor self];
    try (unfold NUM_VERIFIED_ITERATIONS, NUM_INTERPOLATION_POINTS in *; lia).
  - split; assumption.
  - apply spare_roomy, Sp.
  - rewrite H. cbn [bind]. eauto.
Qed.

Lemma nan_iterations_return (raster : list Z)
    (coords expectedResults : list double) (t : TestCase) :
  Z.of_nat (List.length raster) = WIDTH * HEIGHT ->
  Forall (fun w => nan_cell w = true) raster ->
  Forall valid_double coords ->
  (forall j, 0 <= j < NUM_INTERPOLATION_POINTS -> point_in_range coords j) ->
  NUM_INTERPOLATION_POINTS * NUM_VERIFIED_ITERATIONS
  <= Z.of_nat (List.length expectedResults) ->
  NUM_VERIFIED_ITERATIONS <= Z.of_nat (List.length (errorStatistics t)) ->
  NUM_VERIFIED_ITERATIONS <= Z.of_nat (List.length (nodataMismatches t)) ->
  Forall spare (nodataMismatches t) ->
  exists t', TestNaN.iterations raster coords expectedResults t = Ok t'.
Proof.
  intros L C V P Le Bs Bn Sp. unfold TestNaN.iterations.
  destruct (iterations_return (TestNaN.sample raster expectedResults) raster
              (fun _ _ _ _ b => isnan b)
              expectedResults (TestNaN.iteration raster expectedResults)
              (nan_sample_inv raster expectedResults)
              (nan_sample_self raster expectedResults)
              (fun i s s' Vs Hs =>
                 sampled_in_range raster i s s' _ _
                   (fun v00 v01 v10 v11 xf yf C00 C01 C10 C11 =>
                      nan_result_fin v00 v01 v10 v11 xf yf
                        (nan_cell_rank _ C00) (nan_cell_rank _ C01)
                        (nan_cell_rank _ C10) (nan_cell_rank _ C11))
                   (fun x y _ _ => Forall_corners_conform _ raster x y C) Vs Hs)
              (fun it i s => nan_sample_progress raster expectedResults it i s L C)
              (fun it s => eq_refl)
              (Z.to_nat NUM_VERIFIED_ITERATIONS) 0
              {| coordinates := coords; expectedResultCursor := 0;
                 stats := S754_zero false; self := t |}) as [s' H];
    cbn [coordinates expectedResultCursor self];
    try (unfold NUM_VERIFIED_ITERATIONS, NUM_INTERPOLATION_POINTS in *; lia).
  - split; assumption.
  - apply spare_roomy, Sp.
  - rewrite H. cbn [bind]. eauto.
Qed.

(** ** Doubles read from a file *)

Lemma decode64_valid (w : Z) : valid_double (decode64 w).
Proof.
  unfold valid_double, decode64.
  pose proof (Z.mod_pos_bound (w / 2 ^ 52) (2 ^ 11) ltac:(lia)) as Bx.
  pose proof (Z.mod_pos_bound w (2 ^ 52) ltac:(lia)) as Bf.
  remember ((w / 2 ^ 52) mod 2 ^ 11) as ex eqn:Hex.
  remember (w mod 2 ^ 52) as fr eqn:Hfr.
  remember (Z.testbit w 63) as s0 eqn:Hs.
  clear Hex Hfr Hs w.
  change (2 ^ 11) with 2048 in Bx.
  destruct (Z.eqb_spec ex 2047); [destruct (fr =? 0); reflexivity|].
  destruct (Z.eqb_spec ex 0).
  - destruct (Z.eqb_spec fr 0); [reflexivity|].
    unfold valid_binary, bounded, canonical_mantissa. rewrite fexp64_eq.
    assert (Zpos (digits2_pos (Z.to_pos fr)) <= 52) as D.
    { apply digits_le_iff. rewrite Z2Pos.id by lia. lia. }
    unfold fexp64. rewrite Z.max_r by lia. reflexivity.
  - unfold valid_binary, bounded, canonical_mantissa. rewrite fexp64_eq.
    assert (0 < 2 ^ 52) by (apply Z.pow_pos_nonneg; lia).
    assert (Zpos (digits2_pos (Z.to_pos (2 ^ 52 + fr))) = 53) as D.
    { assert (Zpos (digits2_pos (Z.to_pos (2 ^ 52 + fr))) <= 53).
      { apply digits_le_iff. rewrite Z2Pos.id by lia.
        change (2 ^ 53) with (2 ^ 52 + 2 ^ 52). lia. }
      assert (53 <= Zpos (digits2_pos (Z.to_pos (2 ^ 52 + fr)))).
      { apply digits_ge_iff; [lia|]. rewrite Z2Pos.id by lia.
        change (53 - 1) with 52. lia. }
      lia. }
    rewrite D. unfold fexp64. rewrite Z.max_l by lia.
    replace (53 + (ex - 1075) - 53) with (ex - 1075) by lia.
    rewrite Z.eqb_refl. cbn [andb]. apply Z.leb_le.
    change (emax64 - prec64) with 971. lia.
Qed.

Lemma toNativeByteOrder_valid (w : World) (numValues : Z)
    (bytes : option (list Byte.byte)) (values : list double) :
  toNativeByteOrder w numValues bytes = Some values ->
  Forall valid_double values.
Proof.
  unfold toNativeByteOrder. destruct bytes as [bs|]; [|discriminate].
  intros [= <-]. apply Forall_forall. intros d I.
  apply in_map_iff in I as (z & <- & _). apply decode64_valid.
Qed.

Lemma loadCoordinates_valid (w : World) (t : TestCase) (coords : list double) :
  loadCoordinates w t = Ok (Some coords) -> Forall valid_double coords.
Proof.
  unfold loadCoordinates. intros H.
  apply bind_ok in H as (bytes & _ & H). injection H as H.
  exact (toNativeByteOrder_valid _ _ _ _ H).
Qed.

(** ** The claims on the interpolation loop *)

Lemma codecs_agree (rn rs : list Z) (coords expectedResults : list double)
    (tN tS : TestCase) :
  Forall2 same_cell rn rs ->
  Forall valid_double coords ->
  statistics tN = statistics tS ->
  omap statistics (TestNaN.iterations rn coords expectedResults tN)
  = omap statistics (TestNodata.iterations rs coords expectedResults tS).
Proof.
  intros F V E.
  rewrite (iterations_equiv rn rs coords expectedResults tN F V).
  rewrite <- (with_statistics_same tS tN E).
  rewrite nodata_iterations_frame, omap_omap.
  destruct (TestNodata.iterations rs coords expectedResults tN); reflexivity.
Qed.

Lemma same_cell_nan (rn rs : list Z) :
  Forall2 same_cell rn rs -> Forall (fun w => nan_cell w = true) rn.
Proof.
  induction 1 as [|wn ws rn rs C F IH]; constructor; [|exact IH].
  unfold nan_cell. destruct C as [[V _]|(k & B & -> & _)].
  - rewrite V. reflexivity.
  - assert (k = 0 \/ k = 1 \/ k = 2 \/ k = 3) as [-> | [-> | [-> | ->]]] by lia;
      reflexivity.
Qed.

Lemma new_TestCase_arrays (testNaN : bool) (order : endian) :
  NUM_VERIFIED_ITERATIONS
  <= Z.of_nat (List.length (errorStatistics (new_TestCase testNaN order)))
  /\ NUM_VERIFIED_ITERATIONS
     <= Z.of_nat (List.length (nodataMismatches (new_TestCase testNaN order)))
  /\ Forall spare (nodataMismatches (new_TestCase testNaN order)).
Proof.
  split; [vm_compute; discriminate|]. split; [vm_compute; discriminate|].
  apply Forall_forall. intros c I. apply repeat_spec in I. subst c.
  split; vm_compute; discriminate.
Qed.

Lemma two_rows_same_cell :
  Forall2 same_cell (two_rows TestNaN.LAND) (two_rows 0x461C4800).
Proof.
  unfold two_rows. apply Forall2_app; apply Forall2_repeat.
  - left. split; reflexivity.
  - right. exists 2. split; [lia|]. split; reflexivity.
Qed.

Lemma two_rows_length (land : Z) :
  Z.of_nat (List.length (two_rows land)) = WIDTH * HEIGHT.
Proof.
  unfold two_rows. rewrite length_app, !repeat_length.
  unfold WIDTH, HEIGHT. lia.
Qed.

Lemma origin_valid : Forall valid_double origin.
Proof. apply Forall_repeat. reflexivity. Qed.

Lemma origin_in_range (j : Z) :
  0 <= j < NUM_INTERPOLATION_POINTS -> point_in_range origin j.
Proof.
  intros B. exists (S754_zero false), (S754_zero false).
  unfold origin, NUM_INTERPOLATION_POINTS in *.
  rewrite !read_repeat by lia. repeat split; reflexivity.
Qed.

Lemma zero_expectations_length :
  NUM_INTERPOLATION_POINTS * NUM_VERIFIED_ITERATIONS
  <= Z.of_nat (List.length zero_expectations).
Proof.
  unfold zero_expectations. rewrite repeat_length.
  unfold NUM_INTERPOLATION_POINTS, NUM_VERIFIED_ITERATIONS. lia.
Qed.

(** C1. For a NaN raster and a sentinel raster that hold the same valid
    samples and the same reasons cell by cell, the same coordinates and the
    same expected results, the two variants end in the same way and, when
    they return, report the same [errorStatistics] and [nodataMismatches]
    for the ten rounds; so do the two [computeAndCompare] whose loaders
    returned these buffers.  On complete buffers with every point in range,
    and counters that a round cannot overflow, both variants do return. *)
Theorem codecs_report_equal_statistics
    (rn rs : list Z) (coords expectedResults : list double)
    (tN tS : TestCase) :
  Forall2 same_cell rn rs ->
  Forall valid_double coords ->
  statistics tN = statistics tS ->
  omap statistics (TestNaN.iterations rn coords expectedResults tN)
  = omap statistics (TestNodata.iterations rs coords expectedResults tS)
  /\ (forall wN wS,
        loadRaster wN tN = Ok (Some rn) ->
        loadCoordinates wN tN = Ok (Some coords) ->
        loadExpectedResults wN tN = Ok (Some expectedResults) ->
        loadRaster wS tS = Ok (Some rs) ->
        loadCoordinates wS tS = Ok (Some coords) ->
        loadExpectedResults wS tS = Ok (Some expectedResults) ->
        omap statistics (TestNaN.computeAndCompare wN tN)
        = omap statistics (TestNodata.computeAndCompare wS tS))
  /\ (Z.of_nat (List.length rn) = WIDTH * HEIGHT ->
      (forall j, 0 <= j < NUM_INTERPOLATION_POINTS -> point_in_range coords j) ->
      NUM_INTERPOLATION_POINTS * NUM_VERIFIED_ITERATIONS
      <= Z.of_nat (List.length expectedResults) ->
      NUM_VERIFIED_ITERATIONS <= Z.of_nat (List.length (errorStatistics tN)) ->
      NUM_VERIFIED_ITERATIONS <= Z.of_nat (List.length (nodataMismatches tN)) ->
      Forall spare (nodataMismatches tN) ->
      exists tN' tS',
        TestNaN.iterations rn coords expectedResults tN = Ok tN'
        /\ TestNodata.iterations rs coords expectedResults tS = Ok tS'
        /\ errorStatistics tN' = errorStatistics tS'
        /\ nodataMismatches tN' = nodataMismatches tS').
Proof.
  intros F V E. pose proof (codecs_agree _ _ coords expectedResults _ _ F V E) as A.
  split; [exact A|]. split.
  - intros wN wS RN CN EN RS CS ES.
    unfold TestNaN.computeAndCompare, TestNodata.computeAndCompare.
    rewrite RN, CN, EN, RS, CS, ES. cbn [bind]. exact A.
  - intros L P Le Bs Bn Sp.
    destruct (nan_iterations_return rn coords expectedResults tN L
                (same_cell_nan rn rs F) V P Le Bs Bn Sp) as [tN' HN].
    rewrite HN in A.
    destruct (TestNodata.iterations rs coords expectedResults tS) as [tS'| | |];
      try discriminate A.
    exists tN', tS'. injection A as A1 A2. auto.
Qed.

Lemma codecs_report_equal_statistics_witness :
  exists tN' tS',
    TestNaN.iterations (two_rows TestNaN.LAND) origin zero_expectations
      (new_TestCase true big) = Ok tN'
    /\ TestNodata.iterations (two_rows 0x461C4800) origin zero_expectations
         (new_TestCase false big) = Ok tS'
    /\ errorStatistics tN' = errorStatistics tS'
    /\ nodataMismatches tN' = nodataMismatches tS'.
Proof.
  exact (proj2 (proj2 (codecs_report_equal_statistics
                         (two_rows TestNaN.LAND) (two_rows 0x461C4800)
                         origin zero_expectations
                         (new_TestCase true big) (new_TestCase false big)
                         two_rows_same_cell origin_valid eq_refl))
           (two_rows_length TestNaN.LAND) origin_in_range
           zero_expectations_length
           (proj1 (new_TestCase_arrays true big))
           (proj1 (proj2 (new_TestCase_arrays true big)))
           (proj2 (proj2 (new_TestCase_arrays true big)))).
Defined.



Lemma sampled_accepted_next (raster : list Z) (i : Z) (s s' : Locals)
    (missing : Z -> Z -> Z -> Z -> double -> bool) (cell : Z -> Prop) :
  (forall v00 v01 v10 v11 xf yf,
      cell v00 -> cell v01 -> cell v10 -> cell v11 ->
      fin 35 xf -> fin 35 yf ->
      fin 207 (if missing v00 v01 v10 v11 (bilinear v00 v01 v10 v11 xf yf)
               then i2d 1 else bilinear v00 v01 v10 v11 xf yf)) ->
  (forall x y, read (coordinates s) (2 * i) = Some x ->
               read (coordinates s) (2 * i + 1) = Some y ->
               corners_conform cell raster x y) ->
  Forall valid_double (coordinates s) ->
  sampled raster i s s' missing ->
  accepted_next (coordinates s') i.
Proof.
  intros M CC V H.
  destruct (sampled_in_range raster i s s' missing cell M CC V H)
    as (x' & y' & Rx & Ry & Bx & By & V' & _).
  destruct (in_range_offset x' y') as (cx & cy & Cx & Cy & _ & _ & _ & OB & L);
    try assumption.
  - exact (read_Forall _ _ _ _ V' Rx).
  - exact (read_Forall _ _ _ _ V' Ry).
  - exists x', y', cx, cy. repeat split; assumption.
Qed.

(** C9. Whenever a sample returns, for a point whose coordinates are
    doubles and whose four corners conform to the data model, the feedback
    leaves the point in [0, WIDTH-1) x [0, HEIGHT-1); such a point passes
    the bound check of the next round, with its four corners inside the
    raster.  Hence on a conforming raster the ten rounds can only exit in
    the first one. *)
Theorem coordinates_stay_in_range
    (raster : list Z) (coords expectedResults : list double) (t : TestCase) :
  Forall valid_double coords ->
  let entry := {| coordinates := coords; expectedResultCursor := 0;
                  stats := S754_zero false; self := t |} in
  (forall it i s s',
      Forall valid_double (coordinates s) ->
      (forall x y, read (coordinates s) (2 * i) = Some x ->
                   read (coordinates s) (2 * i + 1) = Some y ->
                   corners_conform (fun w => nan_cell w = true) raster x y) ->
      TestNaN.sample raster expectedResults it i s = Ok s' ->
      accepted_next (coordinates s') i)
  /\ (forall it i s s',
        Forall valid_double (coordinates s) ->
        (forall x y, read (coordinates s) (2 * i) = Some x ->
                     read (coordinates s) (2 * i + 1) = Some y ->
                     corners_conform nodata_cell raster x y) ->
        TestNodata.sample raster expectedResults it i s = Ok s' ->
        accepted_next (coordinates s') i)
  /\ (Forall (fun w => nan_cell w = true) raster ->
      forall c, TestNaN.iterations raster coords expectedResults t = Exit c ->
                TestNaN.iteration raster expectedResults 0 entry = Exit c)
  /\ (Forall nodata_cell raster ->
      forall c, TestNodata.iterations raster coords expectedResults t = Exit c ->
                TestNodata.iteration raster expectedResults 0 entry = Exit c).
Proof.
  intros V entry.
  assert (forall v00 v01 v10 v11 xf yf,
             nan_cell v00 = true -> nan_cell v01 = true ->
             nan_cell v10 = true -> nan_cell v11 = true ->
             fin 35 xf -> fin 35 yf ->
             fin 207 (if isnan (bilinear v00 v01 v10 v11 xf yf) then i2d 1
                      else bilinear v00 v01 v10 v11 xf yf)) as MN.
  { intros. apply nan_result_fin; auto using nan_cell_rank. }
  assert (forall v00 v01 v10 v11 xf yf,
             nodata_cell v00 -> nodata_cell v01 ->
             nodata_cell v10 -> nodata_cell v11 ->
             fin 35 xf -> fin 35 yf ->
             fin 207 (if TestNodata.isMissing (TestNodata.combine v00 v01 v10 v11)
                      then i2d 1 else bilinear v00 v01 v10 v11 xf yf)) as MS.
  { intros. apply nodata_result_fin; auto using nodata_cell_rank. }
  split; [|split; [|split]].
  - intros it i s s' Vs CC H.
    exact (sampled_accepted_next raster i s s' _ _ MN CC Vs
             (nan_sample_inv _ _ _ _ _ _ H)).
  - intros it i s s' Vs CC H.
    exact (sampled_accepted_next raster i s s' _ _ MS CC Vs
             (nodata_sample_inv _ _ _ _ _ _ H)).
  - intros C c H. unfold TestNaN.iterations in H.
    apply bind_exit in H.
    refine (exit_in_first_iteration (TestNaN.sample raster expectedResults) raster
              (fun _ _ _ _ b => isnan b)
              (nan_sample_inv raster expectedResults)
              (nan_sample_exit raster expectedResults)
              (fun i s s' Vs Hs =>
                 sampled_in_range raster i s s' _ _ MN
                   (fun x y _ _ => Forall_corners_conform _ raster x y C) Vs Hs)
              (TestNaN.iteration raster expectedResults)
              (fun it s => eq_refl) entry c V H).
  - intros C c H. unfold TestNodata.iterations in H.
    apply bind_exit in H.
    refine (exit_in_first_iteration (TestNodata.sample raster expectedResults) raster
              (fun v00 v01 v10 v11 _ =>
                 TestNodata.isMissing (TestNodata.combine v00 v01 v10 v11))
              (nodata_sample_inv raster expectedResults)
              (nodata_sample_exit raster expectedResults)
              (fun i s s' Vs Hs =>
                 sampled_in_range raster i s s' _ _ MS
                   (fun x y _ _ => Forall_corners_conform _ raster x y C) Vs Hs)
              (TestNodata.iteration raster expectedResults)
              (fun it s => eq_refl) entry c V H).
Qed.

Lemma coordinates_stay_in_range_witness :
  exists s',
    TestNaN.sample (repeat 0x3F800000 4005) [i2d 1] 0 0
      (at_point (i2d 3) (i2d 4) (new_TestCase true big)) = Ok s'
    /\ accepted_next (coordinates s') 0.
Proof.
  assert (Forall valid_double [i2d 3; i2d 4]) as V
    by (repeat constructor; vm_compute; reflexivity).
  assert (Forall (fun w => nan_cell w = true) (repeat 0x3F800000 4005)) as C.
  { apply Forall_forall. intros w I. apply repeat_spec in I. subst w.
    vm_compute. reflexivity. }
  assert (exists s',
             TestNaN.sample (repeat 0x3F800000 4005) [i2d 1] 0 0
               (at_point (i2d 3) (i2d 4) (new_TestCase true big)) = Ok s')
    as [s' H] by (vm_compute; eexists; reflexivity).
  exists s'. split; [exact H|].
  exact (proj1 (coordinates_stay_in_range (repeat 0x3F800000 4005)
                  [i2d 3; i2d 4] [i2d 1] (new_TestCase true big) V)
           0 0 (at_point (i2d 3) (i2d 4) (new_TestCase true big)) s' V
           (fun x y _ _ => Forall_corners_conform _ _ x y C) H).
Defined.

(** ** The statistics the program can hold *)

Lemma dabs_proper_or_nan (v : double) : dabs v = S754_nan \/ proper (dabs v).
Proof.
  destruct v; cbn; [right|right|left|right]; try reflexivity;
    split; discriminate.
Qed.

Lemma dmax_proper (a v : double) : proper a -> proper (dmax a (dabs v)).
Proof.
  intros Pa. unfold dmax. destruct (dlt a (dabs v)) eqn:L; [|exact Pa].
  destruct (dabs_proper_or_nan v) as [N|P]; [|exact P].
  rewrite N in L. unfold dlt, SFltb in L. destruct a; discriminate L.
Qed.

Lemma deq_proper (a b : double) :
  proper a -> proper b -> (deq a b = true <-> a = b).
Proof.
  intros [Na Za] [Nb Zb]. rewrite deq_exact. split.
  - intros [_ [E|(s & s' & -> & ->)]]; [exact E|].
    destruct s, s'; congruence.
  - intros <-. split; [exact Na|left; reflexivity].
Qed.

Lemma upd_nat_Forall {A} (P : A -> Prop) (a : list A) (n : nat) (v : A) :
  Forall P a -> P v -> Forall P (upd_nat a n v).
Proof.
  intros Fa Pv. revert n. induction Fa as [|h t Ph Ft IH]; intros n; cbn.
  - constructor.
  - destruct n; constructor; auto.
Qed.

Lemma write_Forall {A} (P : A -> Prop) (a b : list A) (i : Z) (v : A) :
  Forall P a -> P v -> write a i v = Some b -> Forall P b.
Proof.
  unfold write. intros Fa Pv. destruct (read a i); [|discriminate].
  intros [= <-]. apply upd_nat_Forall; assumption.
Qed.

Lemma nth_Forall {A} (P : A -> Prop) (a : list A) (n : nat) (d : A) :
  Forall P a -> (n < List.length a)%nat -> P (nth n a d).
Proof.
  intros Fa L. rewrite Forall_forall in Fa. apply Fa. apply nth_In. exact L.
Qed.

Lemma for_loop_preserves {S : Type} (P : S -> Prop)
    (body : Z -> S -> outcome S) (n : nat) :
  (forall i s s', P s -> body i s = Ok s' -> P s') ->
  forall i s s', P s -> for_loop n i body s = Ok s' -> P s'.
Proof.
  intros K. induction n as [|n IH]; intros i s s' Ps; cbn [for_loop].
  - intros [= <-]. exact Ps.
  - destruct (body i s) as [s1| | |] eqn:B; cbn [bind]; try discriminate.
    apply IH. exact (K _ _ _ Ps B).
Qed.

Lemma sampled_proper (raster : list Z) (i : Z) (s s' : Locals)
    (missing : Z -> Z -> Z -> Z -> double -> bool) :
  sampled raster i s s' missing -> proper_locals s -> proper_locals s'.
Proof.
  intros [x y cx cy v00 v01 v10 v11 _ _ _ _ _ _ _ _ _ _ _ _ [Se _] Ss] [Ps Fs].
  split.
  - destruct Ss as [->|(v & ->)]; [exact Ps|apply dmax_proper; exact Ps].
  - rewrite Se. exact Fs.
Qed.

Section Proper.

Variable sample : list Z -> list double -> Z -> Z -> Locals -> outcome Locals.
Variable missing : Z -> Z -> Z -> Z -> double -> bool.
Hypothesis sample_inv : forall raster expectedResults it i s s',
  sample raster expectedResults it i s = Ok s' -> sampled raster i s s' missing.

Variable iteration : list Z -> list double -> Z -> Locals -> outcome Locals.
Hypothesis iteration_eq : forall raster expectedResults it s,
  iteration raster expectedResults it s
  = (st <- defined (read (errorStatistics (self s)) it) ;;
     s' <- for_loop (Z.to_nat NUM_INTERPOLATION_POINTS) 0
             (sample raster expectedResults it)
             {| coordinates := coordinates s;
                expectedResultCursor := expectedResultCursor s;
                stats := st; self := self s |} ;;
     es <- defined (write (errorStatistics (self s')) it (stats s')) ;;
     Ok {| coordinates := coordinates s';
           expectedResultCursor := expectedResultCursor s';
           stats := stats s'; self := set_errorStatistics (self s') es |}).

Lemma iteration_proper (raster : list Z) (expectedResults : list double)
    (it : Z) (s s' : Locals) :
  Forall proper (errorStatistics (self s)) ->
  iteration raster expectedResults it s = Ok s' ->
  Forall proper (errorStatistics (self s')).
Proof.
  intros Fs. rewrite iteration_eq.
  generalize (Z.to_nat NUM_INTERPOLATION_POINTS) as n. intros n.
  destruct (read (errorStatistics (self s)) it) as [st|] eqn:R;
    cbn [defined bind]; [|discriminate].
  destruct (for_loop n 0 _ _) as [s1| | |] eqn:L; cbn [bind]; try discriminate.
  assert (P1 : proper_locals s1).
  { refine (for_loop_preserves proper_locals _ n _ 0 _ s1 _ L).
    - intros i a b Pa E. exact (sampled_proper _ _ _ _ _ (sample_inv _ _ _ _ _ _ E) Pa).
    - split; cbn; [exact (read_Forall _ _ _ _ Fs R)|exact Fs]. }
  destruct (write (errorStatistics (self s1)) it (stats s1)) as [es|] eqn:W;
    cbn [defined bind]; [|discriminate].
  intros [= <-]. cbn [self]. unfold set_errorStatistics. cbn [errorStatistics].
  exact (write_Forall _ _ _ _ _ (proj2 P1) (proj1 P1) W).
Qed.

Lemma iterations_proper (raster : list Z) (expectedResults : list double)
    (n : nat) (i : Z) (s s' : Locals) :
  Forall proper (errorStatistics (self s)) ->
  for_loop n i (iteration raster expectedResults) s = Ok s' ->
  Forall proper (errorStatistics (self s')).
Proof.
  apply (for_loop_preserves (fun a => Forall proper (errorStatistics (self a)))).
  intros j a b Pa E. exact (iteration_proper _ _ _ _ _ Pa E).
Qed.

End Proper.

Lemma nan_iterations_proper (raster : list Z) (coords expectedResults : list double)
    (t t' : TestCase) :
  Forall proper (errorStatistics t) ->
  TestNaN.iterations raster coords expectedResults t = Ok t' ->
  Forall proper (errorStatistics t').
Proof.
  intros Ft. unfold TestNaN.iterations.
  destruct (for_loop _ _ _ _) as [s1| | |] eqn:L; cbn [bind]; try discriminate.
  intros [= <-].
  refine (iterations_proper TestNaN.sample _ nan_sample_inv TestNaN.iteration
            (fun _ _ _ _ => eq_refl) _ _ _ _ _ _ _ L).
  exact Ft.
Qed.

Lemma nodata_iterations_proper (raster : list Z)
    (coords expectedResults : list double) (t t' : TestCase) :
  Forall proper (errorStatistics t) ->
  TestNodata.iterations raster coords expectedResults t = Ok t' ->
  Forall proper (errorStatistics t').
Proof.
  intros Ft. unfold TestNodata.iterations.
  destruct (for_loop _ _ _ _) as [s1| | |] eqn:L; cbn [bind]; try discriminate.
  intros [= <-].
  refine (iterations_proper TestNodata.sample _ nodata_sample_inv
            TestNodata.iteration (fun _ _ _ _ => eq_refl) _ _ _ _ _ _ _ L).
  exact Ft.
Qed.

Lemma new_TestCase_proper (testNaN : bool) (testByteOrder : endian) :
  Forall proper (errorStatistics (new_TestCase testNaN testByteOrder))
  /\ Z.of_nat (List.length (errorStatistics (new_TestCase testNaN testByteOrder)))
     = NUM_VERIFIED_ITERATIONS.
Proof.
  split; [|reflexivity].
  cbn. repeat constructor; discriminate.
Qed.

Lemma computeAndCompare_proper (w : World) (t t' : TestCase) :
  Forall proper (errorStatistics t) ->
  computeAndCompare w t = Ok t' ->
  Forall proper (errorStatistics t').
Proof.
  intros Ft. unfold computeAndCompare.
  destruct (useNaN t);
    [unfold TestNaN.computeAndCompare|unfold TestNodata.computeAndCompare];
    (destruct (loadRaster w t) as [[r|]| | |]; cbn [bind]; try discriminate;
     [|intros [= <-]; exact Ft]);
    (destruct (loadCoordinates w t) as [[c|]| | |]; cbn [bind]; try discriminate;
     [|intros [= <-]; exact Ft]);
    (destruct (loadExpectedResults w t) as [[e|]| | |]; cbn [bind];
     try discriminate; [|intros [= <-]; exact Ft]).
  - apply nan_iterations_proper. exact Ft.
  - apply nodata_iterations_proper. exact Ft.
Qed.

(** C6. [resultEquals(other)] is true exactly when, at each of the ten
    rounds, the two error statistics are equal as doubles (the [==] of the
    language: the same value, no tolerance) and the two mismatch counts
    are the same integer.  On the statistics the program can hold (those of a
    fresh test case, and whatever a run of [computeAndCompare] makes of
    them: numbers, never the negative zero) equal as doubles is the same
    as identical. *)
Theorem resultEquals_exact (t other : TestCase) :
  (resultEquals t other = true <->
   forall i, 0 <= i < NUM_VERIFIED_ITERATIONS ->
     (let a := nth (Z.to_nat i) (errorStatistics t) S754_nan in
      let b := nth (Z.to_nat i) (errorStatistics other) S754_nan in
      a <> S754_nan /\
      (a = b \/ exists s s', a = S754_zero s /\ b = S754_zero s'))
     /\ nth (Z.to_nat i) (nodataMismatches t) 0
        = nth (Z.to_nat i) (nodataMismatches other) 0)
  /\ (Forall proper (errorStatistics t) ->
      Forall proper (errorStatistics other) ->
      NUM_VERIFIED_ITERATIONS <= Z.of_nat (List.length (errorStatistics t)) ->
      NUM_VERIFIED_ITERATIONS <= Z.of_nat (List.length (errorStatistics other)) ->
      (resultEquals t other = true <->
       forall i, 0 <= i < NUM_VERIFIED_ITERATIONS ->
         nth (Z.to_nat i) (errorStatistics t) S754_nan
         = nth (Z.to_nat i) (errorStatistics other) S754_nan
         /\ nth (Z.to_nat i) (nodataMismatches t) 0
            = nth (Z.to_nat i) (nodataMismatches other) 0))
  /\ (forall testNaN testByteOrder,
        Forall proper (errorStatistics (new_TestCase testNaN testByteOrder)))
  /\ (forall w t',
        Forall proper (errorStatistics t) ->
        computeAndCompare w t = Ok t' ->
        Forall proper (errorStatistics t')).
Proof.
  split; [|split; [|split]].
  - unfold resultEquals. rewrite resultEquals_from_spec by lia.
    change (0 + Z.of_nat (Z.to_nat NUM_VERIFIED_ITERATIONS))
      with NUM_VERIFIED_ITERATIONS.
    split; intros H i B; destruct (H i B) as [D E]; split; auto;
      cbv zeta in *; apply deq_exact; exact D.
  - intros Ft Fo Lt Lo.
    unfold resultEquals. rewrite resultEquals_from_spec by lia.
    change (0 + Z.of_nat (Z.to_nat NUM_VERIFIED_ITERATIONS))
      with NUM_VERIFIED_ITERATIONS.
    split; intros H i B; destruct (H i B) as [D E]; split; auto;
      (eapply deq_proper; [| |exact D]); apply nth_Forall; auto; lia.
  - intros b o. exact (proj1 (new_TestCase_proper b o)).
  - intros w t' Ft E. exact (computeAndCompare_proper _ _ _ Ft E).
Qed.

(** ** The test driver *)

Lemma tests_from_unroll (k : nat) (w : World) (d : Driver) :
  tests_from (5 + k) w 0 d
  = Some (d1 <- run_test w ref_this d ;;
          d2 <- run_test w ref_nodataLittleEndian d1 ;;
          d3 <- run_test w ref_nanBigEndian d2 ;;
          d4 <- run_test w ref_nanLittleEndian d3 ;;
          Ok d4).
Proof.
  change (5 + k)%nat with (S (S (S (S (S k))))).
  cbn [tests_from]. change (select 0) with (Some ref_this). cbv iota.
  destruct (run_test w ref_this d) as [d1| | |]; cbn [bind]; try reflexivity.
  change (select (0 + 1)) with (Some ref_nodataLittleEndian). cbv iota.
  destruct (run_test w ref_nodataLittleEndian d1) as [d2| | |]; cbn [bind];
    try reflexivity.
  change (select (0 + 1 + 1)) with (Some ref_nanBigEndian). cbv iota.
  destruct (run_test w ref_nanBigEndian d2) as [d3| | |]; cbn [bind];
    try reflexivity.
  change (select (0 + 1 + 1 + 1)) with (Some ref_nanLittleEndian). cbv iota.
  destruct (run_test w ref_nanLittleEndian d3) as [d4| | |]; cbn [bind];
    reflexivity.
Qed.

Lemma testAndCompare_closed_form (fuel : nat) (w : World) (receiver : TestCase) :
  (5 <= fuel)%nat ->
  testAndCompare fuel w receiver
  = Some (r <- TestNodata.computeAndCompare w receiver ;;
          n1 <- TestNodata.computeAndCompare w (new_TestNodata little) ;;
          n2 <- TestNaN.computeAndCompare w (new_TestNaN big) ;;
          n3 <- TestNaN.computeAndCompare w (new_TestNaN little) ;;
          Ok (report r [r; n1; n2; n3] n2)).
Proof.
  intros F. replace fuel with (5 + (fuel - 5))%nat by lia.
  unfold testAndCompare. rewrite tests_from_unroll.
  unfold run_test at 1.
  cbn [call_computeAndCompare deref assign this nodataLittleEndian nanBigEndian
       nanLittleEndian successFlag stdout].
  destruct (TestNodata.computeAndCompare w receiver) as [r| | |];
    cbn [bind]; try reflexivity.
  generalize (new_TestNodata little) as t1, (new_TestNaN big) as t2,
             (new_TestNaN little) as t3.
  intros t1 t2 t3.
  assert (St : forall (b : bool) (o : list output),
    match
      (d1 <- Ok {| this := r; nodataLittleEndian := t1; nanBigEndian := t2;
                   nanLittleEndian := t3; successFlag := b; stdout := o |} ;;
       d2 <- run_test w ref_nodataLittleEndian d1 ;;
       d3 <- run_test w ref_nanBigEndian d2 ;;
       d4 <- run_test w ref_nanLittleEndian d3 ;;
       Ok d4)
    with
    | Ok d =>
        Some (Ok (if successFlag d
                  then stdout d ++ printStatistics (nanBigEndian d)
                                ++ [Text success_message]
                  else stdout d ++ [Text failure_message]))
    | Exit code => Some (Exit code)
    | Terminate => Some Terminate
    | Undefined => Some Undefined
    end
    = Some (n1 <- TestNodata.computeAndCompare w t1 ;;
            n2 <- TestNaN.computeAndCompare w t2 ;;
            n3 <- TestNaN.computeAndCompare w t3 ;;
            Ok (o ++ flat_map printStatistics
                       (filter (fun t => negb (resultEquals r t)) [n1; n2; n3])
                  ++ (if b && forallb (fun t => success t && resultEquals r t)
                                       [n1; n2; n3]
                      then printStatistics n2 ++ [Text success_message]
                      else [Text failure_message])))).
  { intros b o. cbn [bind]. unfold run_test.
    cbn [call_computeAndCompare deref assign this nodataLittleEndian
         nanBigEndian nanLittleEndian successFlag stdout].
    destruct (TestNodata.computeAndCompare w t1) as [n1| | |];
      cbn [bind]; try reflexivity.
    destruct (resultEquals r n1) eqn:E1;
      cbn [negb bind call_computeAndCompare deref assign this
           nodataLittleEndian nanBigEndian nanLittleEndian successFlag stdout];
      (destruct (TestNaN.computeAndCompare w t2) as [n2| | |];
         cbn [bind]; try reflexivity);
      (destruct (resultEquals r n2) eqn:E2;
         cbn [negb bind call_computeAndCompare deref assign this
              nodataLittleEndian nanBigEndian nanLittleEndian successFlag stdout];
       (destruct (TestNaN.computeAndCompare w t3) as [n3| | |];
          cbn [bind]; try reflexivity);
       (destruct (resultEquals r n3) eqn:E3;
          cbn [negb bind call_computeAndCompare deref assign this
               nodataLittleEndian nanBigEndian nanLittleEndian successFlag stdout
               filter flat_map forallb];
          rewrite ?E1, ?E2, ?E3; cbn [negb andb];
          rewrite ?andb_false_r, ?andb_true_r, ?app_nil_r, <- ?app_assoc;
          cbn [andb];
          destruct b, (success n1), (success n2), (success n3);
          cbn [andb]; rewrite <- ?app_assoc; reflexivity)). }
  unfold report. cbn [filter forallb flat_map].
  destruct (resultEquals r r) eqn:E0; cbn [negb].
  - rewrite (St (true && success r) []). cbn [andb app].
    destruct (TestNodata.computeAndCompare w t1) as [n1| | |];
      cbn [bind]; try reflexivity.
    destruct (TestNaN.computeAndCompare w t2) as [n2| | |];
      cbn [bind]; try reflexivity.
    destruct (TestNaN.computeAndCompare w t3) as [n3| | |];
      cbn [bind]; try reflexivity.
    rewrite andb_true_r. reflexivity.
  - cbn [app]. rewrite (St false (printStatistics r)). cbn [andb].
    destruct (TestNodata.computeAndCompare w t1) as [n1| | |];
      cbn [bind]; try reflexivity.
    destruct (TestNaN.computeAndCompare w t2) as [n2| | |];
      cbn [bind]; try reflexivity.
    destruct (TestNaN.computeAndCompare w t3) as [n3| | |];
      cbn [bind]; try reflexivity.
    rewrite andb_false_r. cbn [flat_map]. rewrite <- app_assoc. reflexivity.
Qed.

(** ** How a run can stop *)

Lemma stops_ok {A} (codes : Z -> Prop) (throws : Prop) (a : A) :
  stops_as codes throws (Ok a).
Proof. exact I. Qed.

Lemma stops_defined {A} (codes : Z -> Prop) (throws : Prop) (o : option A) :
  stops_as codes throws (defined o).
Proof. destruct o; exact I. Qed.

Lemma stops_bind {A B} (codes : Z -> Prop) (throws : Prop)
    (c : outcome A) (k : A -> outcome B) :
  stops_as codes throws c -> (forall a, stops_as codes throws (k a)) ->
  stops_as codes throws (bind c k).
Proof. intros C K. destruct c; cbn [bind]; [apply K|exact C..]. Qed.

Lemma stops_if {A} (codes : Z -> Prop) (throws : Prop) (b : bool)
    (c1 c2 : outcome A) :
  stops_as codes throws c1 -> stops_as codes throws c2 ->
  stops_as codes throws (if b then c1 else c2).
Proof. destruct b; auto. Qed.

Lemma stops_weaken {A} (codes codes' : Z -> Prop) (throws throws' : Prop)
    (c : outcome A) :
  (forall code, codes code -> codes' code) -> (throws -> throws') ->
  stops_as codes throws c -> stops_as codes' throws' c.
Proof. intros C T. destruct c; cbn; auto. Qed.

Lemma stops_for_loop {S : Type} (codes : Z -> Prop) (throws : Prop)
    (body : Z -> S -> outcome S) (n : nat) :
  (forall i s, stops_as codes throws (body i s)) ->
  forall i s, stops_as codes throws (for_loop n i body s).
Proof.
  intros K. induction n as [|n IH]; intros i s; cbn [for_loop].
  - exact I.
  - apply stops_bind; [apply K|intros s'; apply IH].
Qed.

Lemma stops_count_mismatch (codes : Z -> Prop) (throws : Prop) (it : Z)
    (t : TestCase) :
  stops_as codes throws (count_mismatch it t).
Proof.
  unfold count_mismatch.
  apply stops_bind; [apply stops_defined|intros n].
  apply stops_bind; [apply stops_defined|intros n']. apply stops_ok.
Qed.

Lemma stops_move (codes : Z -> Prop) (throws : Prop) (ix iy : Z)
    (x y r st : double) (t : TestCase) (coords : list double) (cur : Z) :
  stops_as codes throws (move ix iy x y r st t coords cur).
Proof.
  unfold move. apply stops_bind; [apply stops_defined|intros c1].
  apply stops_bind; [apply stops_defined|intros c2]. apply stops_ok.
Qed.

Ltac stops :=
  repeat first
    [ apply stops_ok
    | apply stops_defined
    | apply stops_move
    | apply stops_count_mismatch
    | apply stops_if
    | apply stops_bind; [|intros ?] ].

Lemma nan_sample_stops (raster : list Z) (expectedResults : list double)
    (it i : Z) (s : Locals) :
  stops_as (fun code => code = 1) False
           (TestNaN.sample raster expectedResults it i s).
Proof. unfold TestNaN.sample. cbv zeta. stops. reflexivity. Qed.

Lemma nodata_sample_stops (raster : list Z) (expectedResults : list double)
    (it i : Z) (s : Locals) :
  stops_as (fun code => code = 1) False
           (TestNodata.sample raster expectedResults it i s).
Proof. unfold TestNodata.sample. cbv zeta. stops. reflexivity. Qed.

Lemma nan_iterations_stop (raster : list Z) (coords expectedResults : list double)
    (t : TestCase) :
  stops_as (fun code => code = 1) False
           (TestNaN.iterations raster coords expectedResults t).
Proof.
  unfold TestNaN.iterations.
  apply stops_bind; [|intros s; apply stops_ok].
  apply stops_for_loop. intros it s. unfold TestNaN.iteration.
  apply stops_bind; [apply stops_defined|intros st].
  apply stops_bind; [|intros s'; stops].
  apply stops_for_loop. intros i s'. apply nan_sample_stops.
Qed.

Lemma nodata_iterations_stop (raster : list Z)
    (coords expectedResults : list double) (t : TestCase) :
  stops_as (fun code => code = 1) False
           (TestNodata.iterations raster coords expectedResults t).
Proof.
  unfold TestNodata.iterations.
  apply stops_bind; [|intros s; apply stops_ok].
  apply stops_for_loop. intros it s. unfold TestNodata.iteration.
  apply stops_bind; [apply stops_defined|intros st].
  apply stops_bind; [|intros s'; stops].
  apply stops_for_loop. intros i s'. apply nodata_sample_stops.
Qed.

Lemma readAllBytes_stops (w : World) (file : string) (numBytes : Z) :
  0 <= numBytes ->
  stops_as (fun _ => False) (heap_serves w numBytes = false)
           (readAllBytes w file numBytes).
Proof.
  intros N. unfold readAllBytes. destruct (files w file); [|exact I].
  destruct (Z.leb_spec 0 numBytes); [|lia]. cbn [andb].
  destruct (heap_serves w numBytes); [|reflexivity].
  destruct (_ <=? _); exact I.
Qed.

Lemma loads_stop (w : World) (t : TestCase) :
  stops_as (fun code => code = 1) (heap_fails w) (loadRaster w t)
  /\ stops_as (fun code => code = 1) (heap_fails w) (loadCoordinates w t)
  /\ stops_as (fun code => code = 1) (heap_fails w) (loadExpectedResults w t).
Proof.
  unfold loadRaster, loadCoordinates, loadExpectedResults, heap_fails.
  repeat split;
    (apply stops_bind; [|intros b; apply stops_ok]);
    (eapply stops_weaken; [| |apply readAllBytes_stops; vm_compute; discriminate]);
    cbn beta; tauto.
Qed.

Lemma nan_computeAndCompare_stops (w : World) (t : TestCase) :
  stops_as (fun code => code = 1) (heap_fails w)
           (TestNaN.computeAndCompare w t).
Proof.
  destruct (loads_stop w t) as (R & C & E). unfold TestNaN.computeAndCompare.
  apply stops_bind; [exact R|intros [r|]; [|exact I]].
  apply stops_bind; [exact C|intros [c|]; [|exact I]].
  apply stops_bind; [exact E|intros [e|]; [|exact I]].
  eapply stops_weaken; [| |apply nan_iterations_stop]; cbn beta; tauto.
Qed.

Lemma nodata_computeAndCompare_stops (w : World) (t : TestCase) :
  stops_as (fun code => code = 1) (heap_fails w)
           (TestNodata.computeAndCompare w t).
Proof.
  destruct (loads_stop w t) as (R & C & E). unfold TestNodata.computeAndCompare.
  apply stops_bind; [exact R|intros [r|]; [|exact I]].
  apply stops_bind; [exact C|intros [c|]; [|exact I]].
  apply stops_bind; [exact E|intros [e|]; [|exact I]].
  eapply stops_weaken; [| |apply nodata_iterations_stop]; cbn beta; tauto.
Qed.

(** ** The statistics of a run that starts from a new harness *)

Lemma dmax_nonnegative (a v : double) :
  nonnegative a -> nonnegative (dmax a (dabs v)).
Proof.
  intros Na. unfold dmax. destruct (dlt a (dabs v)) eqn:L; [|exact Na].
  destruct v as [sv|sv| |sv mv ev]; cbn; try exact I.
  unfold dlt, SFltb in L. cbn in L. destruct a; discriminate L.
Qed.

Lemma counted_more (it k k' : Z) (counts : list Z) :
  k <= k' -> counted it k counts -> counted it k' counts.
Proof.
  intros K [L C]. split; [exact L|]. intros j c R.
  destruct (C j c R) as (A & B & D). split; [exact A|]. split; [|exact D].
  intros E. specialize (B E). lia.
Qed.

Lemma counted_step (it k : Z) (t t' : TestCase) :
  0 <= k < NUM_INTERPOLATION_POINTS ->
  counted it k (nodataMismatches t) ->
  count_mismatch it t = Ok t' ->
  counted it (k + 1) (nodataMismatches t')
  /\ errorStatistics t' = errorStatistics t.
Proof.
  intros K [L C] H. apply count_mismatch_ok in H as (n & R & _ & ->).
  cbn [nodataMismatches errorStatistics set_nodataMismatches].
  split; [|reflexivity].
  pose proof (read_some_bounds _ _ _ R) as Bi.
  destruct (C it n R) as (_ & Bn & _). specialize (Bn eq_refl).
  split; [rewrite length_upd_nat; exact L|].
  intros j c Rj. destruct (Z.eq_dec j it) as [->|N].
  - rewrite (read_upd_same _ _ _ _ R) in Rj. injection Rj as <-.
    repeat split; lia.
  - pose proof (read_some_bounds _ _ _ Rj) as Bj.
    rewrite read_upd_other in Rj by lia.
    destruct (C j c Rj) as (A & _ & D). repeat split; auto; lia.
Qed.

Lemma counted_next (it : Z) (counts : list Z) :
  counted it NUM_INTERPOLATION_POINTS counts -> counted (it + 1) 0 counts.
Proof.
  intros [L C]. split; [exact L|]. intros j c R.
  destruct (C j c R) as (A & B & D). split; [|split].
  - intros H. destruct (Z.eq_dec j it) as [E|E]; [apply B, E|apply A; lia].
  - intros H. rewrite D by lia. lia.
  - intros H. apply D. lia.
Qed.

Lemma write_length {A} (a b : list A) (i : Z) (v : A) :
  write a i v = Some b -> List.length b = List.length a.
Proof.
  unfold write. destruct (read a i); [|discriminate]. intros [= <-].
  apply length_upd_nat.
Qed.

Section Accounts.

Variable sample : list Z -> list double -> Z -> Z -> Locals -> outcome Locals.
Variable missing : Z -> Z -> Z -> Z -> double -> bool.
Variable iteration : list Z -> list double -> Z -> Locals -> outcome Locals.
Hypothesis sample_inv : forall raster expectedResults it i s s',
  sample raster expectedResults it i s = Ok s' -> sampled raster i s s' missing.
Hypothesis sample_self : forall raster expectedResults it i s s',
  sample raster expectedResults it i s = Ok s' ->
  self s' = self s \/ count_mismatch it (self s) = Ok (self s').
Hypothesis iteration_eq : forall raster expectedResults it s,
  iteration raster expectedResults it s
  = (st <- defined (read (errorStatistics (self s)) it) ;;
     s' <- for_loop (Z.to_nat NUM_INTERPOLATION_POINTS) 0
             (sample raster expectedResults it)
             {| coordinates := coordinates s;
                expectedResultCursor := expectedResultCursor s;
                stats := st; self := self s |} ;;
     es <- defined (write (errorStatistics (self s')) it (stats s')) ;;
     Ok {| coordinates := coordinates s';
           expectedResultCursor := expectedResultCursor s';
           stats := stats s'; self := set_errorStatistics (self s') es |}).

Lemma sample_tallied (raster : list Z) (expectedResults : list double)
    (it i : Z) (s s' : Locals) :
  0 <= i < NUM_INTERPOLATION_POINTS -> tallied it i s ->
  sample raster expectedResults it i s = Ok s' -> tallied it (i + 1) s'.
Proof.
  intros I (Ns & Fs & Ls & Cs) H.
  destruct (sample_inv _ _ _ _ _ _ H)
    as [x y cx cy v00 v01 v10 v11 _ _ _ _ _ _ _ _ _ _ _ _ [Se _] Ss].
  split; [|split; [|split]].
  - destruct Ss as [->|(v & ->)]; [exact Ns|apply dmax_nonnegative; exact Ns].
  - rewrite Se. exact Fs.
  - rewrite Se. exact Ls.
  - destruct (sample_self _ _ _ _ _ _ H) as [->|Cm].
    + apply (counted_more it i); [lia|exact Cs].
    + exact (proj1 (counted_step it i _ _ I Cs Cm)).
Qed.

Lemma samples_tallied (raster : list Z) (expectedResults : list double)
    (it : Z) (n : nat) (i : Z) (s s' : Locals) :
  0 <= i -> i + Z.of_nat n <= NUM_INTERPOLATION_POINTS -> tallied it i s ->
  for_loop n i (sample raster expectedResults it) s = Ok s' ->
  tallied it (i + Z.of_nat n) s'.
Proof.
  revert i s. induction n as [|n IH]; intros i s I B T; cbn [for_loop].
  - intros [= <-]. replace (i + Z.of_nat 0) with i by lia. exact T.
  - destruct (sample raster expectedResults it i s) as [s1| | |] eqn:H;
      cbn [bind]; try discriminate.
    intros L. replace (i + Z.of_nat (S n)) with (i + 1 + Z.of_nat n) by lia.
    apply (IH (i + 1) s1); [lia|lia| |exact L].
    apply (sample_tallied raster expectedResults it i s); [lia|exact T|exact H].
Qed.

Lemma iteration_tallied (raster : list Z) (expectedResults : list double)
    (it : Z) (s s' : Locals) :
  tallied it 0 s -> iteration raster expectedResults it s = Ok s' ->
  tallied (it + 1) 0 s'.
Proof.
  intros (Ns & Fs & Ls & Cs). rewrite iteration_eq.
  destruct (read (errorStatistics (self s)) it) as [st|] eqn:R;
    cbn [defined bind]; [|discriminate].
  destruct (for_loop _ 0 _ _) as [s1| | |] eqn:L; cbn [bind]; try discriminate.
  assert (tallied it NUM_INTERPOLATION_POINTS s1) as (N1 & F1 & L1 & C1).
  { change NUM_INTERPOLATION_POINTS
      with (0 + Z.of_nat (Z.to_nat NUM_INTERPOLATION_POINTS)).
    refine (samples_tallied raster expectedResults it _ 0 _ s1 _ _ _ L);
      [lia|vm_compute; discriminate|].
    split; [|split; [|split]]; cbn [stats self]; auto.
    exact (read_Forall _ _ _ _ Fs R). }
  destruct (write (errorStatistics (self s1)) it (stats s1)) as [es|] eqn:W;
    cbn [defined bind]; [|discriminate].
  intros [= <-]. unfold tallied, set_errorStatistics.
  cbn [stats self errorStatistics nodataMismatches].
  split; [exact N1|]. split; [exact (write_Forall _ _ _ _ _ F1 N1 W)|].
  split; [|apply counted_next; exact C1].
  rewrite (write_length _ _ _ _ W). exact L1.
Qed.

Lemma iterations_tallied (raster : list Z) (expectedResults : list double)
    (n : nat) (it : Z) (s s' : Locals) :
  tallied it 0 s ->
  for_loop n it (iteration raster expectedResults) s = Ok s' ->
  tallied (it + Z.of_nat n) 0 s'.
Proof.
  revert it s. induction n as [|n IH]; intros it s T; cbn [for_loop].
  - intros [= <-]. replace (it + Z.of_nat 0) with it by lia. exact T.
  - destruct (iteration raster expectedResults it s) as [s1| | |] eqn:H;
      cbn [bind]; try discriminate.
    intros L. replace (it + Z.of_nat (S n)) with (it + 1 + Z.of_nat n) by lia.
    apply (IH (it + 1) s1); [|exact L].
    exact (iteration_tallied raster expectedResults it s s1 T H).
Qed.

End Accounts.

(** ** A world of zero bytes *)

Lemma firstn_repeat {A} (x : A) (k m : nat) :
  (k <= m)%nat -> firstn k (repeat x m) = repeat x k.
Proof.
  revert m. induction k as [|k IH]; intros [|m] L; cbn; try reflexivity; try lia.
  rewrite IH by lia. reflexivity.
Qed.

Lemma skipn_repeat {A} (x : A) (k m : nat) :
  skipn k (repeat x m) = repeat x (m - k).
Proof.
  revert m. induction k as [|k IH]; intros [|m]; cbn; try reflexivity.
  apply IH.
Qed.

Lemma chunks_repeat (x : Byte.byte) (k n m : nat) :
  (k * n <= m)%nat -> chunks k n (repeat x m) = repeat (repeat x k) n.
Proof.
  revert m. induction n as [|n IH]; intros m L; cbn [chunks repeat].
  - reflexivity.
  - rewrite firstn_repeat by lia. rewrite skipn_repeat. rewrite IH by lia.
    reflexivity.
Qed.

Lemma zero_world_reads (file : string) (numBytes : Z) :
  0 <= numBytes <= WIDTH * HEIGHT * 4 ->
  readAllBytes zero_world file numBytes
  = Ok (Some (repeat Byte.x00 (Z.to_nat numBytes))).
Proof.
  intros B. unfold readAllBytes, zero_world. cbn [files heap_serves].
  rewrite repeat_length.
  destruct (Z.leb_spec 0 numBytes); [|lia]. cbn [andb].
  destruct (Z.leb_spec numBytes (Z.of_nat (Z.to_nat (WIDTH * HEIGHT * 4))));
    [|lia].
  rewrite firstn_repeat by lia. reflexivity.
Qed.

Lemma zero_world_loads (t : TestCase) :
  loadRaster zero_world t = Ok (Some (repeat 0 (Z.to_nat (WIDTH * HEIGHT))))
  /\ loadCoordinates zero_world t
     = Ok (Some (repeat (S754_zero false)
                   (Z.to_nat (2 * NUM_INTERPOLATION_POINTS))))
  /\ loadExpectedResults zero_world t
     = Ok (Some (repeat (S754_zero false)
                   (Z.to_nat (NUM_INTERPOLATION_POINTS * NUM_VERIFIED_ITERATIONS)))).
Proof.
  unfold loadRaster, loadCoordinates, loadExpectedResults, toNativeByteOrder.
  rewrite !zero_world_reads by (vm_compute; split; discriminate).
  cbn [bind native zero_world endian_eqb].
  rewrite !chunks_repeat
    by (unfold WIDTH, HEIGHT, NUM_INTERPOLATION_POINTS, NUM_VERIFIED_ITERATIONS;
        lia).
  rewrite !map_repeat.
  change (word_native little (repeat Byte.x00 4)) with 0.
  change (word_native little (repeat Byte.x00 8)) with 0.
  change (swap64 0) with 0. change (swap32 0) with 0.
  change (decode64 0) with (S754_zero false).
  destruct (byteOrder t); repeat split; reflexivity.
Qed.

Lemma zero_world_returns (testNaN : bool) (order : endian) :
  (exists t',
      TestNaN.computeAndCompare zero_world (new_TestCase testNaN order) = Ok t')
  /\ (exists t',
        TestNodata.computeAndCompare zero_world (new_TestCase testNaN order)
        = Ok t').
Proof.
  destruct (new_TestCase_arrays testNaN order) as (Bs & Bn & Sp).
  destruct (zero_world_loads (new_TestCase testNaN order)) as (R & C & E).
  unfold TestNaN.computeAndCompare, TestNodata.computeAndCompare.
  rewrite R, C, E. cbn [bind].
  assert (Z.of_nat (List.length (repeat 0 (Z.to_nat (WIDTH * HEIGHT))))
          = WIDTH * HEIGHT) as L.
  { rewrite repeat_length. unfold WIDTH, HEIGHT. lia. }
  assert (Forall (fun w => nan_cell w = true)
            (repeat 0 (Z.to_nat (WIDTH * HEIGHT)))) as Cn
    by (apply Forall_repeat; reflexivity).
  assert (Forall nodata_cell (repeat 0 (Z.to_nat (WIDTH * HEIGHT)))) as Cs
    by (apply Forall_repeat; left; reflexivity).
  split.
  - exact (nan_iterations_return _ origin zero_expectations _ L Cn
             origin_valid origin_in_range zero_expectations_length Bs Bn Sp).
  - exact (nodata_iterations_return _ origin zero_expectations _ L Cs
             origin_valid origin_in_range zero_expectations_length Bs Bn Sp).
Qed.

(** ** Runs of a new harness *)

Lemma new_TestCase_tallied (testNaN : bool) (testByteOrder : endian)
    (coords : list double) :
  tallied 0 0 {| coordinates := coords; expectedResultCursor := 0;
                 stats := S754_zero false;
                 self := new_TestCase testNaN testByteOrder |}.
Proof.
  split; [exact I|]. cbn [self new_TestCase errorStatistics nodataMismatches].
  split; [apply Forall_repeat; exact I|]. split; [apply repeat_length|].
  split; [apply repeat_length|]. intros j c R.
  assert (c = 0) as ->.
  { unfold read in R. destruct (j <? 0); [discriminate|].
    apply nth_error_In, repeat_spec in R. exact R. }
  repeat split; intros; unfold NUM_INTERPOLATION_POINTS; lia.
Qed.

Lemma counted_all (k : Z) (counts : list Z) :
  counted NUM_VERIFIED_ITERATIONS k counts ->
  Forall (fun c => 0 <= c <= NUM_INTERPOLATION_POINTS) counts.
Proof.
  intros [L C]. apply Forall_forall. intros c I.
  apply In_nth_error in I as [n E].
  assert (n < List.length counts)%nat as B
    by (apply nth_error_Some; congruence).
  destruct (C (Z.of_nat n) c) as (A & _ & _).
  - unfold read. destruct (Z.ltb_spec (Z.of_nat n) 0); [lia|].
    rewrite Nat2Z.id. exact E.
  - apply A. rewrite L in B. lia.
Qed.

Lemma new_harness_run (w : World) (testNaN : bool) (testByteOrder : endian)
    (t' : TestCase) :
  computeAndCompare w (new_TestCase testNaN testByteOrder) = Ok t' ->
  Forall nonnegative (errorStatistics t')
  /\ List.length (errorStatistics t') = Z.to_nat NUM_VERIFIED_ITERATIONS
  /\ List.length (nodataMismatches t') = Z.to_nat NUM_VERIFIED_ITERATIONS
  /\ Forall (fun c => 0 <= c <= NUM_INTERPOLATION_POINTS) (nodataMismatches t').
Proof.
  set (t := new_TestCase testNaN testByteOrder).
  assert (forall t1, tallied NUM_VERIFIED_ITERATIONS 0
                       {| coordinates := []; expectedResultCursor := 0;
                          stats := S754_zero false; self := t1 |} -> 
          Forall nonnegative (errorStatistics t1)
          /\ List.length (errorStatistics t1) = Z.to_nat NUM_VERIFIED_ITERATIONS
          /\ List.length (nodataMismatches t1) = Z.to_nat NUM_VERIFIED_ITERATIONS
          /\ Forall (fun c => 0 <= c <= NUM_INTERPOLATION_POINTS)
                    (nodataMismatches t1)) as Fin.
  { intros t1 (_ & F & L & C). cbn [self] in *.
    repeat split; auto; [exact (proj1 C)|exact (counted_all _ _ C)]. }
  assert (Fin0 : tallied NUM_VERIFIED_ITERATIONS 0
                   {| coordinates := []; expectedResultCursor := 0;
                      stats := S754_zero false; self := t |}).
  { destruct (new_TestCase_tallied testNaN testByteOrder []) as (A & B & C & D).
    split; [exact A|]. split; [exact B|]. split; [exact C|].
    cbn [self] in *. fold t in D. destruct D as [L D]. split; [exact L|].
    intros j c R. destruct (D j c R) as (_ & D0 & D1).
    pose proof (read_some_bounds _ _ _ R) as Bj. rewrite L in Bj.
    assert (c = 0) as ->.
    { destruct (Z.eq_dec j 0) as [->|N]; [specialize (D0 eq_refl); lia|].
      apply D1. lia. }
    repeat split; intros; unfold NUM_INTERPOLATION_POINTS; lia. }
  assert (forall s', tallied (0 + Z.of_nat (Z.to_nat NUM_VERIFIED_ITERATIONS)) 0 s' ->
            tallied NUM_VERIFIED_ITERATIONS 0
              {| coordinates := []; expectedResultCursor := 0;
                 stats := S754_zero false; self := self s' |}) as Re.
  { intros s' (_ & B & C & D). split; [exact I|]. auto. }
  unfold computeAndCompare. fold t.
  assert (useNaN t = testNaN) as -> by reflexivity.
  destruct testNaN.
  - unfold TestNaN.computeAndCompare.
    destruct (loadRaster w t) as [[r|]| | |]; cbn [bind]; try discriminate;
      [|intros [= <-]; exact (Fin _ Fin0)].
    destruct (loadCoordinates w t) as [[c|]| | |]; cbn [bind]; try discriminate;
      [|intros [= <-]; exact (Fin _ Fin0)].
    destruct (loadExpectedResults w t) as [[e|]| | |]; cbn [bind];
      try discriminate; [|intros [= <-]; exact (Fin _ Fin0)].
    unfold TestNaN.iterations.
    destruct (for_loop _ _ _ _) as [s1| | |] eqn:L; cbn [bind]; try discriminate.
    intros [= <-]. apply Fin, Re.
    refine (iterations_tallied TestNaN.sample (fun _ _ _ _ b => isnan b)
              TestNaN.iteration nan_sample_inv _ (fun _ _ _ _ => eq_refl)
              r e _ 0 _ s1 (new_TestCase_tallied true testByteOrder c) L).
    intros raster expectedResults it i s s' H.
    exact (nan_sample_self _ _ _ _ _ _ H).
  - unfold TestNodata.computeAndCompare.
    destruct (loadRaster w t) as [[r|]| | |]; cbn [bind]; try discriminate;
      [|intros [= <-]; exact (Fin _ Fin0)].
    destruct (loadCoordinates w t) as [[c|]| | |]; cbn [bind]; try discriminate;
      [|intros [= <-]; exact (Fin _ Fin0)].
    destruct (loadExpectedResults w t) as [[e|]| | |]; cbn [bind];
      try discriminate; [|intros [= <-]; exact (Fin _ Fin0)].
    unfold TestNodata.iterations.
    destruct (for_loop _ _ _ _) as [s1| | |] eqn:L; cbn [bind]; try discriminate.
    intros [= <-]. apply Fin, Re.
    refine (iterations_tallied TestNodata.sample
              (fun v00 v01 v10 v11 _ =>
                 TestNodata.isMissing (TestNodata.combine v00 v01 v10 v11))
              TestNodata.iteration nodata_sample_inv _ (fun _ _ _ _ => eq_refl)
              r e _ 0 _ s1 (new_TestCase_tallied false testByteOrder c) L).
    intros raster expectedResults it i s s' H.
    exact (nodata_sample_self _ _ _ _ _ _ H).
Qed.

(** ** The verdict of the driver *)

Lemma resultEquals_from_statistics (n : nat) (i : Z) (t o o' : TestCase) :
  statistics o = statistics o' ->
  resultEquals_from n i t o = resultEquals_from n i t o'.
Proof.
  unfold statistics. intros [= Es Ms]. revert i.
  induction n as [|n IH]; intros i; cbn [resultEquals_from]; [reflexivity|].
  rewrite Es, Ms, IH. reflexivity.
Qed.

Lemma resultEquals_statistics (t o o' : TestCase) :
  statistics o = statistics o' -> resultEquals t o = resultEquals t o'.
Proof. intros E. apply resultEquals_from_statistics, E. Qed.

Lemma success_statistics (t t' : TestCase) :
  statistics t = statistics t' -> success t = success t'.
Proof. unfold statistics, success. intros [= _ ->]. reflexivity. Qed.

Lemma nonnegative_proper (d : double) : nonnegative d -> proper d.
Proof. destruct d as [[|]|[|]| |[|] m e]; cbn; intros []; split; discriminate. Qed.

Lemma resultEquals_refl (t : TestCase) :
  Forall nonnegative (errorStatistics t) ->
  List.length (errorStatistics t) = Z.to_nat NUM_VERIFIED_ITERATIONS ->
  resultEquals t t = true.
Proof.
  intros F L. unfold resultEquals. apply resultEquals_from_spec; [lia|].
  intros j B. split; [|reflexivity].
  apply deq_exact. split; [|left; reflexivity].
  assert (nonnegative (nth (Z.to_nat j) (errorStatistics t) S754_nan)) as N.
  { apply nth_Forall; [exact F|]. rewrite L. lia. }
  intros E. rewrite E in N. exact N.
Qed.

Lemma main_closed_form (fuel : nat) (w : World) :
  (5 <= fuel)%nat ->
  main fuel w
  = Some (r <- TestNodata.computeAndCompare w (new_TestNodata big) ;;
          n1 <- TestNodata.computeAndCompare w (new_TestNodata little) ;;
          n2 <- TestNaN.computeAndCompare w (new_TestNaN big) ;;
          n3 <- TestNaN.computeAndCompare w (new_TestNaN little) ;;
          Ok (report r [r; n1; n2; n3] n2, 0)).
Proof.
  intros F. unfold main. rewrite (testAndCompare_closed_form fuel w _ F).
  f_equal.
  destruct (TestNodata.computeAndCompare w (new_TestNodata big)) as [r| | |];
    cbn [bind omap]; try reflexivity.
  destruct (TestNodata.computeAndCompare w (new_TestNodata little)) as [n1| | |];
    cbn [bind omap]; try reflexivity.
  destruct (TestNaN.computeAndCompare w (new_TestNaN big)) as [n2| | |];
    cbn [bind omap]; try reflexivity.
  destruct (TestNaN.computeAndCompare w (new_TestNaN little)) as [n3| | |];
    cbn [bind omap]; reflexivity.
Qed.

Lemma main_returned (fuel : nat) (w : World) (out : list output) (code : Z) :
  (5 <= fuel)%nat -> main fuel w = Some (Ok (out, code)) ->
  exists r n1 n2 n3,
    TestNodata.computeAndCompare w (new_TestNodata big) = Ok r
    /\ TestNodata.computeAndCompare w (new_TestNodata little) = Ok n1
    /\ TestNaN.computeAndCompare w (new_TestNaN big) = Ok n2
    /\ TestNaN.computeAndCompare w (new_TestNaN little) = Ok n3
    /\ out = report r [r; n1; n2; n3] n2 /\ code = 0.
Proof.
  intros F. rewrite (main_closed_form fuel w F). intros [= H].
  destruct (TestNodata.computeAndCompare w (new_TestNodata big)) as [r| | |];
    cbn [bind] in H; try discriminate H.
  destruct (TestNodata.computeAndCompare w (new_TestNodata little)) as [n1| | |];
    cbn [bind] in H; try discriminate H.
  destruct (TestNaN.computeAndCompare w (new_TestNaN big)) as [n2| | |];
    cbn [bind] in H; try discriminate H.
  destruct (TestNaN.computeAndCompare w (new_TestNaN little)) as [n3| | |];
    cbn [bind] in H; try discriminate H.
  injection H as <- <-. exists r, n1, n2, n3. repeat split; reflexivity.
Qed.

Lemma zero_world_main :
  exists out, main 5 zero_world = Some (Ok (out, 0)).
Proof.
  rewrite main_closed_form by lia. unfold new_TestNodata, new_TestNaN.
  destruct (zero_world_returns false big) as [_ [r ->]].
  destruct (zero_world_returns false little) as [_ [n1 ->]].
  destruct (zero_world_returns true big) as [[n2 ->] _].
  destruct (zero_world_returns true little) as [[n3 ->] _].
  cbn [bind]. eauto.
Qed.

Lemma load_failure_returns (w : World) (t : TestCase) :
  some_load_fails w t ->
  TestNaN.computeAndCompare w t = Ok t /\ TestNodata.computeAndCompare w t = Ok t.
Proof.
  unfold TestNaN.computeAndCompare, TestNodata.computeAndCompare.
  intros [R|(raster & R & [C|(coords & C & E)])];
    rewrite R; cbn [bind]; try rewrite C; cbn [bind]; try rewrite E; cbn [bind];
    split; reflexivity.
Qed.

Lemma report_of_equal (r n1 n2 n3 : TestCase) :
  resultEquals r r = true ->
  statistics n1 = statistics r -> statistics n2 = statistics r ->
  statistics n3 = statistics r ->
  report r [r; n1; n2; n3] n2
  = if success r then printStatistics n2 ++ [Text success_message]
    else [Text failure_message].
Proof.
  intros E S1 S2 S3. unfold report. cbn [filter forallb flat_map].
  rewrite (resultEquals_statistics r n1 r S1), (resultEquals_statistics r n2 r S2),
          (resultEquals_statistics r n3 r S3), E.
  rewrite (success_statistics n1 r S1), (success_statistics n2 r S2),
          (success_statistics n3 r S3).
  cbn [negb flat_map app]. destruct (success r); reflexivity.
Qed.

Lemma nodata_run_of_new (rs : list Z) (coords expectedResults : list double)
    (testNaN : bool) (order : endian) :
  TestNodata.iterations rs coords expectedResults (new_TestCase testNaN order)
  = omap (with_statistics (new_TestCase testNaN order))
         (TestNodata.iterations rs coords expectedResults (new_TestNodata big)).
Proof.
  rewrite <- nodata_iterations_frame. reflexivity.
Qed.

(** ** The driver and the program *)

(** X1. [testAndCompare] runs the receiver, then the little-endian sentinel
    harness, then the two NaN harnesses, and ends as the first of them that
    does not return.  When all four return it has printed the statistics
    of every harness whose results differ from the receiver's, followed by
    the statistics of the big-endian NaN harness and the success message
    when every [success()] was true and nothing differed, and by the
    failure message otherwise.  Five rounds of its loop are enough. *)
Theorem testAndCompare_report (fuel : nat) (w : World) (receiver : TestCase) :
  (5 <= fuel)%nat ->
  testAndCompare fuel w receiver
  = Some (r <- TestNodata.computeAndCompare w receiver ;;
          n1 <- TestNodata.computeAndCompare w (new_TestNodata little) ;;
          n2 <- TestNaN.computeAndCompare w (new_TestNaN big) ;;
          n3 <- TestNaN.computeAndCompare w (new_TestNaN little) ;;
          Ok (report r [r; n1; n2; n3] n2)).
Proof. exact (testAndCompare_closed_form fuel w receiver). Qed.

Lemma testAndCompare_report_witness :
  testAndCompare 5 empty_world (new_TestNodata big)
  = Some (r <- TestNodata.computeAndCompare empty_world (new_TestNodata big) ;;
          n1 <- TestNodata.computeAndCompare empty_world (new_TestNodata little) ;;
          n2 <- TestNaN.computeAndCompare empty_world (new_TestNaN big) ;;
          n3 <- TestNaN.computeAndCompare empty_world (new_TestNaN little) ;;
          Ok (report r [r; n1; n2; n3] n2)).
Proof.
  exact (testAndCompare_report 5 empty_world (new_TestNodata big) (le_n 5)).
Defined.

(** X2. When [main] returns, it returns 0 whatever the verdict.  Its output
    ends with the success message exactly when the four harnesses all
    report [success()] and all compare equal to the reference; the output
    is then the statistics of the big-endian NaN harness and that message.
    Otherwise it is the statistics of the harnesses that differ from the
    reference, which is never one of them, and the failure message. *)
Theorem main_verdict (fuel : nat) (w : World) (out : list output) (code : Z) :
  (5 <= fuel)%nat -> main fuel w = Some (Ok (out, code)) ->
  code = 0
  /\ exists r n1 n2 n3,
       TestNodata.computeAndCompare w (new_TestNodata big) = Ok r
       /\ TestNodata.computeAndCompare w (new_TestNodata little) = Ok n1
       /\ TestNaN.computeAndCompare w (new_TestNaN big) = Ok n2
       /\ TestNaN.computeAndCompare w (new_TestNaN little) = Ok n3
       /\ let passed :=
            forallb (fun t => success t && resultEquals r t) [r; n1; n2; n3] in
          (passed = true ->
           out = printStatistics n2 ++ [Text success_message])
          /\ (passed = false ->
              out = flat_map printStatistics
                      (filter (fun t => negb (resultEquals r t)) [n1; n2; n3])
                    ++ [Text failure_message]).
Proof.
  intros F H.
  destruct (main_returned fuel w out code F H)
    as (r & n1 & n2 & n3 & R & N1 & N2 & N3 & -> & ->).
  split; [reflexivity|]. exists r, n1, n2, n3.
  repeat (split; [assumption|]).
  destruct (new_harness_run w false big r R) as (Fr & Lr & _).
  pose proof (resultEquals_refl r Fr Lr) as E.
  unfold report. cbn [filter forallb flat_map]. rewrite E. cbn [negb andb].
  cbv zeta. split; intros P; rewrite P.
  - rewrite !andb_true_r in P.
    apply andb_prop in P as [_ P]. apply andb_prop in P as [P1 P].
    apply andb_prop in P as [P2 P3].
    apply andb_prop in P1 as [_ ->]. apply andb_prop in P2 as [_ ->].
    apply andb_prop in P3 as [_ ->]. reflexivity.
  - reflexivity.
Qed.

Lemma main_verdict_witness :
  exists out code, main 5 zero_world = Some (Ok (out, code)) /\ code = 0.
Proof.
  destruct zero_world_main as [out H]. exists out, 0. split; [exact H|].
  exact (proj1 (main_verdict 5 zero_world out 0 (le_n 5) H)).
Defined.

(** X3. When, for each of the four harnesses, one of its three files
    cannot be loaded, nothing is computed and the program still reports a
    success: it prints the zero statistics of the big-endian NaN harness
    and the success message, and returns 0. *)
Theorem missing_files_pass (fuel : nat) (w : World) :
  (5 <= fuel)%nat ->
  (forall testNaN order, some_load_fails w (new_TestCase testNaN order)) ->
  main fuel w
  = Some (Ok (printStatistics (new_TestNaN big) ++ [Text success_message], 0)).
Proof.
  intros F L. rewrite (main_closed_form fuel w F).
  unfold new_TestNodata, new_TestNaN.
  rewrite (proj2 (load_failure_returns w _ (L false big))).
  rewrite (proj2 (load_failure_returns w _ (L false little))).
  rewrite (proj1 (load_failure_returns w _ (L true big))).
  rewrite (proj1 (load_failure_returns w _ (L true little))).
  reflexivity.
Qed.

Lemma missing_files_pass_witness :
  main 5 empty_world
  = Some (Ok (printStatistics (new_TestNaN big) ++ [Text success_message], 0)).
Proof.
  apply (missing_files_pass 5 empty_world (le_n 5)).
  intros testNaN order. left. reflexivity.
Defined.

(** X4. When the program ends by a call of [exit], the code is 1: the
    bound check of the two variants is the only place that exits.  The
    loop of the driver is over after five rounds, and more fuel changes
    nothing. *)
Theorem main_stops (fuel : nat) (w : World) :
  (5 <= fuel)%nat ->
  exists c, main fuel w = Some c /\ main 5 w = Some c
            /\ forall code, c = Exit code -> code = 1.
Proof.
  intros F. rewrite (main_closed_form fuel w F), (main_closed_form 5 w (le_n 5)).
  eexists. split; [reflexivity|]. split; [reflexivity|].
  intros code E.
  assert (stops_as (fun code => code = 1) (heap_fails w)
            (r <- TestNodata.computeAndCompare w (new_TestNodata big) ;;
             n1 <- TestNodata.computeAndCompare w (new_TestNodata little) ;;
             n2 <- TestNaN.computeAndCompare w (new_TestNaN big) ;;
             n3 <- TestNaN.computeAndCompare w (new_TestNaN little) ;;
             Ok (report r [r; n1; n2; n3] n2, 0))) as S.
  { apply stops_bind; [apply nodata_computeAndCompare_stops|intros r].
    apply stops_bind; [apply nodata_computeAndCompare_stops|intros n1].
    apply stops_bind; [apply nan_computeAndCompare_stops|intros n2].
    apply stops_bind; [apply nan_computeAndCompare_stops|intros n3].
    apply stops_ok. }
  rewrite E in S. exact S.
Qed.

(** X5. On consistent files (a NaN raster and a sentinel raster that hold
    the same cells, each the same in both byte orders, and the same
    coordinates and expected results for the four harnesses) the four
    harnesses end alike; when they return no difference is reported, and
    the verdict is the [success()] of the reference. *)
Theorem consistent_files_verdict (fuel : nat) (w : World) (rn rs : list Z)
    (coords expectedResults : list double) :
  (5 <= fuel)%nat ->
  Forall2 same_cell rn rs ->
  (forall order, loadRaster w (new_TestNaN order) = Ok (Some rn)
                 /\ loadRaster w (new_TestNodata order) = Ok (Some rs)) ->
  (forall testNaN order,
      loadCoordinates w (new_TestCase testNaN order) = Ok (Some coords)
      /\ loadExpectedResults w (new_TestCase testNaN order)
         = Ok (Some expectedResults)) ->
  main fuel w
  = Some (omap (fun r =>
                  (if success r
                   then printStatistics (with_statistics (new_TestNaN big) r)
                        ++ [Text success_message]
                   else [Text failure_message], 0))
               (TestNodata.iterations rs coords expectedResults
                  (new_TestNodata big))).
Proof.
  intros F C R L. rewrite (main_closed_form fuel w F). f_equal.
  assert (Forall valid_double coords) as V
    by exact (loadCoordinates_valid w _ coords (proj1 (L false big))).
  unfold TestNaN.computeAndCompare, TestNodata.computeAndCompare.
  unfold new_TestNaN, new_TestNodata in *.
  rewrite (proj2 (R big)), (proj2 (R little)), (proj1 (R big)), (proj1 (R little)).
  cbn [bind].
  rewrite (proj1 (L false big)), (proj1 (L false little)).
  rewrite (proj1 (L true big)), (proj1 (L true little)).
  cbn [bind].
  rewrite (proj2 (L false big)), (proj2 (L false little)),
          (proj2 (L true big)), (proj2 (L true little)).
  cbn [bind].
  rewrite (iterations_equiv rn rs coords expectedResults
             (new_TestCase true big) C V),
          (iterations_equiv rn rs coords expectedResults
             (new_TestCase true little) C V).
  rewrite (nodata_run_of_new rs coords expectedResults false little),
          (nodata_run_of_new rs coords expectedResults true big),
          (nodata_run_of_new rs coords expectedResults true little).
  unfold new_TestNodata.
  destruct (TestNodata.iterations rs coords expectedResults
              (new_TestCase false big))
    as [r| | |] eqn:H; cbn [bind omap]; try reflexivity.
  f_equal. f_equal.
  apply report_of_equal; try reflexivity.
  assert (computeAndCompare w (new_TestCase false big) = Ok r) as Run.
  { unfold computeAndCompare. cbn [useNaN new_TestCase].
    unfold TestNodata.computeAndCompare.
    rewrite (proj2 (R big)). cbn [bind].
    rewrite (proj1 (L false big)). cbn [bind].
    rewrite (proj2 (L false big)). cbn [bind]. exact H. }
  destruct (new_harness_run w false big r Run) as (Fr & Lr & _).
  exact (resultEquals_refl r Fr Lr).
Qed.

(** ** The statistics of a run *)

(** X6. A run of [computeAndCompare] on a new harness leaves ten mismatch
    counts, each between 0 and the number of interpolation points: a round
    counts each of its points at most once, and no count overflows. *)
Theorem mismatch_counts_bounded (w : World) (testNaN : bool) (order : endian)
    (t' : TestCase) :
  computeAndCompare w (new_TestCase testNaN order) = Ok t' ->
  List.length (nodataMismatches t') = Z.to_nat NUM_VERIFIED_ITERATIONS
  /\ Forall (fun c => 0 <= c <= NUM_INTERPOLATION_POINTS) (nodataMismatches t').
Proof.
  intros H. destruct (new_harness_run w testNaN order t' H) as (_ & _ & L & F).
  exact (conj L F).
Qed.

Lemma mismatch_counts_bounded_witness :
  exists t', computeAndCompare zero_world (new_TestCase true big) = Ok t'
    /\ List.length (nodataMismatches t') = Z.to_nat NUM_VERIFIED_ITERATIONS
    /\ Forall (fun c => 0 <= c <= NUM_INTERPOLATION_POINTS) (nodataMismatches t').
Proof.
  destruct (zero_world_returns true big) as [[t' H] _].
  exists t'. split; [exact H|].
  exact (mismatch_counts_bounded zero_world true big t' H).
Defined.

(** X7. A run of [computeAndCompare] on a new harness leaves ten error
    statistics, each of them [+0], a positive number or [+infinity]: a
    maximum of absolute values is never negative and never a NaN. *)
Theorem error_statistics_nonnegative (w : World) (testNaN : bool)
    (order : endian) (t' : TestCase) :
  computeAndCompare w (new_TestCase testNaN order) = Ok t' ->
  List.length (errorStatistics t') = Z.to_nat NUM_VERIFIED_ITERATIONS
  /\ Forall nonnegative (errorStatistics t').
Proof.
  intros H. destruct (new_harness_run w testNaN order t' H) as (F & L & _).
  exact (conj L F).
Qed.

Lemma error_statistics_nonnegative_witness :
  exists t', computeAndCompare zero_world (new_TestCase false little) = Ok t'
    /\ List.length (errorStatistics t') = Z.to_nat NUM_VERIFIED_ITERATIONS
    /\ Forall nonnegative (errorStatistics t').
Proof.
  destruct (zero_world_returns false little) as [_ [t' H]].
  exists t'. split; [exact H|].
  exact (error_statistics_nonnegative zero_world false little t' H).
Defined.

(** ** What a sample does with the expected value *)






(** ** Coordinates without an integer part *)

(** X9. A point whose [x] or [y] has no integer part of type [int] (a NaN
    or an infinity read from the coordinates file, for instance) is not
    caught by the bound check: the conversion [(int) yb] or [(int) xb] is
    undefined behaviour, in both variants. *)
Theorem unrepresentable_coordinate_is_undefined (raster : list Z)
    (expectedResults : list double) (it i : Z) (s : Locals) (x y : double) :
  read (coordinates s) (Z.shiftl i 1) = Some x ->
  read (coordinates s) (Z.lor (Z.shiftl i 1) 1) = Some y ->
  unrepresentable x \/ unrepresentable y ->
  TestNaN.sample raster expectedResults it i s = Undefined
  /\ TestNodata.sample raster expectedResults it i s = Undefined.
Proof.
  unfold unrepresentable. intros Rx Ry U.
  unfold TestNaN.sample, TestNodata.sample. cbv zeta.
  rewrite Rx, Ry. cbn [defined bind].
  destruct (d2i (dfloor y)) as [cy|] eqn:Cy; cbn [defined bind];
    [|split; reflexivity].
  destruct U as [U|U]; [|discriminate U].
  rewrite U. split; reflexivity.
Qed.

Lemma unrepresentable_coordinate_is_undefined_witness :
  TestNaN.sample (repeat 0x3F800000 4005) [i2d 1] 0 0
    (at_point (i2d 3) S754_nan (new_TestCase true big)) = Undefined
  /\ TestNodata.sample (repeat 0x3F800000 4005) [i2d 1] 0 0
       (at_point (i2d 3) S754_nan (new_TestCase true big)) = Undefined.
Proof.
  apply (unrepresentable_coordinate_is_undefined _ _ 0 0
           (at_point (i2d 3) S754_nan (new_TestCase true big))
           (i2d 3) S754_nan).
  - reflexivity.
  - reflexivity.
  - right. reflexivity.
Defined.

(** ** The two tests for a missing sample *)

Lemma leb_max (a b : Z) : (0 <=? Z.max a b) = (0 <=? a) || (0 <=? b).
Proof.
  destruct (Z.leb_spec 0 a), (Z.leb_spec 0 b), (Z.leb_spec 0 (Z.max a b));
    try reflexivity; lia.
Qed.

Lemma rank_nan_valid (w r : Z) :
  rank_nan w r -> negb (valid_sample w) = (0 <=? r).
Proof.
  intros [[-> V]|[B ->]]; [rewrite V; reflexivity|].
  assert (r = 0 \/ r = 1 \/ r = 2 \/ r = 3) as [-> | [-> | [-> | ->]]] by lia;
    reflexivity.
Qed.

Lemma rank_nodata_valid (w r : Z) :
  rank_nodata w r -> negb (valid_sample w) = (0 <=? r).
Proof.
  intros [[-> V]|[B D]]; [rewrite V; reflexivity|].
  unfold valid_sample. rewrite D.
  assert (r = 0 \/ r = 1 \/ r = 2 \/ r = 3) as [-> | [-> | [-> | ->]]] by lia;
    cbn [i2f]; rewrite andb_false_r; reflexivity.
Qed.

Lemma rank_nodata_unique (w r k : Z) :
  rank_nodata w r -> sentinel_of w k -> r = k.
Proof.
  intros R [Bk Dk].
  pose proof (rank_nodata_valid w r R) as V.
  pose proof (rank_nodata_valid w k (or_intror (conj Bk Dk))) as V'.
  rewrite V in V'. destruct R as [[-> _]|[Br Dr]].
  - destruct (Z.leb_spec 0 k); [discriminate V'|lia].
  - rewrite Dr in Dk. rewrite !i2f_sentinel in Dk by assumption.
    apply finite_inj in Dk as (_ & M & _).
    apply (f_equal Zpos) in M. rewrite !Z2Pos.id in M by lia. lia.
Qed.

(** X10. [TestNaN] tests for a missing sample after the interpolation, and
    the test is exact: for four corners of the data model and a point with
    finite coordinates, the interpolated value is a NaN if and only if one
    of the corners is not a valid sample.  No overflow and no difference of
    infinities makes a NaN out of valid samples. *)
Theorem nan_test_finds_missing_corners (v00 v01 v10 v11 : Z) (x y : double)
    (cx cy : Z) :
  Forall (fun v => nan_cell v = true) [v00; v01; v10; v11] ->
  valid_double x -> valid_double y ->
  d2i (dfloor x) = Some cx -> d2i (dfloor y) = Some cy ->
  isnan (bilinear v00 v01 v10 v11 (dsub x (dfloor x)) (dsub y (dfloor y)))
  = existsb (fun v => negb (valid_sample v)) [v00; v01; v10; v11].
Proof.
  intros F Vx Vy Cx Cy.
  inversion F as [|? ? C00 F1]; subst. inversion F1 as [|? ? C01 F2]; subst.
  inversion F2 as [|? ? C10 F3]; subst. inversion F3 as [|? ? C11 _]; subst.
  apply nan_cell_rank in C00 as [r00 R00]. apply nan_cell_rank in C01 as [r01 R01].
  apply nan_cell_rank in C10 as [r10 R10]. apply nan_cell_rank in C11 as [r11 R11].
  destruct (fraction_fin x cx (valid_binary_wf x Vx) Cx) as [_ Fx].
  destruct (fraction_fin y cy (valid_binary_wf y Vy) Cy) as [_ Fy].
  rewrite (nan_isnan_rank v00 v01 v10 v11 r00 r01 r10 r11 _ _ R00 R01 R10 R11 Fx Fy).
  cbn [existsb].
  rewrite (rank_nan_valid _ _ R00), (rank_nan_valid _ _ R01),
          (rank_nan_valid _ _ R10), (rank_nan_valid _ _ R11).
  rewrite !leb_max, orb_false_r, !orb_assoc. reflexivity.
Qed.

Lemma nan_test_finds_missing_corners_witness :
  isnan (bilinear 0x3F800000 0x7FC00002 0 0x42C80000
           (dsub (i2d 3) (dfloor (i2d 3))) (dsub (i2d 4) (dfloor (i2d 4))))
  = existsb (fun v => negb (valid_sample v))
            [0x3F800000; 0x7FC00002; 0; 0x42C80000].
Proof.
  apply (nan_test_finds_missing_corners _ _ _ _ (i2d 3) (i2d 4) 3 4).
  - repeat constructor.
  - reflexivity.
  - reflexivity.
  - reflexivity.
  - reflexivity.
Defined.

(** X11. [TestNodata] tests the maximum of the four corners against the
    threshold before it interpolates.  For corners of the data model the
    test succeeds if and only if one of them is not a valid sample, and the
    maximum is then the sentinel of the reason that has precedence among
    those present. *)
Theorem sentinel_test_finds_dominant_reason (v00 v01 v10 v11 : Z) :
  Forall nodata_cell [v00; v01; v10; v11] ->
  TestNodata.isMissing (TestNodata.combine v00 v01 v10 v11)
  = existsb (fun v => negb (valid_sample v)) [v00; v01; v10; v11]
  /\ (TestNodata.isMissing (TestNodata.combine v00 v01 v10 v11) = true ->
      exists k,
        sentinel_of (TestNodata.combine v00 v01 v10 v11) k
        /\ (exists v, In v [v00; v01; v10; v11] /\ sentinel_of v k)
        /\ (forall v k', In v [v00; v01; v10; v11] -> sentinel_of v k' ->
                         k' <= k)).
Proof.
  intros F.
  inversion F as [|? ? C00 F1]; subst. inversion F1 as [|? ? C01 F2]; subst.
  inversion F2 as [|? ? C10 F3]; subst. inversion F3 as [|? ? C11 _]; subst.
  apply nodata_cell_rank in C00 as [r00 R00].
  apply nodata_cell_rank in C01 as [r01 R01].
  apply nodata_cell_rank in C10 as [r10 R10].
  apply nodata_cell_rank in C11 as [r11 R11].
  pose proof (nodata_combine_rank _ _ _ _ _ _ _ _ R00 R01 R10 R11) as R.
  rewrite (isMissing_rank _ _ R). split.
  - cbn [existsb].
    rewrite (rank_nodata_valid _ _ R00), (rank_nodata_valid _ _ R01),
            (rank_nodata_valid _ _ R10), (rank_nodata_valid _ _ R11).
    rewrite !leb_max, orb_false_r, !orb_assoc. reflexivity.
  - intros P. apply Z.leb_le in P.
    exists (Z.max (Z.max r00 r01) (Z.max r10 r11)).
    assert (forall w r, rank_nodata w r -> 0 <= r -> sentinel_of w r) as S.
    { intros w r [[-> _]|[B D]] N; [lia|split; assumption]. }
    split; [exact (S _ _ R P)|]. split.
    + destruct (Z.max_spec (Z.max r00 r01) (Z.max r10 r11)) as [[_ E]|[_ E]];
        rewrite E in *;
        [destruct (Z.max_spec r10 r11) as [[_ E']|[_ E']]
        |destruct (Z.max_spec r00 r01) as [[_ E']|[_ E']]];
        rewrite E' in *.
      * exists v11. split; [cbn; auto|exact (S _ _ R11 P)].
      * exists v10. split; [cbn; auto|exact (S _ _ R10 P)].
      * exists v01. split; [cbn; auto|exact (S _ _ R01 P)].
      * exists v00. split; [cbn; auto|exact (S _ _ R00 P)].
    + intros v k' I Sk.
      destruct I as [<-|[<-|[<-|[<-|[]]]]].
      * rewrite <- (rank_nodata_unique _ _ _ R00 Sk). lia.
      * rewrite <- (rank_nodata_unique _ _ _ R01 Sk). lia.
      * rewrite <- (rank_nodata_unique _ _ _ R10 Sk). lia.
      * rewrite <- (rank_nodata_unique _ _ _ R11 Sk). lia.
Qed.

Lemma sentinel_test_finds_dominant_reason_witness :
  TestNodata.isMissing (TestNodata.combine 0x3F800000 0x461C4800 0 0x461C4400)
  = existsb (fun v => negb (valid_sample v))
            [0x3F800000; 0x461C4800; 0; 0x461C4400].
Proof.
  assert (Forall nodata_cell [0x3F800000; 0x461C4800; 0; 0x461C4400]) as F.
  { constructor; [left; reflexivity|].
    constructor; [right; exists 2; split; [lia|reflexivity]|].
    constructor; [left; reflexivity|].
    constructor; [right; exists 1; split; [lia|reflexivity]|constructor]. }
  exact (proj1 (sentinel_test_finds_dominant_reason _ _ _ _ F)).
Defined.

(** ** The interpolation at a node of the grid *)

Lemma dfma_by_zero (K : Z) (a z : double) (sy : bool) :
  fin K a -> fin K z ->
  match z with
  | S754_zero _ => exists s', dfma a (S754_zero sy) z = S754_zero s'
  | _ => dfma a (S754_zero sy) z = z
  end.
Proof.
  destruct a as [sa| | |sa ma ea], z as [sz| | |sz mz ez]; cbn [fin];
    try contradiction; intros _ _; cbn [dfma]; try reflexivity;
    destruct (Bool.eqb _ sz); eauto.
Qed.

Lemma dfma_by_zero_fin (K : Z) (a z : double) (sy : bool) :
  fin K a -> fin K z ->
  fin K (dfma a (S754_zero sy) z)
  /\ deq (dfma a (S754_zero sy) z) z = true
  /\ (forall s m e, z = S754_finite s m e -> dfma a (S754_zero sy) z = z).
Proof.
  intros A Z. pose proof (dfma_by_zero K a z sy A Z) as H.
  destruct z as [sz| | |sz mz ez]; cbn [fin] in Z; try contradiction.
  - destruct H as [s' ->]. split; [exact I|]. split; [|discriminate].
    destruct s', sz; reflexivity.
  - rewrite H. split; [exact Z|]. split; [|reflexivity].
    apply deq_exact. split; [discriminate|left; reflexivity].
Qed.

(** X12. At a node of the grid, where both fractions are zero, the
    bilinear interpolation of four valid samples gives back the sample
    [v00]: the same number when it is not a zero, and a zero otherwise. *)
Theorem interpolation_at_a_node (v00 v01 v10 v11 : Z) (sx sy : bool) :
  Forall (fun v => valid_sample v = true) [v00; v01; v10; v11] ->
  deq (bilinear v00 v01 v10 v11 (S754_zero sx) (S754_zero sy)) (f2d v00) = true
  /\ (forall s m e, f2d v00 = S754_finite s m e ->
        bilinear v00 v01 v10 v11 (S754_zero sx) (S754_zero sy) = f2d v00).
Proof.
  intros F.
  inversion F as [|? ? C00 F1]; subst. inversion F1 as [|? ? C01 F2]; subst.
  inversion F2 as [|? ? C10 F3]; subst. inversion F3 as [|? ? C11 _]; subst.
  apply f2d_fin in C00, C01, C10, C11.
  assert (forall a b, fin 129 a -> fin 129 b -> fin 131 (dsub a b)) as D
    by (intros a b A B; apply (dsub_fin 129); (lia || assumption)).
  assert (forall d, fin 129 d -> fin 131 d) as M
    by (intros d; apply fin_mono; lia).
  unfold bilinear.
  destruct (dfma_by_zero_fin 131 _ _ sx (D _ _ C01 C00) (M _ C00))
    as (F0 & E0 & X0).
  destruct (dfma_by_zero_fin 131 _ _ sx (D _ _ C11 C10) (M _ C10))
    as (F1' & _ & _).
  set (v0 := dfma (dsub (f2d v01) (f2d v00)) (S754_zero sx) (f2d v00)) in *.
  set (v1 := dfma (dsub (f2d v11) (f2d v10)) (S754_zero sx) (f2d v10)) in *.
  assert (fin 133 (dsub v1 v0)) as Dv
    by (apply (dsub_fin 131); (lia || assumption)).
  destruct (dfma_by_zero_fin 133 (dsub v1 v0) v0 sy Dv
              (fin_mono 131 133 v0 ltac:(lia) F0)) as (_ & E1 & X1).
  split.
  - destruct (f2d v00) as [s0| | |s0 m0 e0] eqn:V; cbn [fin] in C00;
      try contradiction.
    + apply deq_exact in E0 as [N0 [->|(s & s' & -> & _)]];
        apply deq_exact in E1 as [N1 [->|(t & t' & -> & _)]];
        reflexivity.
    + rewrite (X0 _ _ _ eq_refl) in *. rewrite (X1 _ _ _ eq_refl).
      apply deq_exact. split; [discriminate|left; reflexivity].
  - intros s m e V. rewrite (X0 _ _ _ V) in *. rewrite (X1 _ _ _ V). reflexivity.
Qed.

Lemma interpolation_at_a_node_witness :
  deq (bilinear 0x42C80000 0x3F800000 0 0xC2C80000
         (S754_zero false) (S754_zero false)) (f2d 0x42C80000) = true.
Proof.
  refine (proj1 (interpolation_at_a_node 0x42C80000 0x3F800000 0 0xC2C80000
                   false false _)).
  repeat constructor.
Defined.

(** ** Bytes and words *)

Lemma byte_val_range (b : Byte.byte) : 0 <= byte_val b < 256.
Proof. destruct b; vm_compute; split; discriminate || reflexivity. Qed.

Lemma land_byte (x k : Z) :
  0 <= x -> 0 <= k -> Z.land x (255 * 2 ^ k) = ((x / 2 ^ k) mod 256) * 2 ^ k.
Proof.
  intros X K. change 255 with (Z.ones 8).
  rewrite <- !Z.shiftl_mul_pow2 by lia. rewrite <- Z.shiftr_div_pow2 by lia.
  change 256 with (2 ^ 8). rewrite <- Z.land_ones by lia.
  apply Z.bits_inj'. intros n N.
  rewrite Z.land_spec. destruct (Z.lt_ge_cases n k) as [L|G].
  - rewrite !Z.shiftl_spec_low by lia. apply andb_false_r.
  - rewrite !Z.shiftl_spec by lia. rewrite Z.land_spec.
    rewrite Z.shiftr_spec by lia. replace (n - k + k) with n by lia.
    reflexivity.
Qed.

Lemma lor_disjoint (a b k : Z) :
  0 <= a < 2 ^ k -> 0 <= b -> 0 <= k -> Z.lor a (b * 2 ^ k) = a + b * 2 ^ k.
Proof.
  intros A B K. symmetry. rewrite <- Z.shiftl_mul_pow2 by lia.
  rewrite <- Z.lxor_lor.
  - apply Z.add_nocarry_lxor.
    apply Z.bits_inj'. intros n N. rewrite Z.land_spec, Z.bits_0.
    destruct (Z.lt_ge_cases n k) as [L|G].
    + rewrite Z.shiftl_spec_low by lia. apply andb_false_r.
    + replace a with (a mod 2 ^ k) by (apply Z.mod_small; lia).
      rewrite Z.mod_pow2_bits_high by lia. reflexivity.
  - apply Z.bits_inj'. intros n N. rewrite Z.land_spec, Z.bits_0.
    destruct (Z.lt_ge_cases n k) as [L|G].
    + rewrite Z.shiftl_spec_low by lia. apply andb_false_r.
    + replace a with (a mod 2 ^ k) by (apply Z.mod_small; lia).
      rewrite Z.mod_pow2_bits_high by lia. reflexivity.
Qed.

Lemma swap32_bytes (b0 b1 b2 b3 : Z) :
  0 <= b0 < 256 -> 0 <= b1 < 256 -> 0 <= b2 < 256 -> 0 <= b3 < 256 ->
  swap32 (b0 + 256 * (b1 + 256 * (b2 + 256 * (b3 + 256 * 0))))
  = b3 + 256 * (b2 + 256 * (b1 + 256 * (b0 + 256 * 0))).
Proof.
  intros B0 B1 B2 B3. unfold swap32, Int32.uwrap, Int32.modulus.
  set (v := b0 + 256 * (b1 + 256 * (b2 + 256 * (b3 + 256 * 0)))).
  assert (0 <= v < 4294967296) as V by (unfold v; lia).
  rewrite !Z.shiftr_div_pow2, !Z.shiftl_mul_pow2 by lia.
  change 0x00FF0000 with (255 * 2 ^ 16). change 0x0000FF00 with (255 * 2 ^ 8).
  rewrite (land_byte ((v * 2 ^ 8) mod 2 ^ 32) 16), (land_byte (v / 2 ^ 8) 8);
    try lia;
    [|apply Z.div_pos; [lia|reflexivity]
     |apply (Z.mod_pos_bound (v * 2 ^ 8) (2 ^ 32) eq_refl)].
  change (2 ^ 32) with 4294967296. change (2 ^ 24) with 16777216.
  change (2 ^ 16) with 65536. change (2 ^ 8) with 256.
  assert (v / 16777216 = b3) as ->
    by (unfold v; Z.div_mod_to_equations; lia).
  assert (((v * 256) mod 4294967296 / 65536) mod 256 = b1) as ->
    by (unfold v; Z.div_mod_to_equations; lia).
  assert ((v / 256 / 256) mod 256 = b2) as ->
    by (unfold v; Z.div_mod_to_equations; lia).
  assert ((v * 16777216) mod 4294967296 = b0 * 16777216) as ->
    by (unfold v; Z.div_mod_to_equations; lia).
  rewrite <- (Z.lor_assoc b3), (Z.lor_comm (b1 * 65536)), (Z.lor_assoc b3).
  change 256 with (2 ^ 8) at 1. rewrite (lor_disjoint b3 b2 8) by lia.
  change 65536 with (2 ^ 16).
  rewrite (lor_disjoint (b3 + b2 * 2 ^ 8) b1 16) by lia.
  change 16777216 with (2 ^ 24).
  rewrite (lor_disjoint _ b0 24) by lia.
  lia.
Qed.

Lemma div_high (lo hi k x : Z) :
  0 <= k -> 0 <= lo < 2 ^ k -> x = lo + hi * 2 ^ k -> x / 2 ^ k = hi.
Proof.
  intros K Lo ->. assert (0 < 2 ^ k) by (apply Z.pow_pos_nonneg; lia).
  rewrite Z.div_add by lia. rewrite Z.div_small by lia. reflexivity.
Qed.

Lemma mod_low (lo hi k x : Z) :
  0 <= k -> 0 <= lo < 2 ^ k -> x = lo + hi * 2 ^ k -> x mod 2 ^ k = lo.
Proof.
  intros K Lo ->. assert (0 < 2 ^ k) by (apply Z.pow_pos_nonneg; lia).
  rewrite Z.mod_add by lia. apply Z.mod_small. exact Lo.
Qed.

Lemma byte_at (lo hi b k k8 x : Z) :
  k8 = k + 8 -> 0 <= k -> 0 <= lo < 2 ^ k -> 0 <= b < 256 ->
  x = lo + b * 2 ^ k + hi * 2 ^ k8 -> (x / 2 ^ k) mod 256 = b.
Proof.
  intros -> K Lo B ->. assert (0 < 2 ^ k) by (apply Z.pow_pos_nonneg; lia).
  rewrite (div_high lo (b + hi * 256) k); try lia.
  - rewrite Z.mod_add by lia. apply Z.mod_small. exact B.
  - rewrite Z.pow_add_r by lia. change (2 ^ 8) with 256. ring.
Qed.

Lemma lor_insert (lo hi b k k8 x : Z) :
  k8 = k + 8 -> 0 <= k -> 0 <= lo < 2 ^ k -> 0 <= b < 256 -> 0 <= hi ->
  x = lo + hi * 2 ^ k8 ->
  Z.lor x (b * 2 ^ k) = lo + b * 2 ^ k + hi * 2 ^ k8.
Proof.
  intros -> K Lo B Hi ->.
  assert (0 < 2 ^ k) as P by (apply Z.pow_pos_nonneg; lia).
  assert (2 ^ (k + 8) = 2 ^ k * 256) as E
    by (rewrite Z.pow_add_r by lia; reflexivity).
  rewrite <- (lor_disjoint lo hi (k + 8)) by (rewrite ?E; nia).
  rewrite <- Z.lor_assoc, (Z.lor_comm (hi * _)), Z.lor_assoc.
  rewrite (lor_disjoint lo b k) by lia.
  rewrite (lor_disjoint (lo + b * 2 ^ k) hi (k + 8)) by (rewrite ?E; nia).
  reflexivity.
Qed.

Lemma swap64_bytes (b0 b1 b2 b3 b4 b5 b6 b7 : Z) :
  0 <= b0 < 256 -> 0 <= b1 < 256 -> 0 <= b2 < 256 -> 0 <= b3 < 256 ->
  0 <= b4 < 256 -> 0 <= b5 < 256 -> 0 <= b6 < 256 -> 0 <= b7 < 256 ->
  swap64 (b0 + 256 * (b1 + 256 * (b2 + 256 * (b3 + 256 * (b4 + 256 *
            (b5 + 256 * (b6 + 256 * (b7 + 256 * 0))))))))
  = b7 + 256 * (b6 + 256 * (b5 + 256 * (b4 + 256 * (b3 + 256 *
        (b2 + 256 * (b1 + 256 * (b0 + 256 * 0))))))).
Proof.
  intros B0 B1 B2 B3 B4 B5 B6 B7. unfold swap64, uwrap64.
  set (v := b0 + 256 * (b1 + 256 * (b2 + 256 * (b3 + 256 * (b4 + 256 *
              (b5 + 256 * (b6 + 256 * (b7 + 256 * 0)))))))).
  assert (0 <= v < 18446744073709551616) as V by (unfold v; lia).
  rewrite !Z.shiftr_div_pow2, !Z.shiftl_mul_pow2 by lia.
  change 0x00FF000000000000 with (255 * 2 ^ 48).
  change 0x0000FF0000000000 with (255 * 2 ^ 40).
  change 0x000000FF00000000 with (255 * 2 ^ 32).
  change 0x00000000FF000000 with (255 * 2 ^ 24).
  change 0x0000000000FF0000 with (255 * 2 ^ 16).
  change 0x000000000000FF00 with (255 * 2 ^ 8).
  rewrite (land_byte ((v * 2 ^ 40) mod 2 ^ 64) 48),
          (land_byte ((v * 2 ^ 24) mod 2 ^ 64) 40),
          (land_byte ((v * 2 ^ 8) mod 2 ^ 64) 32),
          (land_byte (v / 2 ^ 8) 24), (land_byte (v / 2 ^ 24) 16),
          (land_byte (v / 2 ^ 40) 8);
    try lia;
    try (apply Z.div_pos; [lia|reflexivity]);
    try (apply (Z.mod_pos_bound _ (2 ^ 64) eq_refl)).
  set (h1 := b1 + 256 * (b2 + 256 * (b3 + 256 * (b4 + 256 * (b5 + 256 *
               (b6 + 256 * b7)))))).
  set (h3 := b3 + 256 * (b4 + 256 * (b5 + 256 * (b6 + 256 * b7)))).
  set (h5 := b5 + 256 * (b6 + 256 * b7)).
  assert (v / 2 ^ 56 = b7) as ->.
  { apply (div_high (v - b7 * 2 ^ 56)); unfold v; lia. }
  assert (((v * 2 ^ 40) mod 2 ^ 64 / 2 ^ 48) mod 256 = b1) as ->.
  { rewrite (mod_low ((b0 + 256 * (b1 + 256 * b2)) * 2 ^ 40) h3 64)
      by (unfold v, h3; lia).
    apply (byte_at (b0 * 2 ^ 40) b2 b1 48 56); lia. }
  assert (((v * 2 ^ 24) mod 2 ^ 64 / 2 ^ 40) mod 256 = b2) as ->.
  { rewrite (mod_low ((b0 + 256 * (b1 + 256 * (b2 + 256 * (b3 + 256 * b4))))
                      * 2 ^ 24) h5 64)
      by (unfold v, h5; lia).
    apply (byte_at ((b0 + 256 * b1) * 2 ^ 24) (b3 + 256 * b4) b2 40 48); lia. }
  assert (((v * 2 ^ 8) mod 2 ^ 64 / 2 ^ 32) mod 256 = b3) as ->.
  { rewrite (mod_low ((v - b7 * 2 ^ 56) * 2 ^ 8) b7 64) by (unfold v; lia).
    apply (byte_at ((b0 + 256 * (b1 + 256 * b2)) * 2 ^ 8)
                   (b4 + 256 * (b5 + 256 * b6)) b3 32 40); unfold v; lia. }
  assert ((v / 2 ^ 8 / 2 ^ 24) mod 256 = b4) as ->.
  { rewrite (div_high b0 h1 8 v) by (unfold v, h1; lia).
    apply (byte_at (b1 + 256 * (b2 + 256 * b3)) h5 b4 24 32); unfold h1, h5; lia. }
  assert ((v / 2 ^ 24 / 2 ^ 16) mod 256 = b5) as ->.
  { rewrite (div_high (b0 + 256 * (b1 + 256 * b2)) h3 24 v)
      by (unfold v, h3; lia).
    apply (byte_at (b3 + 256 * b4) (b6 + 256 * b7) b5 16 24); unfold h3; lia. }
  assert ((v / 2 ^ 40 / 2 ^ 8) mod 256 = b6) as ->.
  { rewrite (div_high (b0 + 256 * (b1 + 256 * (b2 + 256 * (b3 + 256 * b4))))
               h5 40 v) by (unfold v, h5; lia).
    apply (byte_at b5 b7 b6 8 16); unfold h5; lia. }
  assert ((v * 2 ^ 56) mod 2 ^ 64 = b0 * 2 ^ 56) as ->.
  { apply (mod_low (b0 * 2 ^ 56) h1 64); unfold v, h1; lia. }
  clear h1 h3 h5.
  rewrite (lor_disjoint b7 b1 48) by lia.
  rewrite (lor_insert b7 b1 b2 40 48 _) by lia.
  rewrite (lor_insert b7 (b2 + b1 * 2 ^ 8) b3 32 40 _) by lia.
  rewrite (lor_insert b7 (b3 + b2 * 2 ^ 8 + b1 * 2 ^ 16) b4 24 32 _) by lia.
  rewrite (lor_insert b7 (b4 + b3 * 2 ^ 8 + b2 * 2 ^ 16 + b1 * 2 ^ 24)
             b5 16 24 _) by lia.
  rewrite (lor_insert b7 (b5 + b4 * 2 ^ 8 + b3 * 2 ^ 16 + b2 * 2 ^ 24
                          + b1 * 2 ^ 32) b6 8 16 _) by lia.
  rewrite (lor_disjoint _ b0 56) by lia.
  lia.
Qed.

Lemma word_le_4 (a b c d : Byte.byte) :
  swap32 (word_le [a; b; c; d]) = word_le [d; c; b; a].
Proof.
  cbn [word_le].
  apply swap32_bytes; apply byte_val_range.
Qed.

Lemma word_le_8 (a b c d e f g h : Byte.byte) :
  swap64 (word_le [a; b; c; d; e; f; g; h]) = word_le [h; g; f; e; d; c; b; a].
Proof.
  cbn [word_le].
  apply swap64_bytes; apply byte_val_range.
Qed.

Lemma swap32_rev (bs : list Byte.byte) :
  List.length bs = 4%nat -> swap32 (word_le bs) = word_le (rev bs).
Proof.
  destruct bs as [|a [|b [|c [|d [|e bs]]]]]; try discriminate.
  intros _. apply word_le_4.
Qed.

Lemma swap64_rev (bs : list Byte.byte) :
  List.length bs = 8%nat -> swap64 (word_le bs) = word_le (rev bs).
Proof.
  destruct bs as [|a [|b [|c [|d [|e [|f [|g [|h [|i bs]]]]]]]]];
    try discriminate.
  intros _. apply word_le_8.
Qed.

(** X13. The shifts and masks of [loadRaster] reverse the four bytes of a
    word, and doing it twice gives the word back. *)
Theorem swap32_reverses_bytes (bs : list Byte.byte) :
  List.length bs = 4%nat ->
  swap32 (word_le bs) = word_le (rev bs)
  /\ swap32 (swap32 (word_le bs)) = word_le bs.
Proof.
  intros L. split; [exact (swap32_rev bs L)|].
  rewrite (swap32_rev bs L), swap32_rev by (rewrite length_rev; exact L).
  rewrite rev_involutive. reflexivity.
Qed.

Lemma swap32_reverses_bytes_witness :
  swap32 (word_le [Byte.x00; Byte.x00; Byte.x80; Byte.x3f])
  = word_le (rev [Byte.x00; Byte.x00; Byte.x80; Byte.x3f])
  /\ swap32 (swap32 (word_le [Byte.x00; Byte.x00; Byte.x80; Byte.x3f]))
     = word_le [Byte.x00; Byte.x00; Byte.x80; Byte.x3f].
Proof.
  exact (swap32_reverses_bytes [Byte.x00; Byte.x00; Byte.x80; Byte.x3f] eq_refl).
Defined.

(** X14. The shifts and masks of [toNativeByteOrder] reverse the eight
    bytes of a word, and doing it twice gives the word back. *)
Theorem swap64_reverses_bytes (bs : list Byte.byte) :
  List.length bs = 8%nat ->
  swap64 (word_le bs) = word_le (rev bs)
  /\ swap64 (swap64 (word_le bs)) = word_le bs.
Proof.
  intros L. split; [exact (swap64_rev bs L)|].
  rewrite (swap64_rev bs L), swap64_rev by (rewrite length_rev; exact L).
  rewrite rev_involutive. reflexivity.
Qed.

Lemma swap64_reverses_bytes_witness :
  swap64 (word_le [Byte.x40; Byte.x08; Byte.x00; Byte.x00;
                   Byte.x00; Byte.x00; Byte.x00; Byte.x01])
  = word_le (rev [Byte.x40; Byte.x08; Byte.x00; Byte.x00;
                  Byte.x00; Byte.x00; Byte.x00; Byte.x01])
  /\ swap64 (swap64 (word_le [Byte.x40; Byte.x08; Byte.x00; Byte.x00;
                              Byte.x00; Byte.x00; Byte.x00; Byte.x01]))
     = word_le [Byte.x40; Byte.x08; Byte.x00; Byte.x00;
                Byte.x00; Byte.x00; Byte.x00; Byte.x01].
Proof.
  exact (swap64_reverses_bytes
           [Byte.x40; Byte.x08; Byte.x00; Byte.x00;
            Byte.x00; Byte.x00; Byte.x00; Byte.x01] eq_refl).
Defined.

(** ** The loaders and the byte order of the host *)

Lemma chunks_lengths (k n : nat) (bs : list Byte.byte) :
  (k * n <= List.length bs)%nat ->
  Forall (fun c => List.length c = k) (chunks k n bs)
  /\ List.length (chunks k n bs) = n.
Proof.
  revert bs. induction n as [|n IH]; intros bs L; cbn [chunks].
  - split; [constructor|reflexivity].
  - destruct (IH (skipn k bs)) as [F E]; [rewrite length_skipn; lia|].
    split; [|cbn; rewrite E; reflexivity].
    constructor; [|exact F]. rewrite length_firstn. lia.
Qed.

Lemma map_ext_Forall {A B} (P : A -> Prop) (f g : A -> B) (l : list A) :
  Forall P l -> (forall a, P a -> f a = g a) -> map f l = map g l.
Proof.
  intros F E. induction F as [|a l Pa F IH]; cbn; [reflexivity|].
  rewrite (E a Pa), IH. reflexivity.
Qed.

Lemma readAllBytes_length (w : World) (file : string) (numBytes : Z)
    (bs : list Byte.byte) :
  readAllBytes w file numBytes = Ok (Some bs) ->
  List.length bs = Z.to_nat numBytes.
Proof.
  unfold readAllBytes. destruct (files w file) as [content|]; [|discriminate].
  destruct (_ && _); [|discriminate].
  destruct (Z.leb_spec numBytes (Z.of_nat (List.length content)));
    [|discriminate].
  intros [= <-]. rewrite length_firstn. lia.
Qed.

Lemma loadRaster_file_order (w : World) (t : TestCase) :
  loadRaster w t
  = omap (option_map (fun bs =>
            map (word_native (byteOrder t))
                (chunks 4 (Z.to_nat (WIDTH * HEIGHT)) bs)))
         (readAllBytes w (rasterFile t) (WIDTH * HEIGHT * 4))
  /\ (forall raster, loadRaster w t = Ok (Some raster) ->
        Z.of_nat (List.length raster) = WIDTH * HEIGHT).
Proof.
  unfold loadRaster.
  destruct (readAllBytes w (rasterFile t) (WIDTH * HEIGHT * 4))
    as [[bs|]| | |] eqn:R; cbn [bind omap option_map];
    try (split; [reflexivity|discriminate]).
  apply readAllBytes_length in R.
  destruct (chunks_lengths 4 (Z.to_nat (WIDTH * HEIGHT)) bs) as [F E];
    [rewrite R; unfold WIDTH, HEIGHT; lia|].
  remember (chunks 4 (Z.to_nat (WIDTH * HEIGHT)) bs) as cs eqn:Hcs.
  clear Hcs R. split.
  - f_equal. f_equal.
    destruct (native w), (byteOrder t); cbn [endian_eqb word_native].
    + reflexivity.
    + rewrite map_map. apply (map_ext_Forall _ _ _ _ F). intros c Lc.
      cbn [word_native]. apply swap32_rev, Lc.
    + rewrite map_map. apply (map_ext_Forall _ _ _ _ F). intros c Lc.
      cbn [word_native]. rewrite swap32_rev by (rewrite length_rev; exact Lc).
      apply f_equal, rev_involutive.
    + reflexivity.
  - intros raster [= <-].
    destruct (endian_eqb _ _); rewrite ?length_map, E;
      unfold WIDTH, HEIGHT; lia.
Qed.

(** X15. The raster that [loadRaster] returns does not depend on the byte
    order of the host: each cell is the group of four bytes of the file
    read in the byte order the harness declares for the file, and there
    are [WIDTH * HEIGHT] cells. *)
Theorem loadRaster_reads_in_file_order (w : World) (t : TestCase) :
  loadRaster w t
  = omap (option_map (fun bs =>
            map (word_native (byteOrder t))
                (chunks 4 (Z.to_nat (WIDTH * HEIGHT)) bs)))
         (readAllBytes w (rasterFile t) (WIDTH * HEIGHT * 4))
  /\ (forall raster, loadRaster w t = Ok (Some raster) ->
        Z.of_nat (List.length raster) = WIDTH * HEIGHT).
Proof. exact (loadRaster_file_order w t). Qed.

Lemma toNativeByteOrder_big (w : World) (numValues : Z) (bs : list Byte.byte) :
  List.length bs = Z.to_nat (numValues * 8) ->
  toNativeByteOrder w numValues (Some bs)
  = Some (map (fun c => decode64 (word_native big c))
              (chunks 8 (Z.to_nat numValues) bs))
  /\ List.length (chunks 8 (Z.to_nat numValues) bs) = Z.to_nat numValues.
Proof.
  intros L. unfold toNativeByteOrder.
  destruct (chunks_lengths 8 (Z.to_nat numValues) bs) as [F E]; [lia|].
  split; [|exact E].
  remember (chunks 8 (Z.to_nat numValues) bs) as cs eqn:Hcs. clear Hcs.
  f_equal. rewrite <- (map_map (word_native big) decode64 cs). f_equal.
  destruct (native w); cbn [endian_eqb]; [|reflexivity].
  rewrite map_map. apply (map_ext_Forall _ _ _ _ F). intros c Lc.
  cbn [word_native]. apply swap64_rev, Lc.
Qed.

Lemma load_doubles_big (w : World) (file : string) (numValues : Z) :
  0 <= numValues ->
  (bytes <- readAllBytes w file (numValues * 8) ;;
   Ok (toNativeByteOrder w numValues bytes))
  = omap (option_map (fun bs =>
            map (fun c => decode64 (word_native big c))
                (chunks 8 (Z.to_nat numValues) bs)))
         (readAllBytes w file (numValues * 8))
  /\ (forall values,
        (bytes <- readAllBytes w file (numValues * 8) ;;
         Ok (toNativeByteOrder w numValues bytes)) = Ok (Some values) ->
        Z.of_nat (List.length values) = numValues).
Proof.
  intros N.
  destruct (readAllBytes w file (numValues * 8)) as [[bs|]| | |] eqn:R;
    cbn [bind omap option_map]; try (split; [reflexivity|discriminate]).
  apply readAllBytes_length in R.
  destruct (toNativeByteOrder_big w numValues bs R) as [E L]. rewrite E.
  split; [reflexivity|]. intros values [= <-]. rewrite length_map, L. lia.
Qed.

(** X16. The coordinates and the expected results are always the groups
    of eight bytes of their file read as big-endian doubles, whatever the
    byte order of the host; there are two coordinates for each point and
    one expected result for each point of each round. *)
Theorem doubles_are_read_big_endian (w : World) (t : TestCase) :
  (loadCoordinates w t
   = omap (option_map (fun bs =>
             map (fun c => decode64 (word_native big c))
                 (chunks 8 (Z.to_nat (2 * NUM_INTERPOLATION_POINTS)) bs)))
          (readAllBytes w (coordinatesFile t)
             (2 * NUM_INTERPOLATION_POINTS * 8))
   /\ forall coords, loadCoordinates w t = Ok (Some coords) ->
        Z.of_nat (List.length coords) = 2 * NUM_INTERPOLATION_POINTS)
  /\ (loadExpectedResults w t
      = omap (option_map (fun bs =>
                map (fun c => decode64 (word_native big c))
                    (chunks 8 (Z.to_nat (NUM_INTERPOLATION_POINTS
                                         * NUM_VERIFIED_ITERATIONS)) bs)))
             (readAllBytes w (expectedResultsFile t)
                (NUM_INTERPOLATION_POINTS * NUM_VERIFIED_ITERATIONS * 8))
      /\ forall expectedResults,
           loadExpectedResults w t = Ok (Some expectedResults) ->
           Z.of_nat (List.length expectedResults)
           = NUM_INTERPOLATION_POINTS * NUM_VERIFIED_ITERATIONS).
Proof.
  unfold loadCoordinates, loadExpectedResults. split.
  - apply (load_doubles_big w (coordinatesFile t) (2 * NUM_INTERPOLATION_POINTS)).
    unfold NUM_INTERPOLATION_POINTS. lia.
  - apply (load_doubles_big w (expectedResultsFile t)
             (NUM_INTERPOLATION_POINTS * NUM_VERIFIED_ITERATIONS)).
    unfold NUM_INTERPOLATION_POINTS, NUM_VERIFIED_ITERATIONS. lia.
Qed.

(** ** The comparison of two harnesses *)

Lemma deq_sym (a b : double) : deq a b = deq b a.
Proof.
  apply eq_true_iff_eq. rewrite !deq_exact. split.
  - intros [N [<-|(s & s' & -> & ->)]].
    + split; [exact N|left; reflexivity].
    + split; [discriminate|right; eauto].
  - intros [N [<-|(s & s' & -> & ->)]].
    + split; [exact N|left; reflexivity].
    + split; [discriminate|right; eauto].
Qed.

Lemma resultEquals_from_sym (n : nat) (i : Z) (t o : TestCase) :
  resultEquals_from n i t o = resultEquals_from n i o t.
Proof.
  revert i. induction n as [|n IH]; intros i; cbn [resultEquals_from];
    [reflexivity|].
  rewrite (deq_sym (nth (Z.to_nat i) (errorStatistics t) S754_nan)),
          (Z.eqb_sym (nth (Z.to_nat i) (nodataMismatches t) 0)), IH.
  reflexivity.
Qed.

Lemma success_from_ext (n : nat) (i : Z) (a b : list Z) :
  0 <= i ->
  (forall j, i <= j < i + Z.of_nat n ->
             nth (Z.to_nat j) a 0 = nth (Z.to_nat j) b 0) ->
  success_from n i a = success_from n i b.
Proof.
  revert i. induction n as [|n IH]; intros i I E; cbn [success_from];
    [reflexivity|].
  rewrite (E i) by lia. rewrite (IH (i + 1)) by (try lia; intros j B; apply E; lia).
  reflexivity.
Qed.

(** X17. [resultEquals] does not depend on which of the two harnesses is
    the receiver, and two harnesses it finds equal give the same answer to
    [success()]. *)
Theorem resultEquals_symmetric (t other : TestCase) :
  resultEquals t other = resultEquals other t
  /\ (resultEquals t other = true -> success t = success other).
Proof.
  split; [apply resultEquals_from_sym|].
  unfold resultEquals, success. intros H.
  pose proof (proj1 (resultEquals_from_spec _ 0 t other ltac:(lia)) H) as E.
  apply success_from_ext; [lia|]. intros j B. apply E, B.
Qed.

(** ** Files that conform to the data model *)

Lemma ok_some_inj {A} (a b : A) : Ok (Some a) = Ok (Some b) -> a = b.
Proof. intros [= E]. exact E. Qed.

Lemma load_returns (w : World) (t : TestCase) :
  ~ heap_fails w ->
  (exists r, loadRaster w t = Ok r)
  /\ (exists c, loadCoordinates w t = Ok c)
  /\ (exists e, loadExpectedResults w t = Ok e).
Proof.
  intros H. unfold heap_fails in H.
  assert (forall n, heap_serves w n = false \/ heap_serves w n = true) as D
    by (intros n; destruct (heap_serves w n); auto).
  assert (forall file n, 0 <= n -> heap_serves w n <> false ->
            exists r, readAllBytes w file n = Ok r) as R.
  { intros file n N S. apply (readAllBytes_served w file n N).
    destruct (D n); [contradiction|assumption]. }
  unfold loadRaster, loadCoordinates, loadExpectedResults.
  repeat split.
  - destruct (R (rasterFile t) (WIDTH * HEIGHT * 4)) as [r ->];
      [vm_compute; discriminate|tauto|cbn [bind]; eauto].
  - destruct (R (coordinatesFile t) (2 * NUM_INTERPOLATION_POINTS * 8)) as [r ->];
      [vm_compute; discriminate|tauto|cbn [bind]; eauto].
  - destruct (R (expectedResultsFile t)
                (NUM_INTERPOLATION_POINTS * NUM_VERIFIED_ITERATIONS * 8))
      as [r ->]; [vm_compute; discriminate|tauto|cbn [bind]; eauto].
Qed.

Lemma conforming_harness_returns (w : World) (testNaN : bool) (order : endian) :
  ~ heap_fails w ->
  conforming w (new_TestCase testNaN order)
    (if testNaN then fun v => nan_cell v = true else nodata_cell) ->
  exists t', (if testNaN then TestNaN.computeAndCompare
              else TestNodata.computeAndCompare) w (new_TestCase testNaN order)
             = Ok t'.
Proof.
  intros H C. set (t := new_TestCase testNaN order) in *.
  destruct (load_returns w t H) as ([r R] & [c Cd] & [e E]).
  assert (forall raster coords expected,
            r = Some raster -> c = Some coords -> e = Some expected ->
            Z.of_nat (List.length raster) = WIDTH * HEIGHT
            /\ Forall valid_double coords
            /\ NUM_INTERPOLATION_POINTS * NUM_VERIFIED_ITERATIONS
               <= Z.of_nat (List.length expected)) as Sz.
  { intros raster coords expected -> -> ->.
    split; [exact (proj2 (loadRaster_file_order w t) raster R)|].
    split; [exact (loadCoordinates_valid w t coords Cd)|].
    unfold loadExpectedResults in E.
    rewrite (proj2 (load_doubles_big w (expectedResultsFile t)
                      (NUM_INTERPOLATION_POINTS * NUM_VERIFIED_ITERATIONS)
                      ltac:(vm_compute; discriminate)) expected E).
    lia. }
  destruct (new_TestCase_arrays testNaN order) as (Ls & Lm & Sp). fold t in Ls, Lm, Sp.
  unfold conforming in C. rewrite R, Cd in C.
  destruct testNaN;
    [unfold TestNaN.computeAndCompare|unfold TestNodata.computeAndCompare];
    rewrite R; cbn [bind];
    (destruct r as [raster|]; [|eauto]); rewrite Cd; cbn [bind];
    (destruct c as [coords|]; [|eauto]); rewrite E; cbn [bind];
    (destruct e as [expected|]; [|eauto]);
    destruct (Sz raster coords expected eq_refl eq_refl eq_refl) as (A1 & A2 & A3);
    destruct (C raster coords eq_refl eq_refl) as [Fc Pr].
  - apply nan_iterations_return; assumption.
  - apply nodata_iterations_return; assumption.
Qed.

(** X18. On files that conform to the data model (rasters of valid
    samples and missing markers, points in range) and with a heap that
    serves the three buffers, the program runs to its end: no harness
    leaves the raster, none exits, and [main] returns 0. *)
Theorem conforming_files_run_to_the_end (fuel : nat) (w : World) :
  (5 <= fuel)%nat -> ~ heap_fails w ->
  (forall order,
      conforming w (new_TestNaN order) (fun v => nan_cell v = true)
      /\ conforming w (new_TestNodata order) nodata_cell) ->
  exists out, main fuel w = Some (Ok (out, 0)).
Proof.
  intros F H C. rewrite (main_closed_form fuel w F).
  destruct (conforming_harness_returns w false big H (proj2 (C big))) as [r R].
  destruct (conforming_harness_returns w false little H (proj2 (C little)))
    as [n1 N1].
  destruct (conforming_harness_returns w true big H (proj1 (C big))) as [n2 N2].
  destruct (conforming_harness_returns w true little H (proj1 (C little)))
    as [n3 N3].
  unfold new_TestNodata, new_TestNaN. rewrite R, N1, N2, N3. cbn [bind]. eauto.
Qed.

Lemma conforming_files_run_to_the_end_witness :
  exists out, main 5 zero_world = Some (Ok (out, 0)).
Proof.
  apply (conforming_files_run_to_the_end 5 zero_world (le_n 5)).
  - intros [H|[H|H]]; discriminate H.
  - assert (forall t cell, cell 0 -> conforming zero_world t cell) as Z.
    { intros t cell C0 raster coords R Cd.
      destruct (zero_world_loads t) as (R' & Cd' & _).
      rewrite R' in R. rewrite Cd' in Cd.
      apply ok_some_inj in R, Cd. subst raster coords. split.
      - apply Forall_repeat, C0.
      - intros j B. exists (S754_zero false), (S754_zero false).
        unfold NUM_INTERPOLATION_POINTS in *.
        rewrite !read_repeat by lia. repeat split; reflexivity. }
    intros order. split; apply Z; [reflexivity|left; reflexivity].
Defined.

(** ** The printed statistics *)

Lemma printStatistics_from_length (n : nat) (i : Z) (t : TestCase) :
  List.length (printStatistics_from n i t) = n.
Proof.
  revert i. induction n as [|n IH]; intros i; cbn; [reflexivity|].
  rewrite IH. reflexivity.
Qed.

Lemma printStatistics_from_nth (n : nat) (i : Z) (t : TestCase) (k : nat)
    (d : output) :
  0 <= i -> (k < n)%nat ->
  nth k (printStatistics_from n i t) d
  = Printf ("%11.4f %6d" ++ newline)
           (nth (Z.to_nat (i + Z.of_nat k)) (errorStatistics t) S754_nan)
           (nth (Z.to_nat (i + Z.of_nat k)) (nodataMismatches t) 0).
Proof.
  revert i k. induction n as [|n IH]; intros i k I K; [lia|].
  cbn [printStatistics_from]. destruct k as [|k]; cbn [nth].
  - replace (i + Z.of_nat 0) with i by lia. reflexivity.
  - rewrite IH by lia. replace (i + 1 + Z.of_nat k) with (i + Z.of_nat (S k)) by lia.
    reflexivity.
Qed.

(** X19. [printStatistics] writes one line of text that tells the four
    harnesses apart (it names the encoding of the missing values and the
    byte order of the raster), then one [printf] for each of the ten
    rounds, in order, with the error statistic and the mismatch count of
    the round. *)
Theorem printStatistics_layout (t : TestCase) :
  (exists header lines,
      printStatistics t = Text header :: lines
      /\ List.length lines = Z.to_nat NUM_VERIFIED_ITERATIONS
      /\ forall i, 0 <= i < NUM_VERIFIED_ITERATIONS ->
           nth (Z.to_nat i) lines (Text EmptyString)
           = Printf ("%11.4f %6d" ++ newline)
                    (nth (Z.to_nat i) (errorStatistics t) S754_nan)
                    (nth (Z.to_nat i) (nodataMismatches t) 0))
  /\ (forall t',
        hd (Text EmptyString) (printStatistics t)
        = hd (Text EmptyString) (printStatistics t')
        <-> useNaN t = useNaN t' /\ byteOrder t = byteOrder t').
Proof.
  split.
  - eexists. eexists. split; [reflexivity|].
    split; [apply printStatistics_from_length|].
    intros i B. rewrite printStatistics_from_nth;
      [|lia|unfold NUM_VERIFIED_ITERATIONS in *; lia].
    rewrite Z.add_0_l, Z2Nat.id by lia. reflexivity.
  - intros t'. unfold printStatistics. cbn [hd].
    destruct (useNaN t), (useNaN t'), (byteOrder t), (byteOrder t');
      cbn [endian_eqb]; split;
      try (intros _; split; reflexivity);
      try reflexivity;
      try (intros [E1 E2]; discriminate);
      intros E; exfalso; vm_compute in E; discriminate E.
Qed.

(** ** The files of a harness *)

(** X20. The constructor gives each of the four harnesses a raster file of
    its own, named after the encoding of the missing values and the byte
    order; the coordinates and the expected results are files of the
    directory of the encoding, shared by the two byte orders. *)
Theorem harness_files (testNaN testNaN' : bool) (order order' : endian) :
  (rasterFile (new_TestCase testNaN order)
   = rasterFile (new_TestCase testNaN' order')
   <-> testNaN = testNaN' /\ order = order')
  /\ (coordinatesFile (new_TestCase testNaN order)
      = coordinatesFile (new_TestCase testNaN' order')
      <-> testNaN = testNaN')
  /\ (expectedResultsFile (new_TestCase testNaN order)
      = expectedResultsFile (new_TestCase testNaN' order')
      <-> testNaN = testNaN').
Proof.
  destruct testNaN, testNaN', order, order';
    (split; [|split]); split;
    try (intros _; try split; reflexivity);
    try (intros [E1 E2]; discriminate);
    try discriminate;
    intros E; exfalso; vm_compute in E; discriminate E.
Qed.

(** ** A NaN with its sign bit set *)

(** X21. The integer maximum finds the reason only among NaNs whose sign
    bit is clear.  A NaN corner with the sign bit set still makes the
    interpolated value a NaN, so the sample is taken as missing, but read
    as a signed integer it is negative: with three valid samples beside it
    the maximum is below [FIRST_QUIET_NAN] and none of the four reasons
    is found. *)
Theorem signed_nan_has_no_reason (p q01 q10 q11 : Z) (xf yf : double) :
  Int32.half <= p < Int32.modulus -> f2d p = S754_nan ->
  Forall (fun v => valid_sample v = true) [q01; q10; q11] ->
  isnan (bilinear p q01 q10 q11 xf yf) = true
  /\ TestNaN.combine p q01 q10 q11 < TestNaN.FIRST_QUIET_NAN
  /\ reasonIndex (TestNaN.combine p q01 q10 q11) = None.
Proof.
  intros B N F.
  inversion F as [|? ? V01 F1]; subst. inversion F1 as [|? ? V10 F2]; subst.
  inversion F2 as [|? ? V11 _]; subst.
  apply valid_sample_of_bits in V01, V10, V11.
  assert (Int32.of_bits p < 0) as Np.
  { unfold Int32.of_bits, Int32.half, Int32.modulus in *.
    change (2 ^ 31) with 2147483648 in *. change (2 ^ 32) with 4294967296 in *.
    destruct (Z.ltb_spec p 2147483648); lia. }
  assert (TestNaN.combine p q01 q10 q11 < TestNaN.FIRST_QUIET_NAN) as C.
  { unfold TestNaN.combine. rewrite !Int32_max_is_max.
    unfold TestNaN.FIRST_QUIET_NAN in *. lia. }
  split; [|split; [exact C|]].
  - rewrite bilinear_nan; [reflexivity|]. left. exact N.
  - unfold reasonIndex.
    destruct (Z.leb_spec TestNaN.FIRST_QUIET_NAN (TestNaN.combine p q01 q10 q11));
      [lia|reflexivity].
Qed.

Lemma signed_nan_has_no_reason_witness :
  isnan (bilinear 0xFFC00001 0x3F800000 0 0x42C80000 (S754_zero false)
           (S754_zero false)) = true
  /\ TestNaN.combine 0xFFC00001 0x3F800000 0 0x42C80000
     < TestNaN.FIRST_QUIET_NAN
  /\ reasonIndex (TestNaN.combine 0xFFC00001 0x3F800000 0 0x42C80000) = None.
Proof.
  apply (signed_nan_has_no_reason 0xFFC00001 0x3F800000 0 0x42C80000).
  - split; [discriminate|reflexivity].
  - reflexivity.
  - repeat constructor.
Defined.

(** ** The three ways a sample can end *)








(** ** The same raster in the two byte orders *)

(** X23. A harness that reads its raster from a big-endian file and one
    that reads it from a little-endian file load the same cells when the
    second file holds the groups of four bytes of the first, each group
    reversed. *)
Theorem byte_orders_load_the_same_raster (w : World) (tb tl : TestCase)
    (bb bl : list Byte.byte) :
  byteOrder tb = big -> byteOrder tl = little ->
  readAllBytes w (rasterFile tb) (WIDTH * HEIGHT * 4) = Ok (Some bb) ->
  readAllBytes w (rasterFile tl) (WIDTH * HEIGHT * 4) = Ok (Some bl) ->
  chunks 4 (Z.to_nat (WIDTH * HEIGHT)) bl
  = map (@rev Byte.byte) (chunks 4 (Z.to_nat (WIDTH * HEIGHT)) bb) ->
  loadRaster w tb = loadRaster w tl.
Proof.
  intros Ob Ol Rb Rl C.
  rewrite (proj1 (loadRaster_file_order w tb)), (proj1 (loadRaster_file_order w tl)).
  rewrite Rb, Rl, Ob, Ol. cbn [omap bind option_map]. rewrite C.
  rewrite map_map. reflexivity.
Qed.

(** ** A world whose points lie outside the raster *)

Lemma length_concat_repeat (c : list Byte.byte) (m : nat) :
  List.length (List.concat (repeat c m)) = (List.length c * m)%nat.
Proof.
  induction m as [|m IH]; cbn [repeat List.concat]; [cbn; lia|].
  rewrite length_app, IH. lia.
Qed.

Lemma firstn_concat_repeat (c : list Byte.byte) (k m : nat) :
  (k <= m)%nat ->
  firstn (List.length c * k) (List.concat (repeat c m)) = List.concat (repeat c k).
Proof.
  revert m. induction k as [|k IH]; intros m L.
  - rewrite Nat.mul_0_r. reflexivity.
  - destruct m as [|m]; [lia|]. cbn [repeat List.concat].
    replace (List.length c * S k)%nat with (List.length c + List.length c * k)%nat
      by lia.
    rewrite firstn_app_2. f_equal. apply IH. lia.
Qed.

Lemma chunks_concat_repeat (c : list Byte.byte) (n : nat) :
  chunks (List.length c) n (List.concat (repeat c n)) = repeat c n.
Proof.
  induction n as [|n IH]; cbn [chunks repeat List.concat]; [reflexivity|].
  rewrite firstn_app, Nat.sub_diag, firstn_all, firstn_O, app_nil_r.
  rewrite skipn_app, Nat.sub_diag, skipn_all, skipn_O. cbn [app].
  rewrite IH. reflexivity.
Qed.

Lemma far_world_reads (file : string) (k : nat) :
  (k <= Z.to_nat (WIDTH * HEIGHT / 2))%nat ->
  readAllBytes far_world file (Z.of_nat (8 * k))
  = Ok (Some (List.concat (repeat far_bytes k))).
Proof.
  intros K. unfold readAllBytes, far_world. cbn [files heap_serves].
  rewrite length_concat_repeat. change (List.length far_bytes) with 8%nat.
  destruct (Z.leb_spec 0 (Z.of_nat (8 * k))); [|lia]. cbn [andb].
  destruct (Z.leb_spec (Z.of_nat (8 * k))
              (Z.of_nat (8 * Z.to_nat (WIDTH * HEIGHT / 2)))); [|lia].
  rewrite Nat2Z.id.
  change (8 * k)%nat with (List.length far_bytes * k)%nat.
  rewrite (firstn_concat_repeat far_bytes k _ K).
  reflexivity.
Qed.

Lemma far_world_loads (t : TestCase) :
  (exists raster, loadRaster far_world t = Ok (Some raster))
  /\ loadCoordinates far_world t
     = Ok (Some (repeat (i2d 1000000) (Z.to_nat (2 * NUM_INTERPOLATION_POINTS))))
  /\ exists expectedResults,
       loadExpectedResults far_world t = Ok (Some expectedResults).
Proof.
  unfold loadRaster, loadCoordinates, loadExpectedResults, toNativeByteOrder.
  replace (WIDTH * HEIGHT * 4)
    with (Z.of_nat (8 * Z.to_nat (WIDTH * HEIGHT / 2)))
    by (unfold WIDTH, HEIGHT; change (800 * 600 / 2) with 240000; lia).
  replace (2 * NUM_INTERPOLATION_POINTS * 8)
    with (Z.of_nat (8 * Z.to_nat (2 * NUM_INTERPOLATION_POINTS)))
    by (unfold NUM_INTERPOLATION_POINTS; lia).
  replace (NUM_INTERPOLATION_POINTS * NUM_VERIFIED_ITERATIONS * 8)
    with (Z.of_nat (8 * Z.to_nat (NUM_INTERPOLATION_POINTS
                                  * NUM_VERIFIED_ITERATIONS)))
    by (unfold NUM_INTERPOLATION_POINTS, NUM_VERIFIED_ITERATIONS; lia).
  rewrite !far_world_reads
    by (unfold WIDTH, HEIGHT, NUM_INTERPOLATION_POINTS, NUM_VERIFIED_ITERATIONS;
        change (800 * 600 / 2) with 240000; lia).
  cbn [bind native far_world endian_eqb].
  split; [eauto|]. split; [|eauto].
  rewrite (chunks_concat_repeat far_bytes). rewrite !map_repeat.
  reflexivity.
Qed.

Lemma for_loop_first_exit {S : Type} (n : nat) (i : Z)
    (body : Z -> S -> outcome S) (s : S) (code : Z) :
  (0 < n)%nat -> body i s = Exit code -> for_loop n i body s = Exit code.
Proof.
  intros N E. destruct n as [|n]; [lia|]. cbn [for_loop]. rewrite E. reflexivity.
Qed.

Lemma far_sample_exits (raster : list Z) (expectedResults : list double)
    (t : TestCase) (st : double) :
  let s := {| coordinates :=
                repeat (i2d 1000000) (Z.to_nat (2 * NUM_INTERPOLATION_POINTS));
              expectedResultCursor := 0; stats := st; self := t |} in
  TestNaN.sample raster expectedResults 0 0 s = Exit 1
  /\ TestNodata.sample raster expectedResults 0 0 s = Exit 1.
Proof.
  intros s.
  assert (read (coordinates s) (Z.shiftl 0 1) = Some (i2d 1000000)) as Rx
    by (apply read_repeat; unfold NUM_INTERPOLATION_POINTS; cbn; lia).
  assert (read (coordinates s) (Z.lor (Z.shiftl 0 1) 1) = Some (i2d 1000000))
    as Ry by (apply read_repeat; unfold NUM_INTERPOLATION_POINTS; cbn; lia).
  unfold TestNaN.sample, TestNodata.sample. cbv zeta. rewrite Rx, Ry.
  cbn [defined bind].
  change (d2i (dfloor (i2d 1000000))) with (Some 1000000). cbn [defined bind].
  change (linear_offset 1000000 1000000) with (Some 801000000).
  cbn [defined bind]. change (out_of_bounds 801000000) with true.
  split; reflexivity.
Qed.

Lemma far_world_exits (testNaN : bool) (order : endian) :
  TestNaN.computeAndCompare far_world (new_TestCase testNaN order) = Exit 1
  /\ TestNodata.computeAndCompare far_world (new_TestCase testNaN order) = Exit 1.
Proof.
  destruct (far_world_loads (new_TestCase testNaN order))
    as ([raster R] & C & [expected E]).
  unfold TestNaN.computeAndCompare, TestNodata.computeAndCompare.
  rewrite R, C, E. cbn [bind].
  unfold TestNaN.iterations, TestNodata.iterations.
  assert (TestNodata.iteration raster expected 0
            {| coordinates :=
                 repeat (i2d 1000000) (Z.to_nat (2 * NUM_INTERPOLATION_POINTS));
               expectedResultCursor := 0; stats := S754_zero false;
               self := new_TestCase testNaN order |} = Exit 1) as Is.
  { unfold TestNodata.iteration.
    change (read (errorStatistics (self _)) 0) with (Some (S754_zero false)).
    cbn [defined bind coordinates expectedResultCursor self].
    rewrite (for_loop_first_exit _ 0 _ _ 1); [reflexivity|unfold NUM_INTERPOLATION_POINTS, NUM_VERIFIED_ITERATIONS; lia|].
    apply far_sample_exits. }
  assert (TestNaN.iteration raster expected 0
            {| coordinates :=
                 repeat (i2d 1000000) (Z.to_nat (2 * NUM_INTERPOLATION_POINTS));
               expectedResultCursor := 0; stats := S754_zero false;
               self := new_TestCase testNaN order |} = Exit 1) as In.
  { unfold TestNaN.iteration.
    change (read (errorStatistics (self _)) 0) with (Some (S754_zero false)).
    cbn [defined bind coordinates expectedResultCursor self].
    rewrite (for_loop_first_exit _ 0 _ _ 1); [reflexivity|unfold NUM_INTERPOLATION_POINTS, NUM_VERIFIED_ITERATIONS; lia|].
    apply far_sample_exits. }
  rewrite (for_loop_first_exit _ 0 (TestNaN.iteration raster expected) _ 1);
    [|unfold NUM_INTERPOLATION_POINTS, NUM_VERIFIED_ITERATIONS; lia|exact In].
  rewrite (for_loop_first_exit _ 0 (TestNodata.iteration raster expected) _ 1);
    [|unfold NUM_INTERPOLATION_POINTS, NUM_VERIFIED_ITERATIONS; lia|exact Is].
  split; reflexivity.
Qed.

Lemma main_stops_witness :
  exists c, main 7 far_world = Some c /\ main 5 far_world = Some c
            /\ c = Exit 1.
Proof.
  destruct (main_stops 7 far_world) as (c & E7 & E5 & C1).
  - repeat constructor.
  - exists c. split; [exact E7|]. split; [exact E5|].
    rewrite main_closed_form in E5 by exact (le_n 5).
    unfold new_TestNodata in E5.
    rewrite (proj2 (far_world_exits false big)) in E5. cbn [bind] in E5.
    injection E5 as <-. reflexivity.
Defined.

(** ** A world whose rasters hold samples and missing cells *)

Lemma chunks_two_rows (c d : list Byte.byte) (n m : nat) :
  List.length d = List.length c ->
  chunks (List.length c) (n + m)
         (List.concat (repeat c n) ++ List.concat (repeat d m))
  = repeat c n ++ repeat d m.
Proof.
  intros L. induction n as [|n IH]; cbn [repeat List.concat app Nat.add].
  - rewrite <- L. apply chunks_concat_repeat.
  - cbn [chunks]. rewrite <- app_assoc.
    rewrite firstn_app, Nat.sub_diag, firstn_all, firstn_O, app_nil_r.
    rewrite skipn_app, Nat.sub_diag, skipn_all, skipn_O. cbn [app].
    rewrite IH. reflexivity.
Qed.

Lemma two_rows_bytes_length (c d : list Byte.byte) :
  List.length c = 4%nat -> List.length d = 4%nat ->
  List.length (two_rows_bytes c d) = Z.to_nat (WIDTH * HEIGHT * 4).
Proof.
  intros Lc Ld. unfold two_rows_bytes.
  rewrite length_app, !length_concat_repeat, Lc, Ld.
  unfold WIDTH, HEIGHT. lia.
Qed.

Lemma two_rows_chunks (c d : list Byte.byte) :
  List.length c = 4%nat -> List.length d = 4%nat ->
  chunks 4 (Z.to_nat (WIDTH * HEIGHT)) (two_rows_bytes c d)
  = repeat c (Z.to_nat (2 * WIDTH))
    ++ repeat d (Z.to_nat (WIDTH * HEIGHT - 2 * WIDTH)).
Proof.
  intros Lc Ld. unfold two_rows_bytes.
  replace (Z.to_nat (WIDTH * HEIGHT))
    with (Z.to_nat (2 * WIDTH) + Z.to_nat (WIDTH * HEIGHT - 2 * WIDTH))%nat
    by (unfold WIDTH, HEIGHT; lia).
  rewrite <- Lc. apply chunks_two_rows. rewrite Lc. exact Ld.
Qed.

Lemma served_whole (w : World) (file : string) (content : list Byte.byte)
    (numBytes : Z) :
  files w file = Some content -> heap_serves w numBytes = true ->
  List.length content = Z.to_nat numBytes -> 0 <= numBytes ->
  readAllBytes w file numBytes = Ok (Some content).
Proof.
  intros F H L N. unfold readAllBytes. rewrite F, H.
  destruct (Z.leb_spec 0 numBytes); [|lia]. cbn [andb].
  destruct (Z.leb_spec numBytes (Z.of_nat (List.length content))); [|lia].
  rewrite <- L, firstn_all. reflexivity.
Qed.

Lemma two_rows_world_rasters (testNaN : bool) (order : endian) :
  let sample := match order with big => one_bytes | little => rev one_bytes end in
  let land := if testNaN then land_nan_bytes else land_sentinel_bytes in
  let land := match order with big => land | little => rev land end in
  List.length sample = 4%nat /\ List.length land = 4%nat
  /\ readAllBytes two_rows_world (rasterFile (new_TestCase testNaN order))
       (WIDTH * HEIGHT * 4)
     = Ok (Some (two_rows_bytes sample land)).
Proof.
  destruct testNaN, order; cbv zeta;
    (split; [reflexivity|]); (split; [reflexivity|]);
    (apply served_whole;
     [reflexivity|reflexivity|apply two_rows_bytes_length; reflexivity
     |unfold WIDTH, HEIGHT; lia]).
Qed.

Lemma two_rows_world_loads (testNaN : bool) (order : endian) :
  loadRaster two_rows_world (new_TestCase testNaN order)
  = Ok (Some (two_rows (if testNaN then TestNaN.LAND else 0x461C4800))).
Proof.
  rewrite (proj1 (loadRaster_file_order _ _)).
  destruct (two_rows_world_rasters testNaN order) as (Ls & Ll & R).
  cbv zeta in *. rewrite R. cbn [omap bind option_map].
  rewrite (two_rows_chunks _ _ Ls Ll), map_app, !map_repeat.
  unfold two_rows. destruct testNaN, order; reflexivity.
Qed.

Lemma two_rows_world_doubles (testNaN : bool) (order : endian) :
  loadCoordinates two_rows_world (new_TestCase testNaN order) = Ok (Some origin)
  /\ loadExpectedResults two_rows_world (new_TestCase testNaN order)
     = Ok (Some zero_expectations).
Proof.
  assert (forall file numBytes,
            files two_rows_world file
            = Some (repeat Byte.x00 (Z.to_nat (WIDTH * HEIGHT * 4))) ->
            0 <= numBytes <= WIDTH * HEIGHT * 4 ->
            readAllBytes two_rows_world file numBytes
            = Ok (Some (repeat Byte.x00 (Z.to_nat numBytes)))) as Rd.
  { intros file numBytes F B. unfold readAllBytes. rewrite F.
    cbn [heap_serves two_rows_world]. rewrite repeat_length.
    destruct (Z.leb_spec 0 numBytes); [|lia]. cbn [andb].
    destruct (Z.leb_spec numBytes (Z.of_nat (Z.to_nat (WIDTH * HEIGHT * 4))));
      [|lia].
    rewrite firstn_repeat by lia. reflexivity. }
  unfold loadCoordinates, loadExpectedResults, toNativeByteOrder.
  rewrite !Rd;
    [|destruct testNaN; reflexivity|vm_compute; split; discriminate
     |destruct testNaN; reflexivity|vm_compute; split; discriminate].
  cbn [bind native two_rows_world endian_eqb].
  rewrite !chunks_repeat
    by (unfold WIDTH, HEIGHT, NUM_INTERPOLATION_POINTS, NUM_VERIFIED_ITERATIONS;
        lia).
  rewrite !map_repeat.
  change (word_native little (repeat Byte.x00 8)) with 0.
  change (swap64 0) with 0. change (decode64 0) with (S754_zero false).
  split; reflexivity.
Qed.

Lemma two_rows_run :
  exists r,
    TestNodata.iterations (two_rows 0x461C4800) origin zero_expectations
      (new_TestNodata big) = Ok r.
Proof.
  destruct (new_TestCase_arrays false big) as (Bs & Bn & Sp).
  apply nodata_iterations_return;
    [apply two_rows_length| |exact origin_valid|exact origin_in_range
    |exact zero_expectations_length|exact Bs|exact Bn|exact Sp].
  unfold two_rows. apply Forall_app. split; apply Forall_repeat.
  - left. reflexivity.
  - right. exists 2. split; [lia|reflexivity].
Qed.

Lemma consistent_files_verdict_witness :
  exists r,
    TestNodata.iterations (two_rows 0x461C4800) origin zero_expectations
      (new_TestNodata big) = Ok r
    /\ main 5 two_rows_world
       = Some (Ok (if success r
                   then printStatistics (with_statistics (new_TestNaN big) r)
                        ++ [Text success_message]
                   else [Text failure_message], 0)).
Proof.
  destruct two_rows_run as [r H]. exists r. split; [exact H|].
  rewrite (consistent_files_verdict 5 two_rows_world
             (two_rows TestNaN.LAND) (two_rows 0x461C4800)
             origin zero_expectations (le_n 5) two_rows_same_cell
             (fun order => conj (two_rows_world_loads true order)
                                (two_rows_world_loads false order))
             two_rows_world_doubles).
  rewrite H. reflexivity.
Defined.

Lemma byte_orders_load_the_same_raster_witness :
  loadRaster two_rows_world (new_TestCase true big)
  = loadRaster two_rows_world (new_TestCase true little)
  /\ loadRaster two_rows_world (new_TestCase true little)
     = Ok (Some (two_rows TestNaN.LAND)).
Proof.
  split; [|exact (two_rows_world_loads true little)].
  apply (byte_orders_load_the_same_raster two_rows_world
           (new_TestCase true big) (new_TestCase true little)
           (two_rows_bytes one_bytes land_nan_bytes)
           (two_rows_bytes (rev one_bytes) (rev land_nan_bytes))
           eq_refl eq_refl
           (proj2 (proj2 (two_rows_world_rasters true big)))
           (proj2 (proj2 (two_rows_world_rasters true little)))).
  rewrite !two_rows_chunks by reflexivity.
  rewrite map_app, !map_repeat. reflexivity.
Defined.
